(** * SentimentScope: the review pipeline, its query layer and the CSV import

    A shallow embedding of the three Python sources of the repository

      - [CAP_SYS/CAP_SYS/ml_api.py]     (module [MlApi])
      - [CAP_SYS/db_api.py]             (module [DbApi])
      - [CAP_SYS/CAP_SYS/import_csv.py] (module [ImportCsv])

    followed by the properties of the specification that concern them.

    Conventions of the embedding.

    - A Python [str] is the list of its characters ([str := list ascii]); a
      character is its code point, for texts of the Latin-1 range 0..255.
      Texts with other characters are outside the embedding: the case
      tables of Unicode are not part of it (beyond Latin-1 [str.lower] can
      even change the length of a text, as for U+0130). [str.lower],
      [str.strip], [str.split] and the regular-expression class [\s] are
      modelled exactly on that range, and [str.title] on the texts of that
      range whose title-case form stays within it ([title_in_latin1]).
    - A Python [float] is the rational number it denotes ([Q]); a decimal
      literal and the result of [round(x, 1)] are the decimals they write.
      Comparisons of floats are comparisons of these rationals, and a
      quotient or a product of floats is the double nearest to the exact
      result ([to_float]), as in [(count / total) * 100].
    - The pretrained classifier, the tagger and the topic-modelling library
      are parameters of the functions that call them; a call that raises is a
      call that returns [None].
    - A [try ... except Exception] block is a match on an [option]. *)

From Stdlib Require Import ZArith QArith Qpower Ascii String List Lia DecimalString.
From stdpp Require Import gmap strings list.
Import ListNotations.

Local Open Scope nat_scope.
Local Open Scope list_scope.

(** ** Python strings *)

Module PyStr.

Abbreviation str := (list ascii).

(** A literal of the source. *)
Definition py (s : string) : str := list_ascii_of_string s.

Definition code (c : ascii) : nat := nat_of_ascii c.

Definition between (lo hi n : nat) : bool := (lo <=? n) && (n <=? hi).

(** [str.isspace] on one character, which is also the class [\s] of [re]
    for [str] patterns: TAB..CR, FS..US, SPACE, NEL and NBSP. *)
Definition isspace (c : ascii) : bool :=
  between 9 13 (code c) || between 28 32 (code c)
  || (code c =? 133) || (code c =? 160).

Definition is_ascii_upper (c : ascii) : bool := between 65 90 (code c).
Definition is_ascii_lower (c : ascii) : bool := between 97 122 (code c).
Definition is_ascii_letter (c : ascii) : bool :=
  is_ascii_upper c || is_ascii_lower c.

(** The capital letters of Latin-1 above ASCII: U+00C0..U+00DE but the
    multiplication sign U+00D7. *)
Definition is_latin1_upper (c : ascii) : bool :=
  between 192 222 (code c) && negb (code c =? 215).

Definition lower_char (c : ascii) : ascii :=
  if is_ascii_upper c || is_latin1_upper c
  then ascii_of_nat (code c + 32) else c.

(** The small letters of Latin-1 above ASCII whose capital is 32 code
    points below: U+00E0..U+00FE but the division sign U+00F7. *)
Definition is_latin1_lower (c : ascii) : bool :=
  between 224 254 (code c) && negb (code c =? 247).

(** The cased characters of Latin-1: the letters above, the ordinal
    indicators U+00AA and U+00BA, the micro sign U+00B5, the sharp s U+00DF
    and U+00FF. *)
Definition is_cased (c : ascii) : bool :=
  is_ascii_letter c || is_latin1_upper c || is_latin1_lower c
  || (code c =? 170) || (code c =? 181) || (code c =? 186)
  || (code c =? 223) || (code c =? 255).

(** The title-case form of a character: the capital of a small letter,
    [Ss] for the sharp s. The forms of U+00B5 and U+00FF are U+039C and
    U+0178, outside Latin-1; see [title_in_latin1]. *)
Definition title_char (c : ascii) : str :=
  if is_ascii_lower c || is_latin1_lower c then [ascii_of_nat (code c - 32)]
  else if code c =? 223 then py "Ss"
  else [c].

(** [s.lower()] *)
Definition lower (s : str) : str := map lower_char s.

(** [s.lstrip()], [s.rstrip()], [s.strip()] *)
Fixpoint lstrip (s : str) : str :=
  match s with
  | c :: r => if isspace c then lstrip r else s
  | [] => []
  end.

Definition rstrip (s : str) : str := rev (lstrip (rev s)).

Definition strip (s : str) : str := rstrip (lstrip s).

(** [s.split()]: the maximal runs of non-whitespace characters. [cur] is
    the word being read, last character first. *)
Definition flush (cur : str) (words : list str) : list str :=
  match cur with
  | [] => words
  | _ :: _ => rev cur :: words
  end.

Fixpoint split_from (cur : str) (s : str) : list str :=
  match s with
  | [] => flush cur []
  | c :: r =>
      if isspace c then flush cur (split_from [] r)
      else split_from (c :: cur) r
  end.

Definition split (s : str) : list str := split_from [] s.

(** [s.replace(a, b)] for one-character [a] and [b]. *)
Definition replace_char (a b : ascii) (s : str) : str :=
  map (fun c => if Ascii.eqb c a then b else c) s.

(** [s.title()]: a character is put in title case when the character
    before it is not cased, and in lower case when it is. *)
Fixpoint title_from (prev_cased : bool) (s : str) : str :=
  match s with
  | [] => []
  | c :: r =>
      (if prev_cased then [lower_char c] else title_char c)
        ++ title_from (is_cased c) r
  end.

Definition title (s : str) : str := title_from false s.

(** The texts on which [title] is [s.title()]: those without U+00B5 and
    U+00FF, the two characters of Latin-1 whose title-case form is not in
    Latin-1. *)
Definition title_in_latin1 (s : str) : bool :=
  forallb (fun c => negb ((code c =? 181) || (code c =? 255))) s.

(** [sep.join(parts)] *)
Fixpoint join (sep : str) (parts : list str) : str :=
  match parts with
  | [] => []
  | [p] => p
  | p :: ps => p ++ sep ++ join sep ps
  end.

(** [str(n)] for a non-negative integer. *)
Definition str_of_nat (n : nat) : str :=
  py (NilEmpty.string_of_uint (Nat.to_uint n)).

(** [a == b] on strings. *)
Definition str_eqb (a b : str) : bool := bool_decide (a = b).

End PyStr.

Import PyStr.

(** ** Python floats *)

Module PyFloat.

(** The integer nearest to [t], ties to the even one. *)
Definition round_half_even (t : Q) : Z :=
  let n := Qnum t in
  let den := Zpos (Qden t) in
  let fl := (n / den)%Z in
  let twice := (2 * (n mod den))%Z in
  if (twice <? den)%Z then fl
  else if (den <? twice)%Z then (fl + 1)%Z
  else if Z.even fl then fl else (fl + 1)%Z.

(** [floor (log2 q)], for [0 < q]. *)
Definition ilog2 (q : Q) : Z :=
  let k := (Z.log2 (Qnum q) - Z.log2 (Zpos (Qden q)))%Z in
  if Qle_bool (2 ^ k) q then k else (k - 1)%Z.

(** The double nearest to [q], ties to the even one, for [0 < q] below the
    overflow threshold: a multiple of [2^e] where [e] is 52 below the
    exponent of [q], and at least -1074 (the subnormal numbers). *)
Definition to_float_pos (q : Q) : Q :=
  let e := Z.max (ilog2 q - 52) (-1074) in
  (inject_Z (round_half_even (q / 2 ^ e)) * 2 ^ e)%Q.

(** The result of an arithmetic operation on floats whose exact result is
    [q]: the double nearest to [q]. *)
Definition to_float (q : Q) : Q :=
  match Qnum q with
  | Z0 => 0
  | Zpos _ => to_float_pos q
  | Zneg _ => - to_float_pos (- q)
  end.

End PyFloat.

Import PyFloat.

(** ** The database

    The tables and their columns are those named by the queries of the three
    sources. *)

Module Schema.

Record brand := { brand_id : Z; brand_name : str }.

Record phone := { phone_id : Z; phone_name : str; phone_brand : Z }.

Record review := { review_id : Z; review_phone : Z; review_text : str }.

Record sentiment := { sentiment_label : str; sentiment_score : Q }.

Record topic :=
  { topic_id : Z; topic_phone : Z; topic_label : str;
    representative_terms : list (str * Q) }.

Record review_topic :=
  { rt_review : Z; rt_topic : Z; relevance_score : Q }.

(** Modelled from the spec: the table declarations are not part of the
    sources. Brand names are unique, phone names are unique per brand, a
    review has at most one sentiment row (so [sentiments] is a map from
    [review_id], which the [ON DUPLICATE KEY UPDATE] of the sentiment pass
    overwrites), and a (phone, topic_label) pair is unique. The [next_*]
    fields are the AUTO_INCREMENT counters.

    Whether an [INSERT IGNORE] whose row is ignored still uses up a value
    of the counter depends on the storage engine and its lock mode (InnoDB
    does by default, MyISAM does not), which neither the sources nor the
    spec name: [ignored_insert_uses_id] is what the server at hand does. *)
Record db :=
  { brands : list brand; next_brand_id : Z;
    phones : list phone; next_phone_id : Z;
    reviews : list review; next_review_id : Z;
    sentiments : gmap Z sentiment;
    topics : list topic; next_topic_id : Z;
    review_topics : list review_topic;
    ignored_insert_uses_id : bool }.

(** The AUTO_INCREMENT counter [next] after an [INSERT IGNORE] whose row
    was ignored. *)
Definition after_ignored (d : db) (next : Z) : Z :=
  if ignored_insert_uses_id d then (next + 1)%Z else next.

Definition empty_db : db :=
  {| brands := []; next_brand_id := 1;
     phones := []; next_phone_id := 1;
     reviews := []; next_review_id := 1;
     sentiments := ∅;
     topics := []; next_topic_id := 1;
     review_topics := [];
     ignored_insert_uses_id := true |}.

(** What an endpoint answers: a JSON body, or an [HTTPException]. *)
Inductive response (A : Type) : Type :=
| Ok (body : A)
| HttpError (status : nat) (detail : str).
Arguments Ok {A} body.
Arguments HttpError {A} status detail.

End Schema.

Import Schema.

(** ** [ml_api.py] *)

Module MlApi.

(** *** Text normalisation *)

(** [re.sub(r'[^a-zA-Z\s]', '', text)] *)
Definition sub_non_letters (text : str) : str :=
  List.filter (fun c => is_ascii_letter c || isspace c) text.

(** [re.sub(r'\s+', ' ', text)]: every maximal run of whitespace becomes
    one space. [in_run] tells that the character before was whitespace. *)
Fixpoint sub_space_runs (in_run : bool) (text : str) : str :=
  match text with
  | [] => []
  | c :: r =>
      if isspace c
      then (if in_run then sub_space_runs true r
            else " "%char :: sub_space_runs true r)
      else c :: sub_space_runs false r
  end.

Definition clean_text (text : str) : str :=
  if bool_decide (text = []) || (length (strip text) <? 10) then []
  else
    let text := lower text in
    let text := sub_non_letters text in
    strip (sub_space_runs false text).

(** *** Topic labels *)

(** The local helper [normalize] of [make_topic_label]. *)
Definition normalize (word : str) : str :=
  title (strip (replace_char "_"%char " "%char word)).

Definition make_topic_label (words : list str) : str :=
  let cleaned :=
    map normalize
      (List.filter (fun w => negb (bool_decide (strip w = []))) words) in
  match cleaned with
  | [x; y] => x ++ py " and " ++ y
  | [x; y; z] => x ++ py ", " ++ y ++ py ", and " ++ z
  | [x] => x
  | _ => join (py " ") cleaned
  end.


(** *** Float comparison [x < y] *)
Definition Qltb (x y : Q) : bool := negb (Qle_bool y x).

(** *** Single-text analysis *)

Record token :=
  { tok_text : str; pos_ : str; is_alpha : bool; lemma_ : str }.

(** What [nlp(cleaned)] gives: the texts of [doc.noun_chunks] and the
    tokens of [doc]. *)
Record doc := { noun_chunks : list str; doc_tokens : list token }.

(** [freq[w] = freq.get(w, 0) + 1] on a dict, whose items keep the order
    of first insertion. *)
Fixpoint freq_incr (w : str) (freq : list (str * nat)) : list (str * nat) :=
  match freq with
  | [] => [(w, 1)]
  | (k, n) :: r =>
      if str_eqb k w then (k, n + 1) :: r else (k, n) :: freq_incr w r
  end.

(** [sorted(items, key=..., reverse=True)]: descending and stable, so that
    items of equal key keep their order. [insert_desc] puts [x], which comes
    before the items of [l], in front of the first item that is not larger. *)
Fixpoint insert_desc {A} (key : A -> nat) (x : A) (l : list A) : list A :=
  match l with
  | [] => [x]
  | y :: r =>
      if key y <=? key x then x :: l else y :: insert_desc key x r
  end.

Definition sorted_desc {A} (key : A -> nat) (l : list A) : list A :=
  foldr (insert_desc key) [] l.

Definition candidates_of (d : doc) : list str :=
  let chunks :=
    omap (fun chunk =>
            let token_text := strip chunk in
            if (length (split token_text) <=? 3) && (3 <=? length token_text)
            then Some (replace_char " "%char "_"%char token_text)
            else None) (noun_chunks d) in
  let nouns :=
    omap (fun t =>
            if (str_eqb (pos_ t) (py "NOUN") || str_eqb (pos_ t) (py "PROPN"))
               && is_alpha t && (3 <=? length (tok_text t))
            then Some (strip (lemma_ t))
            else None) (doc_tokens d) in
  chunks ++ nouns.

Definition topics_of_doc (d : doc) : list str :=
  let freq :=
    foldl (fun freq w => if bool_decide (w = []) then freq else freq_incr w freq)
          [] (candidates_of d) in
  let top_words := take 3 (sorted_desc snd freq) in
  let raw_topics := map fst top_words in
  match raw_topics with
  | [] => []
  | _ :: _ =>
      let label_text := make_topic_label raw_topics in
      if bool_decide (label_text = []) then [] else [label_text]
  end.

Record analysis :=
  { a_sentiment : str; a_confidence : Q; a_topics : list str }.

(** *** What the topic-modelling library is given and gives back *)

(** The arguments of [CountVectorizer(...)] and of [BERTopic(...)]. *)
Record vectorizer :=
  { stop_words : str; min_df : nat; max_df : Q; max_features : nat;
    ngram_range : nat * nat }.

Record bertopic :=
  { vectorizer_model : vectorizer; nr_topics : nat; min_topic_size : nat;
    calculate_probabilities : bool }.

(** A numpy array of probabilities, by the length of its [shape]. *)
Inductive ndarray : Type :=
| Vector (v : list Q)
| Matrix (ncols : nat) (rows : list (list Q)).

(** The outcome of [topic_model.fit_transform(docs)]: the topic of every
    document, [probs] ([None] as in Python), and the fitted model's
    [get_topic], whose falsy answer for an unknown topic is the empty
    list. *)
Record fitted :=
  { doc_topics : list Z; probs : option ndarray;
    get_topic : Z -> list (str * Q) }.

(** The state of the loop over phones of [run_topic_modeling]. [fit_calls]
    is not a variable of the source: it records, in order, the calls of
    [fit_transform], each with the phone it was made for. *)
Record topic_state :=
  { ts_db : db; results : list str;
    fit_calls : list (Z * bertopic * list str) }.

Record topic_report :=
  { tr_phones_processed : nat; tr_results : list str;
    tr_fit_calls : list (Z * bertopic * list str) }.

(** The two markers of the result messages, U+274C and U+2705, as the
    bytes of their UTF-8 encoding. *)
Definition cross_mark : str :=
  [ascii_of_nat 226; ascii_of_nat 157; ascii_of_nat 140].
Definition check_mark : str :=
  [ascii_of_nat 226; ascii_of_nat 156; ascii_of_nat 133].

(** Indexing one axis of length [n] with [j], negative [j] counting from
    the end; [None] is an [IndexError]. *)
Definition np_index (n : nat) (j : Z) : option nat :=
  if (0 <=? j)%Z then (if (j <? Z.of_nat n)%Z then Some (Z.to_nat j) else None)
  else if (- Z.of_nat n <=? j)%Z then Some (Z.to_nat (Z.of_nat n + j))
  else None.

Definition Qmax2 (a b : Q) : Q := if Qle_bool a b then b else a.

(** [row.max()]; [None] is the [ValueError] of an empty row. *)
Definition row_max (row : list Q) : option Q :=
  match row with
  | [] => None
  | x :: r => Some (foldl Qmax2 x r)
  end.

(** The relevance score of document [i] for [topic_id]; [None] when the
    indexing raises. *)
Definition relevance (probs : option ndarray) (i : nat) (topic_id : Z)
    : option Q :=
  match probs with
  | Some (Matrix ncols rows) =>
      if (topic_id <? Z.of_nat ncols)%Z
      then row ← rows !! i; j ← np_index ncols topic_id; row !! j
      else row ← rows !! i; row_max row
  | _ => Some 0.5%Q
  end.

Definition with_topics (d : db) (ts : list topic) (next : Z) : db :=
  {| brands := brands d; next_brand_id := next_brand_id d;
     phones := phones d; next_phone_id := next_phone_id d;
     reviews := reviews d; next_review_id := next_review_id d;
     sentiments := sentiments d;
     topics := ts; next_topic_id := next;
     review_topics := review_topics d;
     ignored_insert_uses_id := ignored_insert_uses_id d |}.

Definition with_review_topics (d : db) (rts : list review_topic) : db :=
  {| brands := brands d; next_brand_id := next_brand_id d;
     phones := phones d; next_phone_id := next_phone_id d;
     reviews := reviews d; next_review_id := next_review_id d;
     sentiments := sentiments d;
     topics := topics d; next_topic_id := next_topic_id d;
     review_topics := rts;
     ignored_insert_uses_id := ignored_insert_uses_id d |}.

(** [SELECT topic_id FROM topics WHERE phone_id = %s AND topic_label = %s] *)
Definition select_topic (d : db) (pid : Z) (label : str) : option topic :=
  List.find (fun t => (topic_phone t =? pid)%Z && str_eqb (topic_label t) label)
            (topics d).

(** [INSERT IGNORE INTO topics ...] and the [cursor.lastrowid] after it,
    which is 0 when the row was ignored. *)
Definition insert_ignore_topic (d : db) (pid : Z) (label : str)
    (terms : list (str * Q)) : db * Z :=
  match select_topic d pid label with
  | Some _ =>
      (with_topics d (topics d) (after_ignored d (next_topic_id d)), 0%Z)
  | None =>
      (with_topics d
         (topics d ++ [{| topic_id := next_topic_id d; topic_phone := pid;
                          topic_label := label;
                          representative_terms := terms |}])
         (next_topic_id d + 1)%Z,
       next_topic_id d)
  end.

(** The documents of a phone that the topic pass keeps, each with the id
    of its review: the source fills [docs] and [review_ids] side by side. *)
Definition clean_reviews (rs : list review) : list (Z * str) :=
  omap (fun r =>
          let cleaned := clean_text (review_text r) in
          if negb (bool_decide (cleaned = [])) && (5 <=? length (split cleaned))
          then Some (review_id r, cleaned) else None) rs.

Definition create_topic_model (n_docs : nat) (ngram_range : nat * nat)
    (min_df : nat) (max_df : Q) : bertopic :=
  {| vectorizer_model :=
       {| stop_words := py "english"; min_df := min_df; max_df := max_df;
          max_features := 500; ngram_range := ngram_range |};
     nr_topics := Nat.min 8 (Nat.max 3 (n_docs / 10));
     min_topic_size := Nat.max 5 (n_docs / 20);
     calculate_probabilities := true |}.

Definition review_count (d : db) (p : phone) : nat :=
  length (List.filter (fun r => (review_phone r =? phone_id p)%Z) (reviews d)).

(** The phones the pass works on: [HAVING COUNT(r.review_id) >= 10],
    [ORDER BY review_count DESC]. *)
Definition phones_with_reviews (d : db) : list phone :=
  sorted_desc (review_count d)
    (List.filter (fun p => 10 <=? review_count d p) (phones d)).

Section Models.

(** The handles loaded at start-up; [None] when loading failed. *)
Variable sentiment_model : option (str -> option (str * Q)).
Variable nlp : option (str -> option doc).
Variable embedding_model : bool.

(** [create_topic_model(...)] followed by [fit_transform(docs)]; [None]
    when either raises. *)
Variable fit_transform : bertopic -> list str -> option fitted.

(** The order in which a Python [set] of topic numbers is iterated. *)
Variable set_order : list Z -> list Z.

(** Whether [INSERT IGNORE INTO review_topics] drops the new row because
    of an existing one. *)
Variable rt_duplicate : review_topic -> review_topic -> bool.

(** The error, if any, raised by the query for the reviews of a phone. *)
Variable query_error : Z -> option str.

Definition analyze_text (req_text : str) : response analysis :=
  match sentiment_model with
  | None => HttpError 500 (py "Sentiment model not loaded")
  | Some classify =>
      let raw_text := strip req_text in
      if length raw_text =? 0 then HttpError 400 (py "Text is required")
      else
        match classify raw_text with
        | None => HttpError 500 (py "Internal Server Error")
        | Some (result_label, score) =>
            let label := lower result_label in
            let label :=
              if str_eqb label (py "positive") && Qltb score 0.7
              then py "neutral"
              else if str_eqb label (py "negative") && Qltb score 0.7
              then py "neutral"
              else label in
            let topics :=
              match nlp with
              | None => []
              | Some tagger =>
                  let cleaned := clean_text raw_text in
                  if bool_decide (cleaned = []) then []
                  else match tagger cleaned with
                       | Some d => topics_of_doc d
                       | None => []
                       end
              end in
            Ok {| a_sentiment := label; a_confidence := score;
                  a_topics := topics |}
        end
  end.

(** *** The bulk sentiment pass *)

(** The state of the loop of [run_sentiment_analysis]. [classified] is
    not a variable of the source: it records, in order, the texts handed
    to the classifier. *)
Record pass_state :=
  { ps_sentiments : gmap Z sentiment;
    processed : nat;
    errors : nat;
    classified : list str }.

Definition unprocessed (d : db) : list review :=
  take 10000
    (List.filter (fun r => bool_decide (sentiments d !! review_id r = None))
                 (reviews d)).

Definition sentiment_step (classify : str -> option (str * Q))
    (st : pass_state) (r : review) : pass_state :=
  let text := review_text r in
  if length (strip text) <? 10 then st
  else
    match classify text with
    | None =>
        {| ps_sentiments := ps_sentiments st;
           processed := processed st;
           errors := errors st + 1;
           classified := classified st ++ [text] |}
    | Some (result_label, score) =>
        let label := lower result_label in
        let label :=
          if str_eqb label (py "positive") && Qltb score 0.7
          then py "neutral"
          else if str_eqb label (py "negative") && Qltb score 0.7
          then py "neutral"
          else label in
        {| ps_sentiments :=
             <[review_id r :=
                 {| sentiment_label := label; sentiment_score := score |}]>
               (ps_sentiments st);
           processed := processed st + 1;
           errors := errors st;
           classified := classified st ++ [text] |}
    end.

Record sentiment_report :=
  { sr_processed : nat; sr_errors : nat; sr_total_reviews : nat;
    sr_classified : list str }.

Definition with_sentiments (d : db) (s : gmap Z sentiment) : db :=
  {| brands := brands d; next_brand_id := next_brand_id d;
     phones := phones d; next_phone_id := next_phone_id d;
     reviews := reviews d; next_review_id := next_review_id d;
     sentiments := s;
     topics := topics d; next_topic_id := next_topic_id d;
     review_topics := review_topics d;
     ignored_insert_uses_id := ignored_insert_uses_id d |}.

Definition run_sentiment_analysis (d : db) : response (db * sentiment_report) :=
  match sentiment_model with
  | None => HttpError 500 (py "Sentiment model not loaded")
  | Some classify =>
      let fetched := unprocessed d in
      let st :=
        foldl (sentiment_step classify)
              {| ps_sentiments := sentiments d; processed := 0;
                 errors := 0; classified := [] |}
              fetched in
      Ok (with_sentiments d (ps_sentiments st),
          {| sr_processed := processed st; sr_errors := errors st;
             sr_total_reviews := length fetched;
             sr_classified := classified st |})
  end.

(** *** The topic pass *)

Definition insert_ignore_review_topic (rts : list review_topic)
    (row : review_topic) : list review_topic :=
  if existsb (fun old => rt_duplicate old row) rts then rts
  else rts ++ [row].

(** [for i, doc_topic in enumerate(topics)]: the rows written for one
    topic, and whether the loop ended without raising. *)
Fixpoint insert_assignments (f : fitted) (review_ids : list Z)
    (topic_id topic_db_id : Z) (i : nat) (rest : list Z)
    (rts : list review_topic) : list review_topic * bool :=
  match rest with
  | [] => (rts, true)
  | doc_topic :: rest' =>
      if (doc_topic =? topic_id)%Z then
        match relevance (probs f) i topic_id, review_ids !! i with
        | Some score, Some rid =>
            insert_assignments f review_ids topic_id topic_db_id (S i) rest'
              (insert_ignore_review_topic rts
                 {| rt_review := rid; rt_topic := topic_db_id;
                    relevance_score := score |})
        | _, _ => (rts, false)
        end
      else
        insert_assignments f review_ids topic_id topic_db_id (S i) rest' rts
  end.

(** One turn of [for topic_id in unique_topics], on the database and
    the counter [topics_created]. *)
Definition topic_step (f : fitted) (pid : Z) (review_ids : list Z)
    (st : db * nat) (topic_id : Z) : db * nat :=
  let '(d, topics_created) := st in
  if (topic_id =? -1)%Z then st
  else
    let topic_words := get_topic f topic_id in
    if length topic_words <? 3 then st
    else
      let top_words := map fst (take 3 topic_words) in
      let label := make_topic_label top_words in
      let terms := take 5 topic_words in
      let '(d1, lastrowid) := insert_ignore_topic d pid label terms in
      let topic_db_id :=
        if (lastrowid =? 0)%Z then
          match select_topic d1 pid label with
          | Some t => Schema.topic_id t
          | None => lastrowid
          end
        else lastrowid in
      if (topic_db_id =? 0)%Z then (d1, topics_created + 1)
      else
        let '(rts, completed) :=
          insert_assignments f review_ids topic_id topic_db_id 0
            (doc_topics f) (review_topics d1) in
        (with_review_topics d1 rts,
         if completed then topics_created + 1 else topics_created).

Definition store_topics (f : fitted) (p : phone) (review_ids : list Z)
    (d : db) : db * str :=
  let '(d', topics_created) :=
    foldl (topic_step f (phone_id p) review_ids) (d, 0)
          (set_order (doc_topics f)) in
  (d', check_mark ++ py " " ++ phone_name p ++ py ": "
         ++ str_of_nat topics_created ++ py " topics created").

(** One turn of [for phone in phones]. *)
Definition phone_step (st : topic_state) (p : phone) : topic_state :=
  let say d msg calls :=
    {| ts_db := d; results := results st ++ [msg];
       fit_calls := fit_calls st ++ calls |} in
  match query_error (phone_id p) with
  | Some phone_error =>
      say (ts_db st)
          (cross_mark ++ py " " ++ phone_name p ++ py ": " ++ phone_error) []
  | None =>
      let fetched :=
        List.filter (fun r => (review_phone r =? phone_id p)%Z)
                    (reviews (ts_db st)) in
      let kept := clean_reviews fetched in
      let docs := map snd kept in
      let review_ids := map fst kept in
      if length docs <? 10 then
        say (ts_db st)
            (py "Skipped " ++ phone_name p ++ py ": only "
               ++ str_of_nat (length docs) ++ py " clean reviews") []
      else
        let n_docs := length docs in
        if n_docs <? 5 then
          say (ts_db st)
              (py "Skipped " ++ phone_name p ++ py ": only "
                 ++ str_of_nat n_docs
                 ++ py " clean reviews (too few for topic modeling)") []
        else
          let min_df :=
            if n_docs <? 10 then 1 else if n_docs <? 20 then 2 else 3 in
          let max_df :=
            if n_docs <? 10 then 1.0%Q else if n_docs <? 20 then 0.9%Q else 0.8%Q in
          let primary := create_topic_model n_docs (1, 2) min_df max_df in
          match fit_transform primary docs with
          | Some f =>
              let '(d', msg) := store_topics f p review_ids (ts_db st) in
              say d' msg [(phone_id p, primary, docs)]
          | None =>
              let retry := create_topic_model n_docs (1, 1) 1 1.0%Q in
              match fit_transform retry docs with
              | Some f =>
                  let '(d', msg) := store_topics f p review_ids (ts_db st) in
                  say d' msg [(phone_id p, primary, docs);
                              (phone_id p, retry, docs)]
              | None =>
                  say (ts_db st)
                      (cross_mark ++ py " " ++ phone_name p
                         ++ py ": Topic modeling failed completely")
                      [(phone_id p, primary, docs);
                       (phone_id p, retry, docs)]
              end
          end
  end.

Definition run_topic_modeling (d : db) : response (db * topic_report) :=
  if negb embedding_model || negb (bool_decide (is_Some nlp)) then
    HttpError 500 (py "Topic modeling models not loaded")
  else
    let selected := phones_with_reviews d in
    let st :=
      foldl phone_step
            {| ts_db := d; results := []; fit_calls := [] |} selected in
    Ok (ts_db st,
        {| tr_phones_processed := length selected;
           tr_results := results st;
           tr_fit_calls := fit_calls st |}).

End Models.

End MlApi.

Import MlApi.

(** ** [db_api.py] *)

Module DbApi.

Definition compute_star_rating_from_positive_percentage
    (positive_percentage : Q) : Q :=
  if Qle_bool 80 positive_percentage then 5.0
  else if Qle_bool 60 positive_percentage then 4.0
  else if Qle_bool 40 positive_percentage then 3.0
  else if Qle_bool 20 positive_percentage then 2.0
  else 1.0.

(** The sentiment rows of the reviews of a phone: [reviews] joined with
    [sentiments] on [review_id], which is the key of both. *)
Definition phone_sentiments (d : db) (pid : Z) : list sentiment :=
  omap (fun r =>
          if (review_phone r =? pid)%Z then sentiments d !! review_id r
          else None) (reviews d).

Definition count_label (label : str) (rows : list sentiment) : nat :=
  length (List.filter (fun s => str_eqb (sentiment_label s) label) rows).

(** The [CASE ... END as star_rating] of the queries of [get_phones] and
    [search_phones], on the number of positive and of all sentiment rows
    of the group. *)
Definition star_rating_case (positive processed : nat) : Q :=
  if processed =? 0 then 3.0
  else
    let pct := (inject_Z (Z.of_nat positive) * 100.0
                / inject_Z (Z.of_nat processed))%Q in
    if Qle_bool 80 pct then 5.0
    else if Qle_bool 60 pct then 4.0
    else if Qle_bool 40 pct then 3.0
    else if Qle_bool 20 pct then 2.0
    else 1.0.

(** The [star_rating] that [get_phones] reports for a phone. *)
Definition get_phones_star_rating (d : db) (p : phone) : Q :=
  let rows := phone_sentiments d (phone_id p) in
  star_rating_case (count_label (py "positive") rows) (length rows).

(** [round(x, 1)]: to the nearest tenth, ties to the even one. *)
Definition round1 (x : Q) : Q :=
  let t := (x * 10)%Q in
  let n := Qnum t in
  let den := Zpos (Qden t) in
  let fl := (n / den)%Z in
  let twice := (2 * (n mod den))%Z in
  let k :=
    if (twice <? den)%Z then fl
    else if (den <? twice)%Z then (fl + 1)%Z
    else if Z.even fl then fl else (fl + 1)%Z in
  (k # 10)%Q.

(** [round((count / total) * 100, 1)]: the quotient of the two integers is
    a float, and so is its product with 100. *)
Definition percentage (count total : nat) : Q :=
  round1
    (to_float
       (to_float (inject_Z (Z.of_nat count) / inject_Z (Z.of_nat total))
        * 100)).

(** One entry of [sentiment_data]; the averages and extrema of the
    confidence, which no rating depends on, are left out. *)
Record summary := { sm_count : nat; sm_percentage : Q }.

Record sentiments_body :=
  { sb_phone_id : Z; sb_total_reviews : nat;
    sb_sentiments : gmap str summary }.

Definition get_sentiments (d : db) (pid : Z) : sentiments_body :=
  let rows := phone_sentiments d pid in
  let counts : gmap str nat :=
    foldl (fun m s =>
             <[sentiment_label s := default 0 (m !! sentiment_label s) + 1]> m)
          ∅ rows in
  let total_reviews := length rows in
  {| sb_phone_id := pid;
     sb_total_reviews := total_reviews;
     sb_sentiments :=
       (fun count =>
          {| sm_count := count;
             sm_percentage :=
               if 0 <? total_reviews
               then percentage count total_reviews
               else 0%Q |}) <$> counts |}.

(** The [star_rating] of the body of [get_complete_phone_data]. *)
Definition get_complete_phone_data (d : db) (pid : Z) : response Q :=
  match List.find (fun p => (phone_id p =? pid)%Z) (phones d) with
  | None => HttpError 404 (py "Phone not found")
  | Some _ =>
      let sentiments := get_sentiments d pid in
      let positive_percentage :=
        match sb_sentiments sentiments !! py "positive" with
        | Some s => sm_percentage s
        | None => 0.0%Q
        end in
      Ok (compute_star_rating_from_positive_percentage positive_percentage)
  end.

End DbApi.

Import DbApi.

(** ** [import_csv.py] *)

Module ImportCsv.

(** A row of the data frame, after [fillna('')]. *)
Record csv_row :=
  { row_brand_name : str; row_phone_name : str; row_review_text : str }.

Record import_state :=
  { st_db : db;
    brands_map : gmap str Z;
    phones_map : gmap (Z * str) Z }.

Definition select_brand_id (d : db) (name : str) : option Z :=
  brand_id <$> List.find (fun b => str_eqb (brand_name b) name) (brands d).

Definition select_phone_id (d : db) (bid : Z) (name : str) : option Z :=
  phone_id <$>
    List.find (fun p => (phone_brand p =? bid)%Z && str_eqb (phone_name p) name)
              (phones d).

Definition insert_ignore_brand (d : db) (name : str) : db :=
  match select_brand_id d name with
  | Some _ =>
      {| brands := brands d;
         next_brand_id := after_ignored d (next_brand_id d);
         phones := phones d; next_phone_id := next_phone_id d;
         reviews := reviews d; next_review_id := next_review_id d;
         sentiments := sentiments d;
         topics := topics d; next_topic_id := next_topic_id d;
         review_topics := review_topics d;
         ignored_insert_uses_id := ignored_insert_uses_id d |}
  | None =>
      {| brands := brands d ++ [{| brand_id := next_brand_id d;
                                   brand_name := name |}];
         next_brand_id := (next_brand_id d + 1)%Z;
         phones := phones d; next_phone_id := next_phone_id d;
         reviews := reviews d; next_review_id := next_review_id d;
         sentiments := sentiments d;
         topics := topics d; next_topic_id := next_topic_id d;
         review_topics := review_topics d;
         ignored_insert_uses_id := ignored_insert_uses_id d |}
  end.

Definition insert_ignore_phone (d : db) (bid : Z) (name : str) : db :=
  match select_phone_id d bid name with
  | Some _ =>
      {| brands := brands d; next_brand_id := next_brand_id d;
         phones := phones d;
         next_phone_id := after_ignored d (next_phone_id d);
         reviews := reviews d; next_review_id := next_review_id d;
         sentiments := sentiments d;
         topics := topics d; next_topic_id := next_topic_id d;
         review_topics := review_topics d;
         ignored_insert_uses_id := ignored_insert_uses_id d |}
  | None =>
      {| brands := brands d; next_brand_id := next_brand_id d;
         phones := phones d ++ [{| phone_id := next_phone_id d;
                                   phone_name := name;
                                   phone_brand := bid |}];
         next_phone_id := (next_phone_id d + 1)%Z;
         reviews := reviews d; next_review_id := next_review_id d;
         sentiments := sentiments d;
         topics := topics d; next_topic_id := next_topic_id d;
         review_topics := review_topics d;
         ignored_insert_uses_id := ignored_insert_uses_id d |}
  end.

Definition insert_review (d : db) (pid : Z) (text : str) : db :=
  {| brands := brands d; next_brand_id := next_brand_id d;
     phones := phones d; next_phone_id := next_phone_id d;
     reviews := reviews d ++ [{| review_id := next_review_id d;
                                 review_phone := pid;
                                 review_text := text |}];
     next_review_id := (next_review_id d + 1)%Z;
     sentiments := sentiments d;
     topics := topics d; next_topic_id := next_topic_id d;
     review_topics := review_topics d;
     ignored_insert_uses_id := ignored_insert_uses_id d |}.

(** One turn of [for idx, row in df.iterrows()]; [None] when
    [cursor.fetchone()[0]] or a dict lookup raises. *)
Definition import_row (st : import_state) (row : csv_row)
    : option import_state :=
  let brand := strip (row_brand_name row) in
  let phone := strip (row_phone_name row) in
  let review := strip (row_review_text row) in
  if bool_decide (brand = []) || bool_decide (phone = [])
     || bool_decide (review = [])
  then Some st
  else
    st1 ← match brands_map st !! brand with
          | Some _ => Some st
          | None =>
              let d := insert_ignore_brand (st_db st) brand in
              bid ← select_brand_id d brand;
              Some {| st_db := d;
                      brands_map := <[brand := bid]> (brands_map st);
                      phones_map := phones_map st |}
          end;
    bid ← brands_map st1 !! brand;
    let key := (bid, phone) in
    st2 ← match phones_map st1 !! key with
          | Some _ => Some st1
          | None =>
              let d := insert_ignore_phone (st_db st1) bid phone in
              pid ← select_phone_id d bid phone;
              Some {| st_db := d;
                      brands_map := brands_map st1;
                      phones_map := <[key := pid]> (phones_map st1) |}
          end;
    pid ← phones_map st2 !! key;
    Some {| st_db := insert_review (st_db st2) pid review;
            brands_map := brands_map st2;
            phones_map := phones_map st2 |}.

Fixpoint import_rows (st : import_state) (rows : list csv_row)
    : option import_state :=
  match rows with
  | [] => Some st
  | row :: rest => st' ← import_row st row; import_rows st' rest
  end.

(** [import_csv], from the rows that [pd.read_csv] found in the file. *)
Definition import_csv (d : db) (rows : list csv_row) : option db :=
  let brands_map :=
    foldl (fun m b => <[brand_name b := brand_id b]> m) ∅ (brands d) in
  let phones_map :=
    foldl (fun m p => <[(phone_brand p, phone_name p) := phone_id p]> m)
          ∅ (phones d) in
  st_db <$> import_rows {| st_db := d; brands_map := brands_map;
                           phones_map := phones_map |} rows.

End ImportCsv.

Import ImportCsv.

(** ** [ml_api.py]: status and clear-all *)

Module MlApiOps.

(** The body of [get_processing_status]. *)
Record status_body :=
  { total_reviews : nat; processed_sentiments : nat;
    unprocessed_reviews : Z; total_topics : nat;
    sentiment_percentage : Q }.

Definition get_processing_status (d : db) : status_body :=
  let total_reviews := length (reviews d) in
  let processed_sentiments := size (sentiments d) in
  let total_topics := length (topics d) in
  {| total_reviews := total_reviews;
     processed_sentiments := processed_sentiments;
     unprocessed_reviews :=
       (Z.of_nat total_reviews - Z.of_nat processed_sentiments)%Z;
     total_topics := total_topics;
     sentiment_percentage :=
       if 0 <? total_reviews
       then percentage processed_sentiments total_reviews
       else 0%Q |}.

(** [clear_processed_data]: the three [DELETE FROM] statements; the
    AUTO_INCREMENT counter of [topics] is not reset by them. *)
Definition clear_processed_data (d : db) : db :=
  {| brands := brands d; next_brand_id := next_brand_id d;
     phones := phones d; next_phone_id := next_phone_id d;
     reviews := reviews d; next_review_id := next_review_id d;
     sentiments := ∅;
     topics := []; next_topic_id := next_topic_id d;
     review_topics := [];
     ignored_insert_uses_id := ignored_insert_uses_id d |}.

End MlApiOps.

Import MlApiOps.

(** ** [db_api.py]: statistics *)

Module DbApiStats.

(** The body of [get_database_stats]. *)
Record stats_body :=
  { stats_brands : nat; stats_phones : nat; stats_reviews : nat;
    stats_processed_sentiments : nat; stats_topics : nat }.

Definition get_database_stats (d : db) : stats_body :=
  {| stats_brands := length (brands d);
     stats_phones := length (phones d);
     stats_reviews := length (reviews d);
     stats_processed_sentiments := size (sentiments d);
     stats_topics := length (topics d) |}.

(** [a LEFT JOIN b ON on a b], for one row [a]: the matching rows of [b],
    or one row of NULLs when there is none. *)
Definition left_join {A B} (on : A -> B -> bool) (a : A) (bs : list B)
    : list (option B) :=
  match List.filter (on a) bs with
  | [] => [None]
  | b :: rest => map Some (b :: rest)
  end.

(** The rows of the query of [get_ml_processing_status]: [reviews] left
    joined with [sentiments] on the review, with [topics] on the phone of
    the review, and with [review_topics] on the review. *)
Definition ml_status_rows (d : db)
    : list (review * option sentiment * option topic * option review_topic) :=
  r ← reviews d;
  s ← [sentiments d !! review_id r];
  t ← left_join (fun r t => (review_phone r =? topic_phone t)%Z) r (topics d);
  rt ← left_join (fun r rt => (review_id r =? rt_review rt)%Z) r
                 (review_topics d);
  [(r, s, t, rt)].

(** [COUNT(column)]: the rows where the column is not NULL. *)
Definition count_some {A B} (column : A -> option B) (rows : list A) : nat :=
  length (List.filter (fun row => bool_decide (is_Some (column row))) rows).

(** The body of [get_ml_processing_status]. *)
Record ml_status_body :=
  { ms_total_reviews : nat; ms_processed_sentiments : nat;
    ms_unprocessed_reviews : Z; ms_processing_percentage : Q;
    ms_total_topics : nat; ms_topic_assignments : nat }.

Definition get_ml_processing_status (d : db) : ml_status_body :=
  let rows := ml_status_rows d in
  let total_reviews := length rows in
  let processed_sentiments := count_some (fun row => row.1.1.2) rows in
  {| ms_total_reviews := total_reviews;
     ms_processed_sentiments := processed_sentiments;
     ms_unprocessed_reviews :=
       (Z.of_nat total_reviews - Z.of_nat processed_sentiments)%Z;
     ms_processing_percentage :=
       if 0 <? total_reviews
       then percentage processed_sentiments total_reviews
       else 0%Q;
     ms_total_topics := count_some (fun row => row.1.2) rows;
     ms_topic_assignments := count_some snd rows |}.

End DbApiStats.

Import DbApiStats.

(** * Properties *)

(** ** The shape of normalised text *)

(** A character of normalised text: a lowercase ASCII letter or the space. *)
Definition clean_char (c : ascii) : Prop :=
  is_ascii_lower c = true \/ c = " "%char.

(** No two spaces in a row. *)
Definition single_spaced (s : str) : Prop :=
  forall s1 s2, s <> s1 ++ [" "%char; " "%char] ++ s2.

(** The first character, if any, is not whitespace. *)
Definition starts_clean (s : str) : Prop :=
  match s with
  | c :: _ => isspace c = false
  | [] => True
  end.

Definition ends_clean (s : str) : Prop := starts_clean (rev s).

Record normalized (s : str) : Prop :=
  { norm_chars : Forall clean_char s;
    norm_single : single_spaced s;
    norm_start : starts_clean s;
    norm_end : ends_clean s }.


(** A blank word: nothing but whitespace. *)
Definition blank (w : str) : Prop := Forall (fun c => isspace c = true) w.

#[global] Instance blank_dec (w : str) : Decision (blank w) :=
  Forall_dec (fun c => isspace c = true) w.
(** ** Rows of a CSV file *)

(** A row that [import_csv] keeps: brand, phone and review text are all
    non-empty after trimming. *)
Definition complete_row (row : csv_row) : bool :=
  negb (bool_decide (strip (row_brand_name row) = []))
  && negb (bool_decide (strip (row_phone_name row) = []))
  && negb (bool_decide (strip (row_review_text row) = [])).

(** The two rows of the import scenario. *)
Definition scenario_rows : list csv_row :=
  [{| row_brand_name := py "BrandA"; row_phone_name := py "PhoneX";
      row_review_text := py "This phone is great and fast" |};
   {| row_brand_name := py "BrandA"; row_phone_name := py "PhoneX";
      row_review_text := py "" |}].

(** ** Stores used in examples *)

(** One phone with one review and no sentiment row. *)
Definition unrated_db : db :=
  {| brands := [{| brand_id := 1; brand_name := py "BrandA" |}];
     next_brand_id := 2;
     phones := [{| phone_id := 1; phone_name := py "PhoneX"; phone_brand := 1 |}];
     next_phone_id := 2;
     reviews := [{| review_id := 1; review_phone := 1;
                    review_text := py "This phone is great and fast" |}];
     next_review_id := 2;
     sentiments := ∅;
     topics := []; next_topic_id := 1;
     review_topics := [];
     ignored_insert_uses_id := true |}.

(** ** Repeated sentiment passes *)

(** The database after a call of the sentiment endpoint. *)
Definition db_after {A} (answer : response (db * A)) (d : db) : db :=
  match answer with
  | Ok (d', _) => d'
  | HttpError _ _ => d
  end.

(** The database after [n] sentiment passes in a row. *)
Fixpoint sentiment_passes (classify : str -> option (str * Q)) (n : nat)
    (d : db) : db :=
  match n with
  | O => d
  | S k =>
      sentiment_passes classify k
        (db_after (run_sentiment_analysis (Some classify) d) d)
  end.

(** [review_id] is the primary key of [reviews]. *)
Definition review_ids_unique (d : db) : Prop :=
  NoDup (map review_id (reviews d)).

(** A review that the sentiment pass does not skip. *)
Definition long_enough (r : review) : bool :=
  negb (length (strip (review_text r)) <? 10).

(** What a short review keeps true from one pass to the next. *)
Definition left_unprocessed (r : review) (d : db) : Prop :=
  review_ids_unique d /\ In r (reviews d)
  /\ sentiments d !! review_id r = None.

(** Two reviews of one phone, the first of them too short to classify. *)
Definition two_reviews_db : db :=
  {| brands := [{| brand_id := 1; brand_name := py "BrandA" |}];
     next_brand_id := 2;
     phones := [{| phone_id := 1; phone_name := py "PhoneX"; phone_brand := 1 |}];
     next_phone_id := 2;
     reviews := [{| review_id := 1; review_phone := 1; review_text := py " ok " |};
                 {| review_id := 2; review_phone := 1;
                    review_text := py "This phone is great and fast" |}];
     next_review_id := 3;
     sentiments := ∅;
     topics := []; next_topic_id := 1;
     review_topics := [];
     ignored_insert_uses_id := true |}.

(** A classifier that finds every text positive, with confidence 0.9. *)
Definition always_positive (text : str) : option (str * Q) :=
  Some (py "POSITIVE", 0.9%Q).

(** ** Outcomes of the topic pass *)

(** A recorded call of [fit_transform]: the phone, the model, the documents. *)
Abbreviation fit_call := (Z * bertopic * list str)%type.

(** The documents of a phone that the topic pass keeps: the normalised
    texts, of at least 5 words, of its reviews. *)
Definition phone_docs (rs : list review) (p : phone) : list str :=
  map snd
    (clean_reviews
       (List.filter (fun r => (review_phone r =? phone_id p)%Z) rs)).

(** The model of the first attempt on [n >= 10] documents, with bigrams. *)
Definition bigram_model (n : nat) : bertopic :=
  create_topic_model n (1, 2)
    (if n <? 20 then 2 else 3) (if n <? 20 then 0.9%Q else 0.8%Q).

(** The model of the retry: unigrams, [min_df = 1], [max_df = 1.0]. *)
Definition unigram_model (n : nat) : bertopic :=
  create_topic_model n (1, 1) 1 1.0%Q.

(** What the pass does with one phone: the message it appends to [results]
    and the calls of [fit_transform] it makes. *)
Inductive outcome
    (fit_transform : bertopic -> list str -> option fitted)
    (query_error : Z -> option str)
    (rs : list review) (p : phone) : str -> list fit_call -> Prop :=
| query_failed (e : str) :
    query_error (phone_id p) = Some e ->
    outcome fit_transform query_error rs p
      (cross_mark ++ py " " ++ phone_name p ++ py ": " ++ e) []
| skipped :
    query_error (phone_id p) = None ->
    length (phone_docs rs p) < 10 ->
    outcome fit_transform query_error rs p
      (py "Skipped " ++ phone_name p ++ py ": only "
         ++ str_of_nat (length (phone_docs rs p)) ++ py " clean reviews") []
| modelled (f : fitted) (topics_created : nat) :
    query_error (phone_id p) = None ->
    10 <= length (phone_docs rs p) ->
    fit_transform (bigram_model (length (phone_docs rs p))) (phone_docs rs p)
    = Some f ->
    outcome fit_transform query_error rs p
      (check_mark ++ py " " ++ phone_name p ++ py ": "
         ++ str_of_nat topics_created ++ py " topics created")
      [(phone_id p, bigram_model (length (phone_docs rs p)), phone_docs rs p)]
| modelled_on_retry (f : fitted) (topics_created : nat) :
    query_error (phone_id p) = None ->
    10 <= length (phone_docs rs p) ->
    fit_transform (bigram_model (length (phone_docs rs p))) (phone_docs rs p)
    = None ->
    fit_transform (unigram_model (length (phone_docs rs p))) (phone_docs rs p)
    = Some f ->
    outcome fit_transform query_error rs p
      (check_mark ++ py " " ++ phone_name p ++ py ": "
         ++ str_of_nat topics_created ++ py " topics created")
      [(phone_id p, bigram_model (length (phone_docs rs p)), phone_docs rs p);
       (phone_id p, unigram_model (length (phone_docs rs p)), phone_docs rs p)]
| failed_completely :
    query_error (phone_id p) = None ->
    10 <= length (phone_docs rs p) ->
    fit_transform (bigram_model (length (phone_docs rs p))) (phone_docs rs p)
    = None ->
    fit_transform (unigram_model (length (phone_docs rs p))) (phone_docs rs p)
    = None ->
    outcome fit_transform query_error rs p
      (cross_mark ++ py " " ++ phone_name p
         ++ py ": Topic modeling failed completely")
      [(phone_id p, bigram_model (length (phone_docs rs p)), phone_docs rs p);
       (phone_id p, unigram_model (length (phone_docs rs p)), phone_docs rs p)].

(** ** Relevance scores *)

Definition unit_interval (q : Q) : Prop := (0 <= q)%Q /\ (q <= 1)%Q.

(** The entries of the probability matrix of a fitted model are
    probabilities. *)
Definition probabilities (f : fitted) : Prop :=
  match probs f with
  | Some (Matrix _ rows) => Forall (Forall unit_interval) rows
  | _ => True
  end.

(** The score of document [i] for topic [topic_id] as C9 states it: the
    entry of the matrix when there is a matrix, 0.5 otherwise. *)
Definition relevance_as_claimed (f : fitted) (i : nat) (topic_id : Z)
    (score : Q) : Prop :=
  match probs f with
  | Some (Matrix _ rows) =>
      exists row, rows !! i = Some row /\ row !! Z.to_nat topic_id = Some score
  | _ => score = 0.5%Q
  end.

(** The score as the code computes it: the entry of the matrix when the
    matrix has a column for the topic, the largest entry of the document's
    row when it has none, 0.5 when there is no matrix. *)
Definition relevance_as_computed (f : fitted) (i : nat) (topic_id : Z)
    (score : Q) : Prop :=
  match probs f with
  | Some (Matrix ncols rows) =>
      exists row,
        rows !! i = Some row
        /\ ((topic_id < Z.of_nat ncols)%Z ->
            exists j, np_index ncols topic_id = Some j /\ row !! j = Some score)
        /\ ((Z.of_nat ncols <= topic_id)%Z -> row_max row = Some score)
  | _ => score = 0.5%Q
  end.

(** ** Stores and models used in examples of the topic pass *)

Definition sample_review (n : nat) : review :=
  {| review_id := Z.of_nat n; review_phone := 1;
     review_text := py "This phone is great and fast" |}.

(** One phone with the reviews 1..[n], each of six words. *)
Definition sample_db (n : nat) : db :=
  {| brands := [{| brand_id := 1; brand_name := py "BrandA" |}];
     next_brand_id := 2;
     phones := [{| phone_id := 1; phone_name := py "PhoneX"; phone_brand := 1 |}];
     next_phone_id := 2;
     reviews := map sample_review (seq 1 n);
     next_review_id := Z.of_nat (S n);
     sentiments := ∅;
     topics := []; next_topic_id := 1;
     review_topics := [];
     ignored_insert_uses_id := true |}.

Definition sample_words (topic_id : Z) : list (str * Q) :=
  if (topic_id =? 0)%Z
  then [(py "battery", 0.5%Q); (py "life", 0.4%Q); (py "charge", 0.3%Q)]
  else [(py "screen", 0.5%Q); (py "display", 0.4%Q); (py "size", 0.3%Q)].

(** A fitted model with the topics 0 and 1 over ten documents, and a
    probability matrix of one column. *)
Definition one_column_fit : fitted :=
  {| doc_topics := [0; 0; 0; 0; 0; 1; 1; 1; 1; 1]%Z;
     probs := Some (Matrix 1 (repeat [0.3%Q] 10));
     get_topic := sample_words |}.

Definition one_column_library (model : bertopic) (docs : list str)
    : option fitted := Some one_column_fit.

Definition no_tagger (text : str) : option doc := None.

Definition no_query_error (pid : Z) : option str := None.

Definition same_review_and_topic (a b : review_topic) : bool :=
  (rt_review a =? rt_review b)%Z && (rt_topic a =? rt_topic b)%Z.

(** A library whose every call raises. *)
Definition failing_library (model : bertopic) (docs : list str)
    : option fitted := None.

Definition phone_x : phone :=
  {| phone_id := 1; phone_name := py "PhoneX"; phone_brand := 1 |}.

(** ** Widths of the joins of the ML status query *)

(** The topic rows of the phone of a review, and the association rows of a
    review. *)
Definition topics_of_review (d : db) (r : review) : list topic :=
  List.filter (fun t => (review_phone r =? topic_phone t)%Z) (topics d).

Definition assignments_of_review (d : db) (r : review) : list review_topic :=
  List.filter (fun rt => (review_id r =? rt_review rt)%Z) (review_topics d).

(** The number of joined rows that one review contributes. *)
Definition joined_rows_of_review (d : db) (r : review) : nat :=
  Nat.max 1 (length (topics_of_review d r))
  * Nat.max 1 (length (assignments_of_review d r)).

(** ** The stages of the import of one row *)

(** The cache of brand ids that [import_csv] builds from a table: a later
    row of the same name overwrites an earlier one. *)
Definition brands_index (l : list brand) : gmap str Z :=
  foldl (fun m b => <[brand_name b := brand_id b]> m) ∅ l.

Definition phones_index (l : list phone) : gmap (Z * str) Z :=
  foldl (fun m p => <[(phone_brand p, phone_name p) := phone_id p]> m) ∅ l.

(** The caches of an import state are those of its tables. *)
Definition indexed (st : import_state) : Prop :=
  brands_map st = brands_index (brands (st_db st))
  /\ phones_map st = phones_index (phones (st_db st)).

(** The "insert brand if missing" stage of [import_row]. *)
Definition ensure_brand (st : import_state) (brand : str)
    : option import_state :=
  match brands_map st !! brand with
  | Some _ => Some st
  | None =>
      let d := insert_ignore_brand (st_db st) brand in
      bid ← select_brand_id d brand;
      Some {| st_db := d;
              brands_map := <[brand := bid]> (brands_map st);
              phones_map := phones_map st |}
  end.

(** The "insert phone if missing" stage of [import_row]. *)
Definition ensure_phone (st : import_state) (bid : Z) (phone : str)
    : option import_state :=
  match phones_map st !! (bid, phone) with
  | Some _ => Some st
  | None =>
      let d := insert_ignore_phone (st_db st) bid phone in
      pid ← select_phone_id d bid phone;
      Some {| st_db := d;
              brands_map := brands_map st;
              phones_map := <[(bid, phone) := pid]> (phones_map st) |}
  end.

(** The brand and the phone of a row are in the caches. *)
Definition known (st : import_state) (row : csv_row) : Prop :=
  exists bid,
    brands_map st !! strip (row_brand_name row) = Some bid
    /\ is_Some (phones_map st !! (bid, strip (row_phone_name row))).

(** The caches of [st'] hold what those of [st] hold. *)
Definition caches_grow (st st' : import_state) : Prop :=
  (forall name bid, brands_map st !! name = Some bid ->
                    brands_map st' !! name = Some bid)
  /\ (forall key pid, phones_map st !! key = Some pid ->
                      phones_map st' !! key = Some pid).

(** Brand names are unique, and phone names are unique per brand. *)
Definition unique_names (d : db) : Prop :=
  NoDup (map brand_name (brands d))
  /\ NoDup (map (fun p => (phone_brand p, phone_name p)) (phones d)).

(** Only the tables of brands and phones differ, by rows added at the
    end. *)
Definition adds_names (d d' : db) : Prop :=
  (exists bs, brands d' = brands d ++ bs)
  /\ (exists ps, phones d' = phones d ++ ps)
  /\ reviews d' = reviews d /\ next_review_id d' = next_review_id d
  /\ sentiments d' = sentiments d /\ topics d' = topics d
  /\ review_topics d' = review_topics d.

(** ** What the topic pass does to the database *)

(** The unique key of a topic row. *)
Definition topic_key (t : topic) : Z * str := (topic_phone t, topic_label t).

(** The topic table has a row for the key. *)
Definition has_topic (d : db) (key : Z * str) : Prop :=
  is_Some (select_topic d key.1 key.2).

(** Keys and ids of the topic rows are unique, and the ids are below the
    AUTO_INCREMENT counter. *)
Definition topics_sound (d : db) : Prop :=
  NoDup (map topic_key (topics d))
  /\ NoDup (map Schema.topic_id (topics d))
  /\ Forall (fun t => (Schema.topic_id t < next_topic_id d)%Z) (topics d).

(** [d'] is [d] with rows added at the end of the two tables of the topic
    pass. *)
Definition extends_derived (d d' : db) : Prop :=
  brands d' = brands d /\ next_brand_id d' = next_brand_id d
  /\ phones d' = phones d /\ next_phone_id d' = next_phone_id d
  /\ reviews d' = reviews d /\ next_review_id d' = next_review_id d
  /\ sentiments d' = sentiments d
  /\ (exists ts, topics d' = topics d ++ ts)
  /\ (exists rts, review_topics d' = review_topics d ++ rts).

(** The ids of the reviews whose documents the pass keeps for a phone. *)
Definition phone_review_ids (rs : list review) (p : phone) : list Z :=
  map fst
    (clean_reviews
       (List.filter (fun r => (review_phone r =? phone_id p)%Z) rs)).

(** The fitted model that the pass works with for a phone, if any: that of
    the first attempt, else that of the retry. *)
Definition chosen_fit
    (fit_transform : bertopic -> list str -> option fitted)
    (query_error : Z -> option str)
    (rs : list review) (p : phone) : option fitted :=
  match query_error (phone_id p) with
  | Some _ => None
  | None =>
      let docs := phone_docs rs p in
      if length docs <? 10 then None
      else
        match fit_transform (bigram_model (length docs)) docs with
        | Some f => Some f
        | None => fit_transform (unigram_model (length docs)) docs
        end
  end.

(** A row of [review_topics] written by the pass that started on the
    store [d0], read against the topic table [ts]: it was written for
    document [i] of a selected phone [p] and for the topic [topic_id] that
    the fitted model of [p] gives to this document; its review is the
    review [r] of [p] whose normalised text is document [i]; its topic is
    the row [t] that [ts] holds for [p] and the label of [topic_id]; its
    score is what [relevance] computes for the document and the topic. *)
Definition written_by
    (fit_transform : bertopic -> list str -> option fitted)
    (query_error : Z -> option str)
    (d0 : db) (ts : list topic) (row : review_topic) : Prop :=
  exists p f i topic_id r t,
    In p (phones_with_reviews d0)
    /\ chosen_fit fit_transform query_error (reviews d0) p = Some f
    /\ phone_docs (reviews d0) p !! i = Some (clean_text (review_text r))
    /\ doc_topics f !! i = Some topic_id
    /\ In r (reviews d0) /\ review_phone r = phone_id p
    /\ rt_review row = review_id r
    /\ List.find
         (fun t => (topic_phone t =? phone_id p)%Z
                   && str_eqb (topic_label t)
                        (make_topic_label
                           (map fst (take 3 (get_topic f topic_id)))))
         ts = Some t
    /\ rt_topic row = Schema.topic_id t
    /\ relevance (probs f) i topic_id = Some (relevance_score row).

(** A row that was in the store before the pass, or that the pass wrote. *)
Definition accounted
    (fit_transform : bertopic -> list str -> option fitted)
    (query_error : Z -> option str)
    (d0 : db) (ts : list topic) (row : review_topic) : Prop :=
  In row (review_topics d0)
  \/ written_by fit_transform query_error d0 ts row.

(** The keys of the topic rows that the pass asks for, for the topics
    [tids] of a fitted model: one for each topic other than the outlier
    topic -1 that has at least three words. *)
Definition wanted_keys (f : fitted) (pid : Z) (tids : list Z)
    : list (Z * str) :=
  omap (fun tid =>
          if (tid =? -1)%Z then None
          else if length (get_topic f tid) <? 3 then None
          else Some (pid, make_topic_label (map fst (take 3 (get_topic f tid)))))
       tids.

Definition pass_keys
    (fit_transform : bertopic -> list str -> option fitted)
    (set_order : list Z -> list Z)
    (query_error : Z -> option str)
    (rs : list review) (p : phone) : list (Z * str) :=
  match chosen_fit fit_transform query_error rs p with
  | Some f => wanted_keys f (phone_id p) (set_order (doc_topics f))
  | None => []
  end.

(** ** Well-shaped output of the topic model *)

(** The fitted model assigns a topic to each of [n_docs] documents, and its
    probability matrix, if it has one, has a row per document and the same,
    non-zero number of columns in every row. *)
Definition well_shaped (f : fitted) (n_docs : nat) : Prop :=
  length (doc_topics f) = n_docs
  /\ match probs f with
     | Some (Matrix ncols rows) =>
         length rows = n_docs /\ 0 < ncols
         /\ Forall (fun row => length row = ncols) rows
     | _ => True
     end.

(** The number of documents of a topic. *)
Definition docs_of_topic (f : fitted) (topic_id : Z) : nat :=
  length (List.filter (fun t => (t =? topic_id)%Z) (doc_topics f)).

(** Three documents, two topics, a matrix of two columns. *)
Definition two_column_fit : fitted :=
  {| doc_topics := [0; 1; 0]%Z;
     probs := Some (Matrix 2 [[0.9%Q; 0.1%Q]; [0.2%Q; 0.8%Q]; [0.6%Q; 0.4%Q]]);
     get_topic := sample_words |}.


(** ** The embedding on examples *)

Example clean_text_example :
  clean_text (py "  Great PHONE!!  Battery: 10/10, would buy ")
  = py "great phone battery would buy".
Proof. by vm_compute. Qed.

Example split_example : split (py " a  bc d ") = [py "a"; py "bc"; py "d"].
Proof. by vm_compute. Qed.

Example title_example : title (py "4g lte don't") = py "4G Lte Don'T".
Proof. by vm_compute. Qed.

Example str_of_nat_example : str_of_nat 120 = py "120".
Proof. by vm_compute. Qed.

Example sorted_desc_example :
  sorted_desc snd [(py "a", 1); (py "b", 2); (py "c", 1); (py "d", 2)]
  = [(py "b", 2); (py "d", 2); (py "a", 1); (py "c", 1)].
Proof. by vm_compute. Qed.

Example topics_of_doc_example :
  topics_of_doc
    {| noun_chunks := [py "the battery life"; py "the screen"];
       doc_tokens :=
         [{| tok_text := py "battery"; pos_ := py "NOUN"; is_alpha := true;
             lemma_ := py "battery" |};
          {| tok_text := py "batteries"; pos_ := py "NOUN"; is_alpha := true;
             lemma_ := py "battery" |};
          {| tok_text := py "is"; pos_ := py "AUX"; is_alpha := true;
             lemma_ := py "be" |}] |}
  = [py "Battery, The Battery Life, and The Screen"].
Proof. by vm_compute. Qed.

Example round1_example :
  round1 (1999 # 25) = 80.0%Q /\ round1 (625 # 100) = 6.2%Q.
Proof. by vm_compute. Qed.

(** [round((23 / 80) * 100, 1)]: the float product is just below 28.75. *)
Example percentage_example :
  (percentage 23 80 == 28.7)%Q /\ (percentage 1 3 == 33.3)%Q
  /\ (percentage 5 8 == 62.5)%Q /\ (percentage 7 7 == 100)%Q.
Proof. by vm_compute. Qed.

Example title_latin1_example :
  title (map ascii_of_nat [233; 97; 32; 223; 97]) 
  = map ascii_of_nat [201; 97; 32; 83; 115; 97].
Proof. by vm_compute. Qed.

Example relevance_example :
  relevance (Some (Matrix 2 [[0.2%Q; 0.7%Q]])) 0 1 = Some 0.7%Q
  /\ relevance (Some (Matrix 2 [[0.2%Q; 0.7%Q]])) 0 5 = Some 0.7%Q
  /\ relevance (Some (Vector [0.2%Q])) 0 0 = Some 0.5%Q
  /\ relevance None 0 0 = Some 0.5%Q.
Proof. by vm_compute. Qed.

(** ** Characters *)

Ltac each_char c :=
  destruct c as [[] [] [] [] [] [] [] []]; vm_compute; try tauto; try discriminate.

Lemma lower_char_kept (c : ascii) :
  is_ascii_letter (lower_char c) || isspace (lower_char c) = true ->
  is_ascii_lower (lower_char c) = true \/ isspace (lower_char c) = true.
Proof. each_char c. Qed.

Lemma lowercase_not_space (c : ascii) :
  is_ascii_lower c = true -> isspace c = false.
Proof. each_char c. Qed.

Lemma lowercase_lower_char (c : ascii) :
  is_ascii_lower c = true -> lower_char c = c.
Proof. each_char c. Qed.

Lemma lowercase_letter (c : ascii) :
  is_ascii_lower c = true -> is_ascii_letter c = true.
Proof. each_char c. Qed.

Lemma clean_char_not_space (c : ascii) :
  clean_char c -> isspace c = false -> is_ascii_lower c = true.
Proof. intros [H | ->] Hs; [exact H | discriminate Hs]. Qed.

Lemma isspace_lower_char (c : ascii) : isspace (lower_char c) = isspace c.
Proof. each_char c. Qed.

(** ** Stripping *)

Lemma lstrip_suffix (s : str) : exists p, s = p ++ lstrip s.
Proof.
  induction s as [| c r [p Hp]]; [by exists [] |].
  simpl. destruct (isspace c).
  - exists (c :: p). simpl. by f_equal.
  - by exists [].
Qed.

Lemma lstrip_starts_clean (s : str) : starts_clean (lstrip s).
Proof.
  induction s as [| c r IH]; [exact I |].
  simpl. destruct (isspace c) eqn:E; [exact IH | exact E].
Qed.

Lemma lstrip_id (s : str) : starts_clean s -> lstrip s = s.
Proof. destruct s as [| c r]; [done |]. simpl. by intros ->. Qed.

Lemma rstrip_prefix (s : str) : exists q, s = rstrip s ++ q.
Proof.
  unfold rstrip. destruct (lstrip_suffix (rev s)) as [p Hp].
  exists (rev p). rewrite <- rev_app_distr, <- Hp. by rewrite rev_involutive.
Qed.

Lemma strip_infix (s : str) : exists p q, s = p ++ strip s ++ q.
Proof.
  destruct (lstrip_suffix s) as [p Hp].
  destruct (rstrip_prefix (lstrip s)) as [q Hq].
  exists p, q. unfold strip. by rewrite <- Hq.
Qed.

Lemma starts_clean_prefix (a b : str) : starts_clean (a ++ b) -> a <> [] -> starts_clean a.
Proof. destruct a; [done | by simpl]. Qed.

Lemma strip_starts_clean (s : str) : starts_clean (strip s).
Proof.
  unfold strip. destruct (rstrip_prefix (lstrip s)) as [q Hq].
  destruct (rstrip (lstrip s)) as [| c r] eqn:E; [exact I |].
  pose proof (lstrip_starts_clean s) as H. rewrite Hq in H. exact H.
Qed.

Lemma strip_ends_clean (s : str) : ends_clean (strip s).
Proof.
  unfold ends_clean, strip, rstrip. rewrite rev_involutive.
  apply lstrip_starts_clean.
Qed.

Lemma strip_id (s : str) : starts_clean s -> ends_clean s -> strip s = s.
Proof.
  intros Hs He. unfold strip. rewrite (lstrip_id s Hs).
  unfold rstrip. rewrite (lstrip_id (rev s) He). apply rev_involutive.
Qed.

Lemma strip_Forall (P : ascii -> Prop) (s : str) : Forall P s -> Forall P (strip s).
Proof.
  destruct (strip_infix s) as (p & q & H). intros HF. rewrite H in HF.
  apply Forall_app in HF as [_ HF]. by apply Forall_app in HF as [HF _].
Qed.

Lemma single_spaced_infix (p m q : str) :
  single_spaced (p ++ m ++ q) -> single_spaced m.
Proof.
  intros H s1 s2 ->. apply (H (p ++ s1) (s2 ++ q)).
  by rewrite <- !app_assoc.
Qed.

Lemma strip_single_spaced (s : str) : single_spaced s -> single_spaced (strip s).
Proof.
  destruct (strip_infix s) as (p & q & H). intros Hs. rewrite H in Hs.
  by apply single_spaced_infix in Hs.
Qed.

(** ** Runs of whitespace *)

Lemma single_spaced_cons (a : ascii) (s : str) :
  single_spaced s -> ~ (a = " "%char /\ head s = Some " "%char) ->
  single_spaced (a :: s).
Proof.
  intros Hs Ha [| b s1] s2 E; simpl in E.
  - injection E as -> ->. by apply Ha.
  - injection E as _ ->. by apply (Hs s1 s2).
Qed.

Lemma single_spaced_tail (a : ascii) (s : str) :
  single_spaced (a :: s) -> single_spaced s.
Proof. intros H. by apply (single_spaced_infix [a] s []); rewrite app_nil_r. Qed.

Lemma single_spaced_head (s : str) :
  single_spaced (" "%char :: s) -> head s <> Some " "%char.
Proof.
  intros H E. destruct s as [| c r]; [done |]. injection E as ->.
  by apply (H [] r).
Qed.

Lemma sub_space_runs_single (s : str) (in_run : bool) :
  single_spaced (sub_space_runs in_run s)
  /\ (in_run = true -> head (sub_space_runs in_run s) <> Some " "%char).
Proof.
  revert in_run. induction s as [| c r IH]; intros in_run; simpl.
  - split; [by intros [| ? ?] ? | done].
  - destruct (isspace c) eqn:Ec.
    + destruct (IH true) as [H1 H2]. destruct in_run.
      * split; [exact H1 | exact H2].
      * split; [| done]. apply single_spaced_cons; [exact H1 |].
        intros [_ E]. by apply H2.
    + destruct (IH false) as [H1 _]. split.
      * apply single_spaced_cons; [exact H1 |]. by intros [-> _].
      * simpl. intros _ E. by injection E as ->.
Qed.

Lemma sub_space_runs_chars (s : str) (in_run : bool) :
  Forall (fun c => is_ascii_lower c = true \/ isspace c = true) s ->
  Forall clean_char (sub_space_runs in_run s).
Proof.
  revert in_run. induction s as [| c r IH]; intros in_run HF; simpl; [constructor |].
  apply Forall_cons in HF as [Hc HF].
  destruct (isspace c) eqn:Ec.
  - destruct in_run; [by apply IH |]. constructor; [by right | by apply IH].
  - constructor; [| by apply IH]. left. by destruct Hc.
Qed.

Lemma sub_space_runs_id (s : str) (in_run : bool) :
  Forall clean_char s -> single_spaced s ->
  (in_run = true -> head s <> Some " "%char) ->
  sub_space_runs in_run s = s.
Proof.
  revert in_run. induction s as [| c r IH]; intros in_run HF Hs Hh; [done |].
  apply Forall_cons in HF as [Hc HF]. simpl.
  destruct Hc as [Hc | ->].
  - rewrite (lowercase_not_space c Hc). f_equal.
    apply IH; [exact HF | by apply single_spaced_tail in Hs | done].
  - change (isspace " ") with true. cbv iota.
    destruct in_run; [by exfalso; apply Hh |]. f_equal.
    apply IH; [exact HF | by apply single_spaced_tail in Hs |].
    intros _. by apply single_spaced_head.
Qed.

Lemma sub_non_letters_chars (s : str) :
  Forall (fun c => is_ascii_lower c = true \/ isspace c = true)
         (sub_non_letters (lower s)).
Proof.
  unfold sub_non_letters, lower. apply List.Forall_forall. intros c Hc.
  apply List.filter_In in Hc as [Hin Hk].
  apply List.in_map_iff in Hin as (c0 & <- & _).
  by apply lower_char_kept.
Qed.

Lemma lower_id (s : str) : Forall clean_char s -> lower s = s.
Proof.
  unfold lower. induction 1 as [| c r Hc _ IH]; [done |]. simpl. rewrite IH. f_equal.
  destruct Hc as [Hc | ->]; [by apply lowercase_lower_char | done].
Qed.

Lemma sub_non_letters_id (s : str) : Forall clean_char s -> sub_non_letters s = s.
Proof.
  unfold sub_non_letters. induction 1 as [| c r Hc _ IH]; [done |]. simpl.
  rewrite IH. destruct Hc as [Hc | ->]; [| done].
  by rewrite (lowercase_letter c Hc).
Qed.

(** ** The normaliser *)

Lemma clean_text_normalized (text : str) : normalized (clean_text text).
Proof.
  unfold clean_text.
  destruct (bool_decide (text = []) || (length (strip text) <? 10)).
  - split; [constructor | by intros [| ? ?] ? | exact I | exact I].
  - split.
    + apply strip_Forall, sub_space_runs_chars, sub_non_letters_chars.
    + apply strip_single_spaced, sub_space_runs_single.
    + apply strip_starts_clean.
    + apply strip_ends_clean.
Qed.

Lemma clean_text_short (text : str) :
  length (strip text) < 10 -> clean_text text = [].
Proof.
  intros H. unfold clean_text.
  apply Nat.ltb_lt in H. rewrite H. by rewrite orb_true_r.
Qed.

Lemma clean_text_fixed (s : str) :
  normalized s -> 10 <= length s -> clean_text s = s.
Proof.
  intros [Hc Hs Hb He] Hlen. unfold clean_text.
  rewrite (strip_id s Hb He).
  destruct (bool_decide_reflect (s = [])) as [-> | _]; [simpl in Hlen; lia |].
  destruct (Nat.ltb_spec (length s) 10) as [? | _]; [lia |]. simpl.
  rewrite (lower_id s Hc), (sub_non_letters_id s Hc).
  rewrite (sub_space_runs_id s false Hc Hs); [| done].
  by apply strip_id.
Qed.
Lemma last_head_rev (s : str) : last s = head (rev s).
Proof.
  destruct (rev s) as [| c r] eqn:E.
  - apply (f_equal (@rev ascii)) in E. rewrite rev_involutive in E. by subst.
  - apply (f_equal (@rev ascii)) in E. rewrite rev_involutive in E.
    subst. simpl. apply last_snoc.
Qed.

(** C4. For every input, the output of [clean_text] is lowercase, made of
    lowercase ASCII letters and spaces only (so no digit and no punctuation),
    has no two spaces in a row, neither starts nor ends with whitespace, and
    is empty whenever the trimmed input has fewer than 10 characters.
    [clean_text] is a function of its argument alone: it reads and writes no
    state. *)
Theorem clean_text_output (text : str) :
  let out := clean_text text in
  lower out = out
  /\ Forall (fun c => is_ascii_lower c = true \/ c = " "%char) out
  /\ (forall s1 s2, out <> s1 ++ [" "%char; " "%char] ++ s2)
  /\ (forall c, head out = Some c -> isspace c = false)
  /\ (forall c, last out = Some c -> isspace c = false)
  /\ (length (strip text) < 10 -> out = []).
Proof.
  intros out. destruct (clean_text_normalized text) as [Hc Hs Hb He].
  fold out in Hc, Hs, Hb, He.
  split; [by apply lower_id |]. split; [exact Hc |]. split; [exact Hs |].
  split; [| split].
  - intros c E. destruct out; [done |]. injection E as ->. exact Hb.
  - intros c E. rewrite last_head_rev in E. unfold ends_clean in He.
    destruct (rev out); [done |]. injection E as ->. exact He.
  - apply clean_text_short.
Qed.

Lemma clean_text_output_witness :
  clean_text (py "  Nice!  ") = []
  /\ Forall (fun c => is_ascii_lower c = true \/ c = " "%char)
            (clean_text (py "Great PHONE, 10/10 -- would buy")).
Proof.
  split.
  - apply (clean_text_output (py "  Nice!  ")). vm_compute. lia.
  - apply (clean_text_output (py "Great PHONE, 10/10 -- would buy")).
Defined.

(** C3, as stated, fails: the output ["it is ok"] of the normaliser has 8
    characters, and the normaliser turns it into the empty string. *)
Lemma clean_text_not_idempotent :
  clean_text (py "it is ok!!!!") = py "it is ok"
  /\ clean_text (clean_text (py "it is ok!!!!")) <> clean_text (py "it is ok!!!!").
Proof. split; [by vm_compute | by vm_compute]. Qed.

(** C3, amended. Normalising an output of the normaliser gives it back
    unchanged when it has at least 10 characters (or is empty), and gives the
    empty string when it is shorter: the length floor applies to it as to any
    input. *)
Theorem clean_text_idempotent_from_ten (text : str) :
  clean_text (clean_text text)
  = if length (clean_text text) <? 10 then [] else clean_text text.
Proof.
  pose proof (clean_text_normalized text) as Hn.
  destruct (Nat.ltb_spec (length (clean_text text)) 10) as [Hlt | Hge].
  - apply clean_text_short.
    destruct Hn as [_ _ Hb He]. by rewrite (strip_id _ Hb He).
  - by apply clean_text_fixed.
Qed.
(** ** Topic labels *)

Lemma lowercase_not_underscore (c : ascii) :
  is_ascii_lower c = true -> Ascii.eqb c "_"%char = false.
Proof. each_char c. Qed.

Lemma replace_underscores_id (w : str) :
  Forall (fun c => is_ascii_lower c = true) w ->
  replace_char "_"%char " "%char w = w.
Proof.
  unfold replace_char. induction 1 as [| c r Hc _ IH]; [done |]. simpl.
  by rewrite IH, (lowercase_not_underscore c Hc).
Qed.

Lemma strip_lowercase_id (w : str) :
  Forall (fun c => is_ascii_lower c = true) w -> strip w = w.
Proof.
  intros HF. apply strip_id.
  - destruct HF as [| c r Hc _]; [exact I | by apply lowercase_not_space].
  - unfold ends_clean. apply List.Forall_rev in HF.
    destruct HF as [| c r Hc _]; [exact I | by apply lowercase_not_space].
Qed.

Lemma lowercase_cased (c : ascii) :
  is_ascii_lower c = true -> is_cased c = true.
Proof. each_char c. Qed.

Lemma lowercase_title_char (c : ascii) :
  is_ascii_lower c = true -> title_char c = [ascii_of_nat (code c - 32)].
Proof. each_char c; intros _; reflexivity. Qed.

Lemma title_after_letter_id (w : str) :
  Forall (fun c => is_ascii_lower c = true) w -> title_from true w = w.
Proof.
  induction 1 as [| c r Hc _ IH]; [done |]. simpl.
  by rewrite (lowercase_lower_char c Hc), (lowercase_cased c Hc), IH.
Qed.

Lemma label_form_lowercase (c : ascii) (r : str) :
  Forall (fun c => is_ascii_lower c = true) (c :: r) ->
  title (strip (replace_char "_"%char " "%char (c :: r)))
  = ascii_of_nat (code c - 32) :: r.
Proof.
  intros HF.
  rewrite (replace_underscores_id _ HF), (strip_lowercase_id _ HF).
  apply Forall_cons in HF as [Hc HF]. unfold title. simpl.
  by rewrite (lowercase_title_char c Hc), (lowercase_cased c Hc),
    (title_after_letter_id r HF).
Qed.

(** *** Blank words *)

Lemma lstrip_blank (w : str) : lstrip w = [] <-> blank w.
Proof.
  unfold blank. induction w as [| c r IH]; simpl; [by split |].
  destruct (isspace c) eqn:E.
  - rewrite IH. split; [by constructor | by intros [_ H]%Forall_cons].
  - split; [done |]. intros [H _]%Forall_cons. congruence.
Qed.

Lemma strip_blank (w : str) : strip w = [] <-> blank w.
Proof.
  split.
  - unfold strip, rstrip. intros H. apply lstrip_blank.
    apply (f_equal (@rev ascii)) in H. rewrite rev_involutive in H. simpl in H.
    apply lstrip_blank in H. unfold blank in H. apply List.Forall_rev in H.
    rewrite rev_involutive in H.
    pose proof (lstrip_starts_clean w) as Hs.
    destruct (lstrip w) as [| c r]; [done |].
    apply Forall_cons in H as [Hc _]. simpl in Hs. congruence.
  - intros H. unfold strip. apply lstrip_blank in H. by rewrite H.
Qed.

Lemma nonblank_filter (words : list str) :
  List.filter (fun w => negb (bool_decide (strip w = []))) words
  = List.filter (fun w => negb (bool_decide (blank w))) words.
Proof.
  apply List.filter_ext. intros w. f_equal. apply bool_decide_ext, strip_blank.
Qed.

Lemma filter_filter_id {A} (f : A -> bool) (l : list A) :
  List.filter f (List.filter f l) = List.filter f l.
Proof.
  induction l as [| x l IH]; [done |]. simpl.
  destruct (f x) eqn:E; [| exact IH]. simpl. by rewrite E, IH.
Qed.

(** *** The form of a word in a label *)

Lemma In_strip (x : ascii) (s : str) : In x (strip s) -> In x s.
Proof.
  destruct (strip_infix s) as (p & q & E). intros H. rewrite E.
  apply in_or_app. right. apply in_or_app. by left.
Qed.

Lemma replace_no_underscore (w : str) :
  ~ In "_"%char (replace_char "_"%char " "%char w).
Proof.
  unfold replace_char. intros (c & Hc & _)%in_map_iff.
  destruct (Ascii.eqb_spec c "_"%char); [discriminate | congruence].
Qed.

Lemma title_char_underscore (c x : ascii) :
  In x (title_char c) -> x = "_"%char -> c = "_"%char.
Proof.
  each_char c; intros H ->;
    repeat (destruct H as [H | H]; [try discriminate H; try reflexivity |]);
    destruct H.
Qed.

Lemma lower_char_underscore (c : ascii) :
  lower_char c = "_"%char -> c = "_"%char.
Proof. each_char c; intros _; reflexivity. Qed.

Lemma title_from_no_underscore (prev_cased : bool) (s : str) :
  ~ In "_"%char s -> ~ In "_"%char (title_from prev_cased s).
Proof.
  revert prev_cased. induction s as [| c r IH]; intros b Hs; simpl; [tauto |].
  intros [H | H]%in_app_or.
  - apply Hs. left. destruct b.
    + destruct H as [H | []]. by apply lower_char_underscore.
    + by apply (title_char_underscore c "_"%char).
  - apply (IH (is_cased c)); [| exact H]. intros Hr. apply Hs. by right.
Qed.

Lemma title_char_ends (c : ascii) :
  isspace c = false ->
  match title_char c, rev (title_char c) with
  | x :: _, y :: _ => isspace x || isspace y
  | _, _ => true
  end = false.
Proof. each_char c; intros _; reflexivity. Qed.

Lemma title_piece_nonspace (prev_cased : bool) (c : ascii) :
  isspace c = false ->
  exists x t y u,
    (if prev_cased then [lower_char c] else title_char c) = x :: t
    /\ rev (if prev_cased then [lower_char c] else title_char c) = y :: u
    /\ isspace x = false /\ isspace y = false.
Proof.
  intros H. destruct prev_cased.
  - exists (lower_char c), [], (lower_char c), [].
    by rewrite isspace_lower_char.
  - pose proof (title_char_ends c H) as He.
    destruct (title_char c) as [| x t]; [discriminate He |].
    destruct (rev (x :: t)) as [| y u]; [discriminate He |].
    apply orb_false_elim in He as [Hx Hy]. by exists x, t, y, u.
Qed.

Lemma title_from_starts_clean (prev_cased : bool) (s : str) :
  starts_clean s -> starts_clean (title_from prev_cased s).
Proof.
  destruct s as [| c r]; [done |]. simpl. intros Hc.
  destruct (title_piece_nonspace prev_cased c Hc) as (x & t & y & u & -> & _ & Hx & _).
  exact Hx.
Qed.

Lemma title_from_snoc (prev_cased : bool) (s : str) (c : ascii) :
  exists b : bool,
    title_from prev_cased (s ++ [c])
    = title_from prev_cased s ++ (if b then [lower_char c] else title_char c).
Proof.
  revert prev_cased. induction s as [| a s IH]; intros b; simpl.
  - exists b. by rewrite !app_nil_r.
  - destruct (IH (is_cased a)) as (b' & ->). exists b'. by rewrite app_assoc.
Qed.

Lemma title_from_ends_clean (prev_cased : bool) (s : str) :
  ends_clean s -> ends_clean (title_from prev_cased s).
Proof.
  unfold ends_clean. destruct s as [| c r _] using rev_ind; [done |].
  rewrite rev_app_distr. simpl. intros Hc.
  destruct (title_from_snoc prev_cased r c) as (b & ->).
  rewrite rev_app_distr.
  destruct (title_piece_nonspace b c Hc) as (x & t & y & u & _ & -> & _ & Hy).
  exact Hy.
Qed.

Lemma label_form_shape (w : str) :
  let form := title (strip (replace_char "_"%char " "%char w)) in
  ~ In "_"%char form /\ starts_clean form /\ ends_clean form.
Proof.
  simpl. unfold title. split; [| split].
  - apply title_from_no_underscore. intros H%In_strip.
    by apply replace_no_underscore in H.
  - apply title_from_starts_clean, strip_starts_clean.
  - apply title_from_ends_clean, strip_ends_clean.
Qed.

(** C2, as stated, fails on one word: the label of ["battery"] is
    ["Battery"], not the word unchanged. *)
Lemma make_topic_label_one_word_changed :
  make_topic_label [py "battery"] = py "Battery"
  /\ make_topic_label [py "battery"] <> py "battery".
Proof. split; [by vm_compute | by vm_compute]. Qed.

(** C2, amended. Blank words (nothing but whitespace) are dropped: the
    label of a list of words is that of its non-blank words. When one
    non-blank word X remains the label is its form X', when two remain it is
    "X' and Y'", when three remain it is "X', Y', and Z'", where the form of
    a word is the word with its underscores replaced by spaces, then
    trimmed, then title-cased. Such a form has no underscore and no
    whitespace at either end, and the form of a word of lowercase letters
    is the word with its first letter capitalised. The words are Latin-1
    texts whose title-case form is Latin-1 ([title_in_latin1]). *)
Theorem make_topic_label_phrasing (words : list str) :
  Forall (fun w => title_in_latin1 w = true) words ->
  let kept := List.filter (fun w => negb (bool_decide (blank w))) words in
  let form :=
    fun w : str => title (strip (replace_char "_"%char " "%char w)) in
  make_topic_label words = make_topic_label kept
  /\ (forall x, kept = [x] -> make_topic_label words = form x)
  /\ (forall x y, kept = [x; y] ->
        make_topic_label words = form x ++ py " and " ++ form y)
  /\ (forall x y z, kept = [x; y; z] ->
        make_topic_label words
        = form x ++ py ", " ++ form y ++ py ", and " ++ form z)
  /\ (forall w, In w words ->
        ~ In "_"%char (form w) /\ starts_clean (form w) /\ ends_clean (form w))
  /\ (forall c r, In (c :: r) words ->
        Forall (fun a => is_ascii_lower a = true) (c :: r) ->
        form (c :: r) = ascii_of_nat (code c - 32) :: r).
Proof.
  intros _ kept form.
  assert (Hlabel : forall ws, make_topic_label ws
            = match map normalize
                      (List.filter (fun w => negb (bool_decide (blank w))) ws) with
              | [x; y] => x ++ py " and " ++ y
              | [x; y; z] => x ++ py ", " ++ y ++ py ", and " ++ z
              | [x] => x
              | cleaned => join (py " ") cleaned
              end).
  { intros ws. unfold make_topic_label. rewrite nonblank_filter. cbv zeta.
    by destruct (map normalize _) as [| a [| b [| c [| e l]]]]. }
  split; [| split; [| split; [| split; [| split]]]].
  - rewrite (Hlabel words), (Hlabel kept). unfold kept.
    by rewrite filter_filter_id.
  - intros x E. rewrite (Hlabel words). fold kept. by rewrite E.
  - intros x y E. rewrite (Hlabel words). fold kept. by rewrite E.
  - intros x y z E. rewrite (Hlabel words). fold kept. by rewrite E.
  - intros w _. apply label_form_shape.
  - intros c r _ HF. by apply label_form_lowercase.
Qed.

Lemma make_topic_label_phrasing_witness :
  make_topic_label [py "battery_life"; py "  "; py "screen"]
  = py "Battery Life and Screen"
  /\ make_topic_label [py " "; py "camera"] = py "Camera".
Proof.
  destruct (make_topic_label_phrasing
              [py "battery_life"; py "  "; py "screen"])
    as (_ & _ & H2 & _); [repeat constructor |].
  destruct (make_topic_label_phrasing [py " "; py "camera"])
    as (_ & H1 & _); [repeat constructor |].
  split.
  - rewrite (H2 (py "battery_life") (py "screen")); vm_compute; reflexivity.
  - rewrite (H1 (py "camera")); vm_compute; reflexivity.
Defined.

(** ** The sentiment remap *)

Lemma Qltb_true (x y : Q) : Qltb x y = true <-> (x < y)%Q.
Proof.
  unfold Qltb. rewrite negb_true_iff. split.
  - intros H. apply Qnot_le_lt. intros Hle. apply Qle_bool_iff in Hle. congruence.
  - intros H. destruct (Qle_bool y x) eqn:E; [| done].
    apply Qle_bool_iff in E. by apply Qlt_not_le in H.
Qed.

Lemma Qltb_false (x y : Q) : Qltb x y = false <-> (y <= x)%Q.
Proof.
  unfold Qltb. rewrite negb_false_iff. apply Qle_bool_iff.
Qed.

(** C5. Let the classifier answer a binary label and a confidence [score].
    Single-text analysis reports, and the bulk pass stores, the same label:
    the classifier's label (lowercased) when [0.7 <= score], and [neutral]
    when [score < 0.7]; it is one of positive, neutral, negative. *)
Theorem sentiment_remap
    (classify : str -> option (str * Q)) (nlp : option (str -> option doc))
    (result_label : str) (score : Q)
    (text : str) (st : pass_state) (r : review) :
  lower result_label = py "positive" \/ lower result_label = py "negative" ->
  strip text <> [] ->
  classify (strip text) = Some (result_label, score) ->
  10 <= length (strip (review_text r)) ->
  classify (review_text r) = Some (result_label, score) ->
  exists label,
    (exists topics,
       analyze_text (Some classify) nlp text
       = Ok {| a_sentiment := label; a_confidence := score;
               a_topics := topics |})
    /\ ps_sentiments (sentiment_step classify st r) !! review_id r
       = Some {| sentiment_label := label; sentiment_score := score |}
    /\ ((0.7 <= score)%Q -> label = lower result_label)
    /\ ((score < 0.7)%Q -> label = py "neutral")
    /\ In label [py "positive"; py "neutral"; py "negative"].
Proof.
  intros Hbin Htext Hc1 Hlen Hc2.
  unfold analyze_text, sentiment_step. rewrite Hc1, Hc2.
  destruct (Nat.eqb_spec (length (strip text)) 0) as [E | _];
    [by destruct (strip text) |].
  destruct (Nat.ltb_spec (length (strip (review_text r))) 10) as [? | _]; [lia |].
  destruct (Qltb score 0.7) eqn:Elt.
  - exists (py "neutral"). apply Qltb_true in Elt.
    destruct Hbin as [-> | ->]; simpl; rewrite lookup_insert_eq;
      (split; [by eexists |]); (split; [done |]);
      (split; [by intros ?%Qle_not_lt |]); (split; [done |]);
      right; by left.
  - exists (lower result_label). apply Qltb_false in Elt.
    rewrite !andb_false_r. simpl. rewrite lookup_insert_eq.
    split; [by eexists |]. split; [done |]. split; [done |].
    split; [by intros ?%Qlt_not_le |].
    destruct Hbin as [-> | ->]; [by left | right; right; by left].
Qed.

Lemma sentiment_remap_witness :
  exists label,
    ps_sentiments
      (sentiment_step (fun _ => Some (py "POSITIVE", 0.65%Q))
         {| ps_sentiments := ∅; processed := 0; errors := 0; classified := [] |}
         {| review_id := 7; review_phone := 1;
            review_text := py "works fine, nothing special" |}) !! 7%Z
    = Some {| sentiment_label := label; sentiment_score := 0.65%Q |}
    /\ label = py "neutral".
Proof.
  destruct (sentiment_remap (fun _ => Some (py "POSITIVE", 0.65%Q)) None
              (py "POSITIVE") 0.65%Q (py " it works ")
              {| ps_sentiments := ∅; processed := 0; errors := 0; classified := [] |}
              {| review_id := 7; review_phone := 1;
                 review_text := py "works fine, nothing special" |})
    as (label & _ & Hstore & _ & Hlow & _).
  - left. by vm_compute.
  - by vm_compute.
  - reflexivity.
  - vm_compute. lia.
  - reflexivity.
  - exists label. split; [exact Hstore | by apply Hlow].
Defined.
(** ** Float arithmetic *)

Lemma pow2_pos (e : Z) : (0 < 2 ^ e)%Q.
Proof. by apply Qpower_0_lt. Qed.

Lemma pow2_nat (n : Z) : (0 <= n)%Z -> (2 ^ n == inject_Z (2 ^ n))%Q.
Proof. intros H. by rewrite Zpower_Qpower. Qed.

Lemma round_half_even_le (t : Q) (k : Z) :
  (t <= inject_Z k)%Q -> (round_half_even t <= k)%Z.
Proof.
  destruct t as [n p]. unfold Qle, round_half_even. simpl. intros H.
  set (den := Z.pos p) in *.
  assert (Hden : (0 < den)%Z) by (unfold den; lia).
  pose proof (Z.div_mod n den ltac:(lia)) as Hdm.
  pose proof (Z.mod_pos_bound n den Hden) as Hmod.
  set (fl := (n / den)%Z) in *. set (r := (n mod den)%Z) in *.
  assert (Hfl : (fl <= k)%Z) by nia.
  assert (Hk : (fl = k -> r = 0)%Z) by nia.
  destruct (Z.ltb_spec (2 * r) den); [lia |].
  destruct (Z.ltb_spec den (2 * r)); [lia |].
  destruct (Z.even fl); lia.
Qed.

Lemma round_half_even_nonneg (t : Q) : (0 <= t)%Q -> (0 <= round_half_even t)%Z.
Proof.
  destruct t as [n p]. unfold Qle, round_half_even. simpl. intros H.
  set (den := Z.pos p) in *.
  assert (Hden : (0 < den)%Z) by (unfold den; lia).
  pose proof (Z.div_mod n den ltac:(lia)) as Hdm.
  pose proof (Z.mod_pos_bound n den Hden) as Hmod.
  set (fl := (n / den)%Z) in *. set (r := (n mod den)%Z) in *.
  assert (Hfl : (0 <= fl)%Z) by nia.
  destruct (Z.ltb_spec (2 * r) den); [lia |].
  destruct (Z.ltb_spec den (2 * r)); [lia |].
  destruct (Z.even fl); lia.
Qed.

(** [2 ^ ilog2 q <= q] *)
Lemma ilog2_le (q : Q) : (0 < q)%Q -> (2 ^ ilog2 q <= q)%Q.
Proof.
  intros Hq. unfold ilog2. destruct q as [n d]. cbn [Qnum Qden].
  set (ln := Z.log2 n). set (ld := Z.log2 (Z.pos d)).
  destruct (Qle_bool (2 ^ (ln - ld)) (n # d)) eqn:E; [by apply Qle_bool_iff |].
  assert (Hn : (0 < n)%Z) by (unfold Qlt in Hq; simpl in Hq; lia).
  pose proof (Z.log2_spec n Hn) as [Hn1 _].
  pose proof (Z.log2_spec (Z.pos d) ltac:(lia)) as [_ Hd2].
  pose proof (Z.log2_nonneg n) as Hln.
  pose proof (Z.log2_nonneg (Z.pos d)) as Hld.
  fold ln in Hn1, Hln. fold ld in Hd2, Hld.
  replace (ln - ld - 1)%Z with (ln - Z.succ ld)%Z by lia.
  rewrite Qpower_minus by done.
  rewrite (pow2_nat ln) by lia.
  rewrite (pow2_nat (Z.succ ld)) by lia.
  apply Qle_shift_div_r.
  { change 0%Q with (inject_Z 0). rewrite <- Zlt_Qlt. lia. }
  unfold Qle. simpl. rewrite !Z.mul_1_r. nia.
Qed.

(** [q < 2 ^ (ilog2 q + 1)] *)
Lemma ilog2_lt (q : Q) : (0 < q)%Q -> (q < 2 ^ (ilog2 q + 1))%Q.
Proof.
  intros Hq. unfold ilog2. destruct q as [n d]. cbn [Qnum Qden].
  set (ln := Z.log2 n). set (ld := Z.log2 (Z.pos d)).
  destruct (Qle_bool (2 ^ (ln - ld)) (n # d)) eqn:E.
  - assert (Hn : (0 < n)%Z) by (unfold Qlt in Hq; simpl in Hq; lia).
    pose proof (Z.log2_spec n Hn) as [_ Hn2].
    pose proof (Z.log2_spec (Z.pos d) ltac:(lia)) as [Hd1 _].
    pose proof (Z.log2_nonneg n) as Hln.
    pose proof (Z.log2_nonneg (Z.pos d)) as Hld.
    fold ln in Hn2, Hln. fold ld in Hd1, Hld.
    replace (ln - ld + 1)%Z with (Z.succ ln - ld)%Z by lia.
    rewrite Qpower_minus by done.
    rewrite (pow2_nat (Z.succ ln)) by lia.
    rewrite (pow2_nat ld) by lia.
    apply Qlt_shift_div_l.
    { change 0%Q with (inject_Z 0). rewrite <- Zlt_Qlt. lia. }
    unfold Qlt. simpl. rewrite !Z.mul_1_r. nia.
  - replace (ln - ld - 1 + 1)%Z with (ln - ld)%Z by lia.
    apply Qnot_le_lt. intros H. apply Qle_bool_iff in H. congruence.
Qed.

Lemma ilog2_below (q : Q) (k : Z) :
  (0 < q)%Q -> (q < 2 ^ (k + 1))%Q -> (ilog2 q <= k)%Z.
Proof.
  intros Hq Hlt. pose proof (ilog2_le q Hq) as Hle.
  assert (H : (2 ^ ilog2 q < 2 ^ (k + 1))%Q) by by eapply Qle_lt_trans.
  apply Qpower_lt_compat_l_inv in H; [lia | done].
Qed.

(** A float [m * 2^e] is an upper bound of the doubles nearest to the
    rationals below it whose exponent is small enough. *)
Lemma to_float_pos_le (q : Q) (m e : Z) :
  (0 < q)%Q -> (q <= inject_Z m * 2 ^ e)%Q ->
  (ilog2 q - 52 <= e)%Z -> (-1074 <= e)%Z ->
  (to_float_pos q <= inject_Z m * 2 ^ e)%Q.
Proof.
  intros Hq Hle He Hmin. unfold to_float_pos.
  set (e' := Z.max (ilog2 q - 52) (-1074)).
  assert (He' : (e' <= e)%Z) by (unfold e'; lia).
  assert (Hsplit : (2 ^ e == inject_Z (2 ^ (e - e')) * 2 ^ e')%Q).
  { rewrite <- pow2_nat by lia. rewrite <- Qpower_plus by done.
    by replace (e - e' + e')%Z with e by lia. }
  assert (Hint : (q / 2 ^ e' <= inject_Z (m * 2 ^ (e - e')))%Q).
  { apply Qle_shift_div_r; [apply pow2_pos |].
    rewrite inject_Z_mult, <- Qmult_assoc, <- Hsplit. exact Hle. }
  apply round_half_even_le in Hint. rewrite Zle_Qle in Hint.
  rewrite Hsplit, Qmult_assoc, <- inject_Z_mult.
  apply Qmult_le_compat_r; [exact Hint |]. apply Qlt_le_weak, pow2_pos.
Qed.

Lemma to_float_pos_nonneg (q : Q) : (0 < q)%Q -> (0 <= to_float_pos q)%Q.
Proof.
  intros Hq. unfold to_float_pos. apply Qmult_le_0_compat.
  - change 0%Q with (inject_Z 0). rewrite <- Zle_Qle.
    apply round_half_even_nonneg. apply Qle_shift_div_l; [apply pow2_pos |].
    rewrite Qmult_0_l. by apply Qlt_le_weak.
  - apply Qlt_le_weak, pow2_pos.
Qed.

Lemma Qnum_pos (q : Q) (p : positive) : Qnum q = Z.pos p -> (0 < q)%Q.
Proof. destruct q as [n d]. simpl. intros ->. unfold Qlt. simpl. lia. Qed.

Lemma to_float_nonneg (q : Q) : (0 <= q)%Q -> (0 <= to_float q)%Q.
Proof.
  intros Hq. unfold to_float. destruct (Qnum q) as [| p | p] eqn:E.
  - apply Qle_refl.
  - apply to_float_pos_nonneg. by apply (Qnum_pos q p).
  - destruct q as [n d]. simpl in E. subst n. unfold Qle in Hq. simpl in Hq. lia.
Qed.

(** Rounding to a float does not cross the float [m * 2^e]. *)
Lemma to_float_le (q : Q) (m e k : Z) :
  (0 <= q)%Q -> (q <= inject_Z m * 2 ^ e)%Q ->
  (inject_Z m * 2 ^ e < 2 ^ (k + 1))%Q ->
  (k - 52 <= e)%Z -> (-1074 <= e)%Z ->
  (to_float q <= inject_Z m * 2 ^ e)%Q.
Proof.
  intros Hq Hle Hk He Hmin. unfold to_float.
  destruct (Qnum q) as [| p | p] eqn:E.
  - by apply Qle_trans with q.
  - pose proof (Qnum_pos q p E) as Hpos.
    apply to_float_pos_le; [exact Hpos | exact Hle | | exact Hmin].
    assert (ilog2 q <= k)%Z; [| lia].
    apply ilog2_below; [exact Hpos |]. by eapply Qle_lt_trans.
  - destruct q as [n d]. simpl in E. subst n. unfold Qle in Hq. simpl in Hq. lia.
Qed.

Lemma to_float_le_1 (q : Q) : (0 <= q)%Q -> (q <= 1)%Q -> (to_float q <= 1)%Q.
Proof.
  intros H0 H1.
  assert (E : (inject_Z (2 ^ 52) * 2 ^ (-52) == 1)%Q) by reflexivity.
  rewrite <- E. apply (to_float_le q (2 ^ 52) (-52) 0); try lia.
  - exact H0.
  - by rewrite E.
  - rewrite E. reflexivity.
Qed.

Lemma to_float_le_100 (q : Q) :
  (0 <= q)%Q -> (q <= 100)%Q -> (to_float q <= 100)%Q.
Proof.
  intros H0 H1.
  assert (E : (inject_Z (100 * 2 ^ 46) * 2 ^ (-46) == 100)%Q) by reflexivity.
  rewrite <- E. apply (to_float_le q (100 * 2 ^ 46) (-46) 6); try lia.
  - exact H0.
  - by rewrite E.
  - rewrite E. reflexivity.
Qed.

(** The float [(count / total) * 100] lies between 0 and 100. *)
Lemma float_percentage_bounds (count total : nat) :
  count <= total -> 0 < total ->
  let x :=
    to_float
      (to_float (inject_Z (Z.of_nat count) / inject_Z (Z.of_nat total)) * 100) in
  (0 <= x)%Q /\ (x <= 100)%Q.
Proof.
  intros Hle Hpos.
  assert (Ht : (0 < inject_Z (Z.of_nat total))%Q).
  { change 0%Q with (inject_Z 0). rewrite <- Zlt_Qlt. lia. }
  set (r := (inject_Z (Z.of_nat count) / inject_Z (Z.of_nat total))%Q).
  assert (Hr0 : (0 <= r)%Q).
  { apply Qle_shift_div_l; [exact Ht |]. rewrite Qmult_0_l.
    change 0%Q with (inject_Z 0). rewrite <- Zle_Qle. lia. }
  assert (Hr1 : (r <= 1)%Q).
  { apply Qle_shift_div_r; [exact Ht |]. rewrite Qmult_1_l.
    rewrite <- Zle_Qle. lia. }
  pose proof (to_float_nonneg r Hr0) as Hf0.
  pose proof (to_float_le_1 r Hr0 Hr1) as Hf1.
  assert (Hp0 : (0 <= to_float r * 100)%Q).
  { apply Qmult_le_0_compat; [exact Hf0 | by unfold Qle; simpl; lia]. }
  assert (Hp1 : (to_float r * 100 <= 100)%Q).
  { apply Qle_trans with (1 * 100)%Q; [| by unfold Qle; simpl; lia].
    apply Qmult_le_compat_r; [exact Hf1 | by unfold Qle; simpl; lia]. }
  split; [by apply to_float_nonneg | by apply to_float_le_100].
Qed.
(** ** Star ratings *)

(** The breakpoints of the rating helper. *)
Lemma star_rating_breakpoints (p : Q) :
  ((80 <= p)%Q -> compute_star_rating_from_positive_percentage p = 5.0%Q)
  /\ ((60 <= p < 80)%Q -> compute_star_rating_from_positive_percentage p = 4.0%Q)
  /\ ((40 <= p < 60)%Q -> compute_star_rating_from_positive_percentage p = 3.0%Q)
  /\ ((20 <= p < 40)%Q -> compute_star_rating_from_positive_percentage p = 2.0%Q)
  /\ ((p < 20)%Q -> compute_star_rating_from_positive_percentage p = 1.0%Q).
Proof.
  unfold compute_star_rating_from_positive_percentage.
  destruct (Qle_bool 80 p) eqn:E80; [apply Qle_bool_iff in E80 |];
  (destruct (Qle_bool 60 p) eqn:E60; [apply Qle_bool_iff in E60 |]);
  (destruct (Qle_bool 40 p) eqn:E40; [apply Qle_bool_iff in E40 |]);
  (destruct (Qle_bool 20 p) eqn:E20; [apply Qle_bool_iff in E20 |]);
  repeat split; intros H; try reflexivity;
  repeat match goal with
         | H : (_ <= _ < _)%Q |- _ => destruct H
         | H : Qle_bool ?a ?b = false |- _ =>
             assert (~ (a <= b)%Q) by (rewrite <- Qle_bool_iff; congruence);
             clear H
         | H1 : (?a <= ?b)%Q, H2 : (?b < ?a)%Q |- _ =>
             exfalso; exact (Qle_not_lt _ _ H1 H2)
         | H1 : ~ (?a <= ?b)%Q, H2 : (?a <= ?b)%Q |- _ => exfalso; exact (H1 H2)
         end;
  exfalso;
  match goal with
  | H1 : ~ (?a <= p)%Q, H2 : (?b <= p)%Q |- _ =>
      apply H1; apply Qle_trans with b; [by vm_compute | exact H2]
  | H1 : (?a <= p)%Q, H2 : (p < ?b)%Q |- _ =>
      apply (Qle_not_lt _ _ H1); apply Qlt_le_trans with b;
      [exact H2 | by vm_compute]
  end.
Qed.

(** With a processed sentiment, the [CASE] of the phone queries is the
    rating helper applied to the positive percentage. *)
Lemma star_rating_case_rated (positive processed : nat) :
  0 < processed ->
  star_rating_case positive processed
  = compute_star_rating_from_positive_percentage
      (inject_Z (Z.of_nat positive) * 100.0 / inject_Z (Z.of_nat processed))%Q.
Proof. intros H. unfold star_rating_case. by destruct processed; [lia |]. Qed.

(** Without a processed sentiment, the list of phones defaults to 3.0. *)
Lemma get_phones_defaults_to_three (d : db) (p : phone) :
  phone_sentiments d (phone_id p) = [] -> get_phones_star_rating d p = 3.0%Q.
Proof. unfold get_phones_star_rating. by intros ->. Qed.

(** Without a processed sentiment, the complete view finds no positive
    percentage, takes 0.0 for it, and rates the phone 1.0. *)
Lemma complete_view_without_sentiments (d : db) (p : phone) :
  In p (phones d) -> phone_sentiments d (phone_id p) = [] ->
  get_complete_phone_data d (phone_id p) = Ok 1.0%Q.
Proof.
  intros Hin Hnone. unfold get_complete_phone_data.
  destruct (List.find _ (phones d)) as [p' |] eqn:Ef.
  - unfold get_sentiments. rewrite Hnone. simpl.
    by rewrite fmap_empty, lookup_empty.
  - apply List.find_none with (x := p) in Ef; [| exact Hin].
    by rewrite Z.eqb_refl in Ef.
Qed.

(** C1 at a phone without processed sentiments: [get_phones] reports the
    default 3.0, the complete view reports 1.0. *)
Theorem complete_view_rating_of_unrated_phone :
  get_phones_star_rating unrated_db
    {| phone_id := 1; phone_name := py "PhoneX"; phone_brand := 1 |} = 3.0%Q
  /\ get_complete_phone_data unrated_db 1 = Ok 1.0%Q.
Proof. split; [by vm_compute | by vm_compute]. Qed.

(** ** The CSV import *)

Lemma import_row_incomplete (st : import_state) (row : csv_row) :
  complete_row row = false -> import_row st row = Some st.
Proof.
  unfold complete_row, import_row. intros H.
  destruct (bool_decide (strip (row_brand_name row) = []));
    destruct (bool_decide (strip (row_phone_name row) = []));
    destruct (bool_decide (strip (row_review_text row) = [])); done.
Qed.

Lemma import_rows_filter (rows : list csv_row) (st : import_state) :
  import_rows st rows = import_rows st (List.filter complete_row rows).
Proof.
  revert st. induction rows as [| row rest IH]; intros st; [done |]. simpl.
  destruct (complete_row row) eqn:E.
  - simpl. destruct (import_row st row) as [st' |]; [apply IH | done].
  - rewrite (import_row_incomplete st row E). simpl. apply IH.
Qed.

(** C8. A row whose brand, phone or review text is empty after trimming
    leaves the store as it is, so an import is the import of the complete
    rows; and importing the two rows of the scenario into the empty store
    inserts one brand, one phone and one review. *)
Theorem import_csv_skips_incomplete_rows :
  (forall st row, complete_row row = false -> import_row st row = Some st)
  /\ (forall d rows,
        import_csv d rows = import_csv d (List.filter complete_row rows))
  /\ exists d,
       import_csv empty_db scenario_rows = Some d
       /\ brands d = [{| brand_id := 1; brand_name := py "BrandA" |}]
       /\ phones d = [{| phone_id := 1; phone_name := py "PhoneX";
                         phone_brand := 1 |}]
       /\ reviews d = [{| review_id := 1; review_phone := 1;
                          review_text := py "This phone is great and fast" |}].
Proof.
  split; [exact import_row_incomplete |]. split.
  - intros d rows. unfold import_csv. by rewrite import_rows_filter.
  - eexists. split; [by vm_compute |]. by vm_compute.
Qed.
(** ** The bulk sentiment pass *)

Section SentimentPass.

Variable classify : str -> option (str * Q).

Lemma sentiment_step_short (st : pass_state) (r : review) :
  long_enough r = false -> sentiment_step classify st r = st.
Proof.
  unfold long_enough, sentiment_step. intros H%negb_false_iff. by rewrite H.
Qed.

Lemma sentiment_step_long (st : pass_state) (r : review) :
  long_enough r = true ->
  processed (sentiment_step classify st r) + errors (sentiment_step classify st r)
  = S (processed st + errors st)
  /\ classified (sentiment_step classify st r) = classified st ++ [review_text r]
  /\ forall k, k <> review_id r ->
       ps_sentiments (sentiment_step classify st r) !! k = ps_sentiments st !! k.
Proof.
  unfold long_enough, sentiment_step. intros H%negb_true_iff. rewrite H.
  destruct (classify (review_text r)) as [[result_label score] |]; simpl.
  - split; [lia |]. split; [done |]. intros k Hk. by rewrite lookup_insert_ne.
  - split; [lia |]. split; [done |]. done.
Qed.

Lemma pass_counts (l : list review) (st : pass_state) :
  processed (foldl (sentiment_step classify) st l)
  + errors (foldl (sentiment_step classify) st l)
  = processed st + errors st + length (List.filter long_enough l).
Proof.
  revert st. induction l as [| r l IH]; intros st; simpl; [lia |].
  rewrite IH. destruct (long_enough r) eqn:E; simpl.
  - destruct (sentiment_step_long st r E) as [-> _]. lia.
  - by rewrite (sentiment_step_short st r E).
Qed.

Lemma pass_classified (l : list review) (st : pass_state) (t : str) :
  In t (classified (foldl (sentiment_step classify) st l)) ->
  In t (classified st) \/ 10 <= length (strip t).
Proof.
  revert st. induction l as [| r l IH]; intros st; simpl; [by left |].
  intros [H | H]%IH; [| by right].
  destruct (long_enough r) eqn:E.
  - destruct (sentiment_step_long st r E) as (_ & Hc & _). rewrite Hc in H.
    apply in_app_or in H as [H | [<- | []]]; [by left | right].
    unfold long_enough in E. apply negb_true_iff, Nat.ltb_ge in E. exact E.
  - rewrite (sentiment_step_short st r E) in H. by left.
Qed.

Lemma pass_lookup (l : list review) (st : pass_state) (k : Z) :
  (forall r, In r l -> long_enough r = true -> review_id r <> k) ->
  ps_sentiments (foldl (sentiment_step classify) st l) !! k
  = ps_sentiments st !! k.
Proof.
  revert st. induction l as [| r l IH]; intros st Hk; simpl; [done |].
  rewrite IH by (intros r' Hr'; apply Hk; by right).
  destruct (long_enough r) eqn:E.
  - destruct (sentiment_step_long st r E) as (_ & _ & Hl). apply Hl.
    intros ->. by apply (Hk r); [left | |].
  - by rewrite (sentiment_step_short st r E).
Qed.

Lemma In_take {A} (n : nat) (l : list A) (x : A) : In x (take n l) -> In x l.
Proof.
  revert n. induction l as [| y l IH]; intros [| n]; simpl; try done.
  intros [-> | H]; [by left | right; by apply (IH n)].
Qed.

Lemma unprocessed_In (d : db) (r : review) :
  In r (unprocessed d) ->
  In r (reviews d) /\ sentiments d !! review_id r = None.
Proof.
  unfold unprocessed. intros H%In_take.
  apply List.filter_In in H as [Hin Hb]. split; [exact Hin |].
  by apply bool_decide_eq_true in Hb.
Qed.

Lemma review_key (l : list review) (r1 r2 : review) :
  NoDup (map review_id l) -> In r1 l -> In r2 l ->
  review_id r1 = review_id r2 -> r1 = r2.
Proof.
  induction l as [| r l IH]; [done |]. simpl.
  intros [Hnotin Hnd]%NoDup_cons [-> | H1] [-> | H2] E; try done.
  - exfalso. apply Hnotin. rewrite E. apply list_elem_of_In. by apply in_map.
  - exfalso. apply Hnotin. rewrite <- E. apply list_elem_of_In. by apply in_map.
  - by apply IH.
Qed.

Lemma pass_leaves_unprocessed (r : review) (d : db) :
  long_enough r = false -> left_unprocessed r d ->
  left_unprocessed r (db_after (run_sentiment_analysis (Some classify) d) d).
Proof.
  intros Hshort (Hu & Hin & Hnone). unfold run_sentiment_analysis. simpl.
  split; [exact Hu |]. split; [exact Hin |]. simpl.
  rewrite pass_lookup; [exact Hnone |].
  intros r' [Hr' _]%unprocessed_In Hlong E.
  rewrite (review_key _ r' r Hu Hr' Hin E) in Hlong. congruence.
Qed.

Lemma passes_leave_unprocessed (r : review) (n : nat) (d : db) :
  long_enough r = false -> left_unprocessed r d ->
  left_unprocessed r (sentiment_passes classify n d).
Proof.
  intros Hshort. revert d. induction n as [| n IH]; intros d H; [exact H |].
  simpl. apply IH. by apply pass_leaves_unprocessed.
Qed.

End SentimentPass.

(** C10. A fetched review whose trimmed text has fewer than 10 characters
    is skipped by the pass: its text is not handed to the classifier, the
    counters [processed] and [errors] count the other fetched reviews only,
    so that [processed + errors < total_reviews], and after any number of
    passes the review is still without a sentiment row. *)
Theorem short_review_skipped
    (classify : str -> option (str * Q)) (d : db) (r : review) :
  review_ids_unique d ->
  In r (unprocessed d) ->
  length (strip (review_text r)) < 10 ->
  exists d' rep,
    run_sentiment_analysis (Some classify) d = Ok (d', rep)
    /\ ~ In (review_text r) (sr_classified rep)
    /\ sr_processed rep + sr_errors rep
       = length (List.filter
                   (fun r' => negb (length (strip (review_text r')) <? 10))
                   (unprocessed d))
    /\ sr_processed rep + sr_errors rep < sr_total_reviews rep
    /\ forall n,
         In r (reviews (sentiment_passes classify n d))
         /\ sentiments (sentiment_passes classify n d) !! review_id r = None.
Proof.
  intros Hu Hfetched Hlen. eexists _, _. split; [reflexivity |]. simpl.
  assert (Hshort : long_enough r = false).
  { unfold long_enough. apply negb_false_iff. by apply Nat.ltb_lt. }
  split; [| split; [| split]].
  - intros [[] | H]%pass_classified. lia.
  - by rewrite pass_counts.
  - rewrite pass_counts. simpl. fold long_enough.
    assert (length (List.filter long_enough (unprocessed d))
            < length (unprocessed d)); [| lia].
    generalize dependent (unprocessed d). intros l Hin.
    induction l as [| r' l IH]; [done |]. simpl.
    pose proof (List.filter_length_le long_enough l) as Hle.
    destruct Hin as [-> | Hin].
    + rewrite Hshort. lia.
    + specialize (IH Hin). destruct (long_enough r'); simpl; lia.
  - intros n. apply unprocessed_In in Hfetched as [Hin Hnone].
    destruct (passes_leave_unprocessed classify r n d Hshort) as (_ & H1 & H2);
      [by split |]. by split.
Qed.

Lemma short_review_skipped_witness :
  exists d' rep,
    run_sentiment_analysis (Some always_positive) two_reviews_db = Ok (d', rep)
    /\ sr_total_reviews rep = 2
    /\ sr_processed rep + sr_errors rep < sr_total_reviews rep
    /\ sentiments d' !! 1%Z = None.
Proof.
  destruct (short_review_skipped always_positive two_reviews_db
              {| review_id := 1; review_phone := 1; review_text := py " ok " |})
    as (d' & rep & Hrun & _ & _ & Hlt & Hlater).
  - unfold review_ids_unique.
    apply (bool_decide_unpack (NoDup (map review_id (reviews two_reviews_db)))).
    by vm_compute.
  - vm_compute. by left.
  - vm_compute. lia.
  - exists d', rep. split; [exact Hrun |].
    injection Hrun as <- <-. split; [by vm_compute |]. split; [exact Hlt |].
    by vm_compute.
Defined.
(** ** The topic pass *)

Lemma In_insert_desc {A} (key : A -> nat) (x y : A) (l : list A) :
  In x (insert_desc key y l) <-> x = y \/ In x l.
Proof.
  induction l as [| z l IH]; simpl; [intuition congruence |].
  destruct (key z <=? key y); simpl; [intuition congruence |].
  rewrite IH. tauto.
Qed.

Lemma In_sorted_desc {A} (key : A -> nat) (x : A) (l : list A) :
  In x (sorted_desc key l) <-> In x l.
Proof.
  unfold sorted_desc. induction l as [| y l IH]; simpl; [tauto |].
  rewrite In_insert_desc, IH. intuition congruence.
Qed.

Lemma selected_phone (d : db) (p : phone) :
  In p (phones_with_reviews d) <-> In p (phones d) /\ 10 <= review_count d p.
Proof.
  unfold phones_with_reviews. rewrite In_sorted_desc, List.filter_In.
  by rewrite Nat.leb_le.
Qed.

Lemma insert_ignore_topic_keeps (d : db) (pid : Z) (label : str)
    (terms : list (str * Q)) :
  reviews (insert_ignore_topic d pid label terms).1 = reviews d
  /\ review_topics (insert_ignore_topic d pid label terms).1 = review_topics d.
Proof. unfold insert_ignore_topic. by destruct (select_topic d pid label). Qed.

Lemma clean_reviews_spec (rs : list review) (id : Z) (doc : str) :
  In (id, doc) (clean_reviews rs) ->
  exists r, In r rs /\ review_id r = id /\ doc = clean_text (review_text r)
            /\ 5 <= length (split doc).
Proof.
  unfold clean_reviews. intros H%list_elem_of_In%list_elem_of_omap.
  destruct H as (r & Hr%list_elem_of_In & Hsome). exists r. split; [exact Hr |].
  cbv beta zeta in Hsome.
  destruct (bool_decide (clean_text (review_text r) = []));
    [by simpl in Hsome |].
  destruct (Nat.leb_spec 5 (length (split (clean_text (review_text r)))))
    as [Hle | ?]; simpl in Hsome; [| done].
  by injection Hsome as <- <-.
Qed.

Section TopicPass.

Variable fit_transform : bertopic -> list str -> option fitted.
Variable set_order : list Z -> list Z.
Variable rt_duplicate : review_topic -> review_topic -> bool.
Variable query_error : Z -> option str.

(** *** What is written to [review_topics] *)

Section Rows.

Variable good : review_topic -> Prop.
Variable f : fitted.
Hypothesis good_new :
  forall i topic_id score rid topic_db_id,
    doc_topics f !! i = Some topic_id ->
    relevance (probs f) i topic_id = Some score ->
    good {| rt_review := rid; rt_topic := topic_db_id;
            relevance_score := score |}.

Lemma insert_ignore_review_topic_good (rts : list review_topic)
    (row : review_topic) :
  Forall good rts -> good row ->
  Forall good (insert_ignore_review_topic rt_duplicate rts row).
Proof.
  intros Hrts Hrow. unfold insert_ignore_review_topic.
  destruct (existsb _ rts); [exact Hrts |].
  apply Forall_app. split; [exact Hrts | by constructor].
Qed.

Lemma insert_assignments_good (review_ids : list Z) (topic_id topic_db_id : Z)
    (rest : list Z) (i : nat) (rts : list review_topic) :
  (forall j t, rest !! j = Some t -> doc_topics f !! (i + j) = Some t) ->
  Forall good rts ->
  Forall good
    (insert_assignments rt_duplicate f review_ids topic_id topic_db_id i rest rts).1.
Proof.
  revert i rts. induction rest as [| doc_topic rest IH]; intros i rts Hoff Hrts;
    simpl; [exact Hrts |].
  assert (Hrest : forall j t, rest !! j = Some t ->
                              doc_topics f !! (S i + j) = Some t).
  { intros j t Hj. replace (S i + j) with (i + S j) by lia. by apply Hoff. }
  destruct (Z.eqb_spec doc_topic topic_id) as [-> | _]; [| by apply IH].
  destruct (relevance (probs f) i topic_id) as [score |] eqn:Erel; [| exact Hrts].
  destruct (review_ids !! i) as [rid |]; [| exact Hrts].
  apply IH; [exact Hrest |]. apply insert_ignore_review_topic_good; [exact Hrts |].
  apply (good_new i topic_id); [| exact Erel].
  specialize (Hoff 0 topic_id eq_refl). by rewrite Nat.add_0_r in Hoff.
Qed.

Lemma topic_step_good (pid : Z) (review_ids : list Z) (st : db * nat)
    (topic_id : Z) :
  Forall good (review_topics st.1) ->
  reviews (topic_step rt_duplicate f pid review_ids st topic_id).1 = reviews st.1
  /\ Forall good
       (review_topics (topic_step rt_duplicate f pid review_ids st topic_id).1).
Proof.
  destruct st as [d k]. simpl. intros Hd. unfold topic_step.
  destruct (topic_id =? -1)%Z; [done |].
  destruct (length (get_topic f topic_id) <? 3); [done |].
  pose proof (insert_ignore_topic_keeps d pid
                (make_topic_label (map fst (take 3 (get_topic f topic_id))))
                (take 5 (get_topic f topic_id))) as [Hr Hrt].
  destruct (insert_ignore_topic d pid _ _) as [d1 lastrowid]. simpl in Hr, Hrt.
  match goal with |- context [if (?x =? 0)%Z then (d1, _) else _] =>
    destruct (x =? 0)%Z; [simpl; by rewrite Hr, Hrt |];
    pose proof (insert_assignments_good review_ids topic_id x (doc_topics f) 0
                  (review_topics d1)) as Hnew;
    destruct (insert_assignments rt_duplicate f review_ids topic_id x 0
                (doc_topics f) (review_topics d1)) as [rts completed]
  end.
  simpl. split; [exact Hr |]. apply Hnew; [done | by rewrite Hrt].
Qed.

Lemma topic_steps_good (pid : Z) (review_ids : list Z) (tids : list Z)
    (st : db * nat) :
  Forall good (review_topics st.1) ->
  reviews (foldl (topic_step rt_duplicate f pid review_ids) st tids).1
  = reviews st.1
  /\ Forall good
       (review_topics
          (foldl (topic_step rt_duplicate f pid review_ids) st tids).1).
Proof.
  revert st. induction tids as [| tid tids IH]; intros st Hst; simpl; [done |].
  destruct (topic_step_good pid review_ids st tid Hst) as [Hr Hg].
  destruct (IH _ Hg) as [Hr' Hg']. split; [by rewrite Hr', Hr | exact Hg'].
Qed.

Lemma store_topics_good (p : phone) (review_ids : list Z) (d : db) :
  Forall good (review_topics d) ->
  exists d' topics_created,
    store_topics set_order rt_duplicate f p review_ids d
    = (d', check_mark ++ py " " ++ phone_name p ++ py ": "
             ++ str_of_nat topics_created ++ py " topics created")
    /\ reviews d' = reviews d
    /\ Forall good (review_topics d').
Proof.
  intros Hd. unfold store_topics.
  destruct (topic_steps_good (phone_id p) review_ids (set_order (doc_topics f))
              (d, 0) Hd) as [Hr Hg].
  destruct (foldl _ (d, 0) _) as [d' k]. by exists d', k.
Qed.

End Rows.

(** *** One phone, then all of them *)

Section Phones.

Variable good : review_topic -> Prop.
Hypothesis good_new :
  forall model docs f i topic_id score rid topic_db_id,
    fit_transform model docs = Some f ->
    doc_topics f !! i = Some topic_id ->
    relevance (probs f) i topic_id = Some score ->
    good {| rt_review := rid; rt_topic := topic_db_id;
            relevance_score := score |}.

Lemma phone_step_outcome (st : topic_state) (p : phone) :
  Forall good (review_topics (ts_db st)) ->
  let st' := phone_step fit_transform set_order rt_duplicate query_error st p in
  reviews (ts_db st') = reviews (ts_db st)
  /\ Forall good (review_topics (ts_db st'))
  /\ exists msg calls,
       outcome fit_transform query_error (reviews (ts_db st)) p msg calls
       /\ results st' = results st ++ [msg]
       /\ fit_calls st' = fit_calls st ++ calls.
Proof.
  intros Hgood. unfold phone_step.
  destruct (query_error (phone_id p)) as [e |] eqn:Eq.
  { simpl. split; [done |]. split; [done |].
    eexists _, _. split; [by apply query_failed | done]. }
  fold (phone_docs (reviews (ts_db st)) p).
  set (docs := phone_docs (reviews (ts_db st)) p).
  destruct (Nat.ltb_spec (length docs) 10) as [Hlt | Hge].
  { simpl. split; [done |]. split; [done |].
    eexists _, _. split; [by apply skipped | done]. }
  destruct (Nat.ltb_spec (length docs) 5) as [? | _]; [lia |].
  change (create_topic_model (length docs) (1, 2) _ _)
    with (bigram_model (length docs)).
  change (create_topic_model (length docs) (1, 1) 1 1.0%Q)
    with (unigram_model (length docs)).
  destruct (fit_transform (bigram_model (length docs)) docs) as [f |] eqn:E1.
  { destruct (store_topics_good good f (fun i t s rid tdb => good_new _ _ f i t s rid tdb E1) p
                (map fst (clean_reviews
                   (List.filter (fun r => (review_phone r =? phone_id p)%Z)
                                (reviews (ts_db st)))))
                (ts_db st) Hgood) as (d' & k & -> & Hr & Hg).
    simpl. split; [exact Hr |]. split; [exact Hg |].
    eexists _, _. split; [by apply (modelled _ _ _ _ f k) | done]. }
  destruct (fit_transform (unigram_model (length docs)) docs) as [f |] eqn:E2.
  { destruct (store_topics_good good f (fun i t s rid tdb => good_new _ _ f i t s rid tdb E2) p
                (map fst (clean_reviews
                   (List.filter (fun r => (review_phone r =? phone_id p)%Z)
                                (reviews (ts_db st)))))
                (ts_db st) Hgood) as (d' & k & -> & Hr & Hg).
    simpl. split; [exact Hr |]. split; [exact Hg |].
    eexists _, _. split; [by apply (modelled_on_retry _ _ _ _ f k) | done]. }
  simpl. split; [done |]. split; [done |].
  eexists _, _. split; [by apply failed_completely | done].
Qed.

Lemma phone_steps_outcome (ps : list phone) (st : topic_state) :
  Forall good (review_topics (ts_db st)) ->
  let st' :=
    foldl (phone_step fit_transform set_order rt_duplicate query_error) st ps in
  reviews (ts_db st') = reviews (ts_db st)
  /\ Forall good (review_topics (ts_db st'))
  /\ exists outs : list (str * list fit_call),
       Forall2 (fun p out =>
                  outcome fit_transform query_error (reviews (ts_db st)) p
                          out.1 out.2) ps outs
       /\ results st' = results st ++ map fst outs
       /\ fit_calls st' = fit_calls st ++ concat (map snd outs).
Proof.
  revert st. induction ps as [| p ps IH]; intros st Hgood; simpl.
  { split; [done |]. split; [done |]. exists []. simpl.
    by rewrite !app_nil_r. }
  destruct (phone_step_outcome st p Hgood)
    as (Hr & Hg & msg & calls & Hout & Hres & Hcalls).
  destruct (IH _ Hg) as (Hr' & Hg' & outs & Houts & Hres' & Hcalls').
  split; [by rewrite Hr', Hr |]. split; [exact Hg' |].
  exists ((msg, calls) :: outs). split; [| split].
  - constructor; [exact Hout |]. by rewrite Hr in Houts.
  - rewrite Hres', Hres. simpl. by rewrite <- app_assoc.
  - rewrite Hcalls', Hcalls. simpl. by rewrite <- app_assoc.
Qed.

End Phones.

End TopicPass.
(** *** Which phones are modelled *)

Lemma Forall2_In_l {A B} (R : A -> B -> Prop) (l : list A) (k : list B) (x : A) :
  Forall2 R l k -> In x l -> exists y, In y k /\ R x y.
Proof.
  induction 1 as [| a b l k Hab _ IH]; [done |].
  intros [<- | Hin].
  - exists b. split; [by left | exact Hab].
  - destruct (IH Hin) as (y & Hy & HR). exists y. split; [by right | exact HR].
Qed.

Lemma Forall2_In_r {A B} (R : A -> B -> Prop) (l : list A) (k : list B) (y : B) :
  Forall2 R l k -> In y k -> exists x, In x l /\ R x y.
Proof.
  induction 1 as [| a b l k Hab _ IH]; [done |].
  intros [<- | Hin].
  - exists a. split; [by left | exact Hab].
  - destruct (IH Hin) as (x & Hx & HR). exists x. split; [by right | exact HR].
Qed.

Lemma phone_docs_by_id (rs : list review) (p p' : phone) :
  phone_id p' = phone_id p -> phone_docs rs p' = phone_docs rs p.
Proof. unfold phone_docs. by intros ->. Qed.

Lemma outcome_calls_of_phone
    (fit_transform : bertopic -> list str -> option fitted)
    (query_error : Z -> option str) (rs : list review) (p : phone)
    (msg : str) (calls : list fit_call) (c : fit_call) :
  outcome fit_transform query_error rs p msg calls -> In c calls ->
  c.1.1 = phone_id p /\ 10 <= length (phone_docs rs p).
Proof.
  intros Hout Hin. inversion Hout; subst; simpl in Hin;
    intuition (subst; auto).
Qed.

Lemma run_topic_modeling_outcomes
    (tagger : str -> option doc)
    (fit_transform : bertopic -> list str -> option fitted)
    (set_order : list Z -> list Z)
    (rt_duplicate : review_topic -> review_topic -> bool)
    (query_error : Z -> option str) (d : db) :
  exists d' rep,
    run_topic_modeling (Some tagger) true fit_transform set_order rt_duplicate
                       query_error d = Ok (d', rep)
    /\ tr_phones_processed rep = length (phones_with_reviews d)
    /\ exists outs : list (str * list fit_call),
         Forall2 (fun p out =>
                    outcome fit_transform query_error (reviews d) p out.1 out.2)
                 (phones_with_reviews d) outs
         /\ tr_results rep = map fst outs
         /\ tr_fit_calls rep = concat (map snd outs).
Proof.
  eexists _, _. split; [reflexivity |]. simpl. split; [done |].
  destruct (phone_steps_outcome fit_transform set_order rt_duplicate query_error
              (fun _ => True) (fun _ _ _ _ _ _ _ _ _ _ _ => I)
              (phones_with_reviews d)
              {| ts_db := d; results := []; fit_calls := [] |})
    as (_ & _ & outs & Houts & Hres & Hcalls).
  - simpl. apply List.Forall_forall. done.
  - exists outs. by split.
Qed.

(** C6, as stated, fails for a phone that has exactly 9 reviews, all of them
    usable: the pass does not select it, and reports nothing about it. *)
Lemma nine_review_phone_not_reported :
  length (phone_docs (reviews (sample_db 9)) phone_x) = 9
  /\ run_topic_modeling (Some no_tagger) true one_column_library remove_dups
       same_review_and_topic no_query_error (sample_db 9)
     = Ok (sample_db 9,
           {| tr_phones_processed := 0; tr_results := []; tr_fit_calls := [] |}).
Proof. split; [by vm_compute | by vm_compute]. Qed.

(** C6, amended. Of the phones that the pass selects (those with at least
    10 stored reviews), when the query for its reviews succeeds: a phone with
    exactly 9 cleaned reviews of at least 5 words gets the message
    "Skipped <name>: only 9 clean reviews" and no call of the topic model; a
    phone with 10 of them is handed to the topic model, first with the
    bigram configuration for 10 documents. *)
Theorem topic_pass_ten_review_floor
    (tagger : str -> option doc)
    (fit_transform : bertopic -> list str -> option fitted)
    (set_order : list Z -> list Z)
    (rt_duplicate : review_topic -> review_topic -> bool)
    (query_error : Z -> option str) (d : db) (p : phone) :
  In p (phones d) ->
  10 <= review_count d p ->
  query_error (phone_id p) = None ->
  exists d' rep,
    run_topic_modeling (Some tagger) true fit_transform set_order rt_duplicate
                       query_error d = Ok (d', rep)
    /\ (length (phone_docs (reviews d) p) = 9 ->
        In (py "Skipped " ++ phone_name p ++ py ": only 9 clean reviews")
           (tr_results rep)
        /\ forall model docs, ~ In (phone_id p, model, docs) (tr_fit_calls rep))
    /\ (length (phone_docs (reviews d) p) = 10 ->
        In (phone_id p, create_topic_model 10 (1, 2) 2 0.9%Q,
            phone_docs (reviews d) p)
           (tr_fit_calls rep)).
Proof.
  intros Hin Hcount Hq.
  destruct (run_topic_modeling_outcomes tagger fit_transform set_order
              rt_duplicate query_error d)
    as (d' & rep & Hrun & _ & outs & Houts & Hres & Hcalls).
  exists d', rep. split; [exact Hrun |].
  assert (Hsel : In p (phones_with_reviews d)) by by apply selected_phone.
  destruct (Forall2_In_l _ _ _ p Houts Hsel) as ([msg calls] & Hout & Hp).
  simpl in Hp. split.
  - intros Hnine. split.
    + rewrite Hres. apply in_map_iff. exists (msg, calls). split; [| exact Hout].
      simpl. inversion Hp; subst; try congruence; try lia.
      rewrite Hnine. reflexivity.
    + intros model docs Hc. rewrite Hcalls in Hc.
      apply in_concat in Hc as (cs & Hcs & Hc).
      apply in_map_iff in Hcs as ([msg' calls'] & <- & Hout').
      destruct (Forall2_In_r _ _ _ _ Houts Hout') as (p' & _ & Hp').
      destruct (outcome_calls_of_phone _ _ _ _ _ _ _ Hp' Hc) as [Hid Hten].
      simpl in Hid. rewrite (phone_docs_by_id _ p p') in Hten by done. lia.
  - intros Hten. rewrite Hcalls. apply in_concat. exists calls. split.
    + apply in_map_iff. by exists (msg, calls).
    + inversion Hp; subst; try congruence; try lia; rewrite Hten; by left.
Qed.

Lemma topic_pass_ten_review_floor_witness :
  exists d' rep,
    run_topic_modeling (Some no_tagger) true one_column_library remove_dups
      same_review_and_topic no_query_error (sample_db 10) = Ok (d', rep)
    /\ In (1%Z, create_topic_model 10 (1, 2) 2 0.9%Q,
           phone_docs (reviews (sample_db 10)) phone_x)
          (tr_fit_calls rep).
Proof.
  destruct (topic_pass_ten_review_floor no_tagger one_column_library remove_dups
              same_review_and_topic no_query_error (sample_db 10) phone_x)
    as (d' & rep & Hrun & _ & Hten).
  - vm_compute. by left.
  - vm_compute. lia.
  - reflexivity.
  - exists d', rep. split; [exact Hrun |]. apply Hten. by vm_compute.
Defined.

(** C7. With the models loaded the pass always completes, with one result
    per selected phone, in order. For each phone the first attempt uses
    bigrams; the second attempt, made only when the first raises, and made
    once, uses unigrams with [min_df = 1] and [max_df = 1.0]; when it raises
    too, the phone gets the message "<name>: Topic modeling failed
    completely", the database is left as it was, and the loop goes on with
    the next phone. A failing query for the reviews of a phone is recorded
    in the same way. *)
Theorem topic_pass_retry_and_isolation
    (tagger : str -> option doc)
    (fit_transform : bertopic -> list str -> option fitted)
    (set_order : list Z -> list Z)
    (rt_duplicate : review_topic -> review_topic -> bool)
    (query_error : Z -> option str) (d : db) :
  (exists d' rep,
     run_topic_modeling (Some tagger) true fit_transform set_order rt_duplicate
                        query_error d = Ok (d', rep)
     /\ tr_phones_processed rep = length (phones_with_reviews d)
     /\ exists outs : list (str * list fit_call),
          Forall2 (fun p out =>
                     outcome fit_transform query_error (reviews d) p out.1 out.2)
                  (phones_with_reviews d) outs
          /\ tr_results rep = map fst outs
          /\ tr_fit_calls rep = concat (map snd outs))
  /\ (forall n,
        ngram_range (vectorizer_model (bigram_model n)) = (1, 2)
        /\ ngram_range (vectorizer_model (unigram_model n)) = (1, 1)
        /\ min_df (vectorizer_model (unigram_model n)) = 1
        /\ max_df (vectorizer_model (unigram_model n)) = 1.0%Q)
  /\ (forall st p ps,
        let docs := phone_docs (reviews (ts_db st)) p in
        query_error (phone_id p) = None ->
        10 <= length docs ->
        fit_transform (bigram_model (length docs)) docs = None ->
        fit_transform (unigram_model (length docs)) docs = None ->
        foldl (phone_step fit_transform set_order rt_duplicate query_error)
              st (p :: ps)
        = foldl (phone_step fit_transform set_order rt_duplicate query_error)
            {| ts_db := ts_db st;
               results :=
                 results st
                 ++ [cross_mark ++ py " " ++ phone_name p
                       ++ py ": Topic modeling failed completely"];
               fit_calls :=
                 fit_calls st
                 ++ [(phone_id p, bigram_model (length docs), docs);
                     (phone_id p, unigram_model (length docs), docs)] |}
            ps).
Proof.
  split; [apply run_topic_modeling_outcomes |]. split; [done |].
  intros st p ps docs Hq Hten H1 H2. simpl. f_equal.
  unfold phone_step. rewrite Hq.
  fold (phone_docs (reviews (ts_db st)) p). fold docs.
  destruct (Nat.ltb_spec (length docs) 10) as [? | _]; [lia |].
  destruct (Nat.ltb_spec (length docs) 5) as [? | _]; [lia |].
  change (create_topic_model (length docs) (1, 2) _ _)
    with (bigram_model (length docs)).
  change (create_topic_model (length docs) (1, 1) 1 1.0%Q)
    with (unigram_model (length docs)).
  by rewrite H1, H2.
Qed.

Lemma topic_pass_retry_and_isolation_witness :
  exists st',
    foldl (phone_step failing_library remove_dups same_review_and_topic
                      no_query_error)
          {| ts_db := sample_db 10; results := []; fit_calls := [] |} [phone_x]
    = st'
    /\ ts_db st' = sample_db 10
    /\ results st'
       = [cross_mark ++ py " PhoneX: Topic modeling failed completely"]
    /\ map (fun c => ngram_range (vectorizer_model c.1.2)) (fit_calls st')
       = [(1, 2); (1, 1)].
Proof.
  destruct (topic_pass_retry_and_isolation no_tagger failing_library remove_dups
              same_review_and_topic no_query_error (sample_db 10))
    as (_ & _ & Hfail).
  specialize (Hfail {| ts_db := sample_db 10; results := []; fit_calls := [] |}
                phone_x []).
  cbv zeta in Hfail. specialize (Hfail eq_refl).
  assert (Hten : 10 <= length (phone_docs (reviews (sample_db 10)) phone_x))
    by (vm_compute; lia).
  specialize (Hfail Hten eq_refl eq_refl).
  eexists. split; [exact Hfail |]. vm_compute.
  split; [reflexivity | split; reflexivity].
Defined.
(** *** Relevance scores *)

Lemma Qmax2_cases (a b : Q) : Qmax2 a b = a \/ Qmax2 a b = b.
Proof. unfold Qmax2. destruct (Qle_bool a b); auto. Qed.

Lemma foldl_Qmax2_In (r : list Q) (x : Q) : In (foldl Qmax2 x r) (x :: r).
Proof.
  revert x. induction r as [| y r IH]; intros x; simpl; [by left |].
  destruct (IH (Qmax2 x y)) as [H | H]; [| by right; right].
  rewrite <- H. destruct (Qmax2_cases x y) as [-> | ->]; [by left | right; by left].
Qed.

Lemma row_max_In (row : list Q) (s : Q) : row_max row = Some s -> In s row.
Proof.
  destruct row as [| x r]; [done |]. simpl. intros [= <-].
  apply foldl_Qmax2_In.
Qed.

Lemma relevance_computed (f : fitted) (i : nat) (topic_id : Z) (score : Q) :
  relevance (probs f) i topic_id = Some score ->
  relevance_as_computed f i topic_id score.
Proof.
  unfold relevance, relevance_as_computed.
  destruct (probs f) as [[v | ncols rows] |]; try by intros [= <-].
  destruct (Z.ltb_spec topic_id (Z.of_nat ncols)) as [Hlt | Hge];
    destruct (rows !! i) as [row |]; simpl; try done; intros H;
    exists row; (split; [done |]).
  - split; [| lia]. intros _.
    destruct (np_index ncols topic_id) as [j |]; [| done]. by exists j.
  - split; [lia | done].
Qed.

Lemma relevance_bounds (f : fitted) (i : nat) (topic_id : Z) (score : Q) :
  probabilities f ->
  relevance (probs f) i topic_id = Some score -> unit_interval score.
Proof.
  intros Hp H%relevance_computed. revert Hp H.
  unfold probabilities, relevance_as_computed.
  destruct (probs f) as [[v | ncols rows] |];
    try (intros _ ->; split; unfold Qle; simpl; lia).
  intros Hrows (row & Hrow & Hin & Hout).
  pose proof (Forall_lookup_1 _ _ _ _ Hrows Hrow) as Hr.
  destruct (Z.lt_ge_cases topic_id (Z.of_nat ncols)) as [Hlt | Hge].
  - destruct (Hin Hlt) as (j & _ & Hj). exact (Forall_lookup_1 _ _ _ _ Hr Hj).
  - specialize (Hout Hge). apply row_max_In in Hout.
    rewrite List.Forall_forall in Hr. by apply Hr.
Qed.

(** C9, as stated, fails when the matrix has no column for the topic: with
    a one-column matrix, the row written for document 5 (review 6) and
    topic 1 carries the largest entry of the document's row, 0.3, and the
    matrix holds no probability of topic 1 for this document. *)
Lemma relevance_without_topic_column :
  exists d' rep,
    run_topic_modeling (Some no_tagger) true one_column_library remove_dups
      same_review_and_topic no_query_error (sample_db 10) = Ok (d', rep)
    /\ doc_topics one_column_fit !! 5 = Some 1%Z
    /\ In {| rt_review := 6; rt_topic := 2; relevance_score := 0.3%Q |}
          (review_topics d')
    /\ forall score, ~ relevance_as_claimed one_column_fit 5 1 score.
Proof.
  eexists _, _. split; [reflexivity |]. split; [reflexivity |]. split.
  - vm_compute. do 5 right. by left.
  - intros score (row & Hrow & Hscore). vm_compute in Hrow.
    injection Hrow as <-. discriminate Hscore.
Qed.

(** *** Where the rows of [review_topics] come from *)

Lemma find_app_Some {A} (f : A -> bool) (l l' : list A) (x : A) :
  List.find f l = Some x -> List.find f (l ++ l') = Some x.
Proof.
  induction l as [| a l IH]; simpl; [done |]. by destruct (f a).
Qed.

Lemma find_app_None {A} (f : A -> bool) (l : list A) (x : A) :
  List.find f l = None -> f x = true -> List.find f (l ++ [x]) = Some x.
Proof.
  induction l as [| a l IH]; simpl; [by intros _ -> |].
  destruct (f a); [done | exact IH].
Qed.

Lemma kept_review (rs : list review) (p : phone) (i : nat) (rid : Z) :
  phone_review_ids rs p !! i = Some rid ->
  exists r,
    In r rs /\ review_phone r = phone_id p /\ review_id r = rid
    /\ phone_docs rs p !! i = Some (clean_text (review_text r)).
Proof.
  unfold phone_review_ids, phone_docs. intros Hid.
  rewrite list_lookup_fmap in Hid. rewrite list_lookup_fmap.
  destruct (clean_reviews _ !! i) as [[id doc] |] eqn:Ei; [| done].
  simpl in Hid. injection Hid as ->.
  apply list_elem_of_lookup_2, list_elem_of_In, clean_reviews_spec in Ei
    as (r & Hr & Hrid & Hdoc & _).
  apply List.filter_In in Hr as [Hr Hphone]. exists r.
  split; [exact Hr |]. split; [by apply Z.eqb_eq |]. split; [exact Hrid |].
  simpl. by rewrite Hdoc.
Qed.

Lemma chosen_fit_fitted
    (fit_transform : bertopic -> list str -> option fitted)
    (query_error : Z -> option str) (rs : list review) (p : phone)
    (f : fitted) :
  chosen_fit fit_transform query_error rs p = Some f ->
  exists model, fit_transform model (phone_docs rs p) = Some f.
Proof.
  unfold chosen_fit. destruct (query_error (phone_id p)); [done |].
  destruct (length (phone_docs rs p) <? 10); [done |].
  destruct (fit_transform (bigram_model _) _) as [f1 |] eqn:E1.
  - intros [= <-]. by eexists.
  - intros E2. by eexists.
Qed.

(** After [INSERT IGNORE] and the query for the id, the table holds a row
    for the key, and [topic_db_id] is its id. *)
Lemma topic_db_id_spec (d : db) (pid : Z) (label : str)
    (terms : list (str * Q)) :
  let d1 := (insert_ignore_topic d pid label terms).1 in
  let lastrowid := (insert_ignore_topic d pid label terms).2 in
  let topic_db_id :=
    if (lastrowid =? 0)%Z then
      match select_topic d1 pid label with
      | Some t => Schema.topic_id t
      | None => lastrowid
      end
    else lastrowid in
  (exists ts, topics d1 = topics d ++ ts)
  /\ reviews d1 = reviews d
  /\ review_topics d1 = review_topics d
  /\ exists t, select_topic d1 pid label = Some t
               /\ topic_db_id = Schema.topic_id t.
Proof.
  unfold insert_ignore_topic.
  destruct (select_topic d pid label) as [t |] eqn:Es; cbn [fst snd].
  - split; [exists []; simpl; by rewrite app_nil_r |]. split; [done |].
    split; [done |]. exists t.
    assert (E : select_topic
                  (with_topics d (topics d) (after_ignored d (next_topic_id d)))
                  pid label = Some t) by exact Es.
    rewrite E. by split.
  - set (new := {| Schema.topic_id := next_topic_id d; topic_phone := pid;
                   topic_label := label; representative_terms := terms |}).
    split; [by exists [new] |]. split; [done |]. split; [done |]. exists new.
    assert (E : select_topic
                  (with_topics d (topics d ++ [new]) (next_topic_id d + 1)%Z)
                  pid label = Some new).
    { unfold select_topic. simpl. apply find_app_None; [exact Es |].
      simpl. rewrite Z.eqb_refl. unfold str_eqb.
      by rewrite bool_decide_eq_true_2. }
    rewrite E. split; [done |]. by destruct (next_topic_id d =? 0)%Z.
Qed.

Section Provenance.

Variable fit_transform : bertopic -> list str -> option fitted.
Variable set_order : list Z -> list Z.
Variable rt_duplicate : review_topic -> review_topic -> bool.
Variable query_error : Z -> option str.
Variable d0 : db.

Lemma accounted_mono (ts ts' : list topic) (row : review_topic) :
  accounted fit_transform query_error d0 ts row ->
  accounted fit_transform query_error d0 (ts ++ ts') row.
Proof.
  intros [Hold | (p & f & i & tid & r & t & H)]; [by left |]. right.
  exists p, f, i, tid, r, t.
  destruct H as (H1 & H2 & H3 & H4 & H5 & H6 & H7 & H8 & H9).
  repeat (split; [assumption |]). split; [by apply find_app_Some | done].
Qed.

Lemma Forall_accounted_mono (ts ts' : list topic) (rts : list review_topic) :
  Forall (accounted fit_transform query_error d0 ts) rts ->
  Forall (accounted fit_transform query_error d0 (ts ++ ts')) rts.
Proof.
  intros H. eapply Forall_impl; [exact H |]. intros row. apply accounted_mono.
Qed.

Section OnePhone.

Variable p : phone.
Variable f : fitted.
Hypothesis selected : In p (phones_with_reviews d0).
Hypothesis chosen :
  chosen_fit fit_transform query_error (reviews d0) p = Some f.

Lemma insert_assignments_accounted (topic_id : Z) (t : topic)
    (ts : list topic) (rest : list Z) (i : nat) (rts : list review_topic) :
  List.find
    (fun t => (topic_phone t =? phone_id p)%Z
              && str_eqb (topic_label t)
                   (make_topic_label (map fst (take 3 (get_topic f topic_id)))))
    ts = Some t ->
  (forall j x, rest !! j = Some x -> doc_topics f !! (i + j) = Some x) ->
  Forall (accounted fit_transform query_error d0 ts) rts ->
  Forall (accounted fit_transform query_error d0 ts)
    (insert_assignments rt_duplicate f (phone_review_ids (reviews d0) p)
       topic_id (Schema.topic_id t) i rest rts).1.
Proof.
  intros Ht. revert i rts.
  induction rest as [| doc_topic rest IH]; intros i rts Hoff Hrts; simpl;
    [exact Hrts |].
  assert (Hrest : forall j x, rest !! j = Some x ->
                              doc_topics f !! (S i + j) = Some x).
  { intros j x Hj. replace (S i + j) with (i + S j) by lia. by apply Hoff. }
  destruct (Z.eqb_spec doc_topic topic_id) as [-> | _]; [| by apply IH].
  destruct (relevance (probs f) i topic_id) as [score |] eqn:Erel;
    [| exact Hrts].
  destruct (phone_review_ids (reviews d0) p !! i) as [rid |] eqn:Erid;
    [| exact Hrts].
  apply IH; [exact Hrest |].
  unfold insert_ignore_review_topic.
  destruct (existsb _ rts); [exact Hrts |].
  apply Forall_app. split; [exact Hrts |]. constructor; [| constructor].
  right. destruct (kept_review _ _ _ _ Erid) as (r & Hr & Hphone & Hid & Hdoc).
  exists p, f, i, topic_id, r, t. simpl.
  split; [exact selected |]. split; [exact chosen |]. split; [exact Hdoc |].
  split; [specialize (Hoff 0 topic_id eq_refl); by rewrite Nat.add_0_r in Hoff |].
  split; [exact Hr |]. split; [exact Hphone |]. split; [done |].
  split; [exact Ht |]. by split.
Qed.

Lemma topic_step_accounted (st : db * nat) (topic_id : Z) :
  Forall (accounted fit_transform query_error d0 (topics st.1))
         (review_topics st.1) ->
  let st' :=
    topic_step rt_duplicate f (phone_id p) (phone_review_ids (reviews d0) p)
               st topic_id in
  reviews st'.1 = reviews st.1
  /\ (exists ts, topics st'.1 = topics st.1 ++ ts)
  /\ Forall (accounted fit_transform query_error d0 (topics st'.1))
            (review_topics st'.1).
Proof.
  destruct st as [d k]. simpl. intros Hd.
  assert (Hsame : reviews d = reviews d
                  /\ (exists ts, topics d = topics d ++ ts)
                  /\ Forall (accounted fit_transform query_error d0 (topics d))
                            (review_topics d)).
  { split; [done |]. split; [exists []; by rewrite app_nil_r | exact Hd]. }
  unfold topic_step.
  destruct (topic_id =? -1)%Z; [exact Hsame |].
  destruct (length (get_topic f topic_id) <? 3); [exact Hsame |].
  pose proof (topic_db_id_spec d (phone_id p)
                (make_topic_label (map fst (take 3 (get_topic f topic_id))))
                (take 5 (get_topic f topic_id)))
    as ((ts & Hts) & Hr & Hrt & t & Hsel & Hid).
  destruct (insert_ignore_topic d (phone_id p) _ _) as [d1 lastrowid].
  cbn [fst snd] in Hts, Hr, Hrt, Hsel, Hid. rewrite Hid.
  assert (Hd1 : Forall (accounted fit_transform query_error d0 (topics d1))
                       (review_topics d1)).
  { rewrite Hts, Hrt. by apply Forall_accounted_mono. }
  destruct (Schema.topic_id t =? 0)%Z.
  { simpl. split; [exact Hr |]. split; [by exists ts | exact Hd1]. }
  pose proof (insert_assignments_accounted topic_id t (topics d1)
                (doc_topics f) 0 (review_topics d1) Hsel
                (fun j x H => H) Hd1) as Hnew.
  destruct (insert_assignments rt_duplicate f _ topic_id (Schema.topic_id t) 0
              (doc_topics f) (review_topics d1)) as [rts completed].
  simpl. split; [exact Hr |]. split; [by exists ts | exact Hnew].
Qed.

Lemma topic_steps_accounted (tids : list Z) (st : db * nat) :
  Forall (accounted fit_transform query_error d0 (topics st.1))
         (review_topics st.1) ->
  let st' :=
    foldl (topic_step rt_duplicate f (phone_id p)
             (phone_review_ids (reviews d0) p)) st tids in
  reviews st'.1 = reviews st.1
  /\ (exists ts, topics st'.1 = topics st.1 ++ ts)
  /\ Forall (accounted fit_transform query_error d0 (topics st'.1))
            (review_topics st'.1).
Proof.
  revert st. induction tids as [| tid tids IH]; intros st Hst; simpl.
  { split; [done |]. split; [exists []; by rewrite app_nil_r | exact Hst]. }
  destruct (topic_step_accounted st tid Hst) as (Hr & (ts & Hts) & Hacc).
  destruct (IH _ Hacc) as (Hr' & (ts' & Hts') & Hacc').
  split; [by rewrite Hr', Hr |]. split; [| exact Hacc'].
  exists (ts ++ ts'). by rewrite Hts', Hts, app_assoc.
Qed.

Lemma store_topics_accounted (d : db) :
  Forall (accounted fit_transform query_error d0 (topics d)) (review_topics d) ->
  let d' :=
    (store_topics set_order rt_duplicate f p
       (phone_review_ids (reviews d0) p) d).1 in
  reviews d' = reviews d
  /\ (exists ts, topics d' = topics d ++ ts)
  /\ Forall (accounted fit_transform query_error d0 (topics d'))
            (review_topics d').
Proof.
  intros Hd. unfold store_topics.
  pose proof (topic_steps_accounted (set_order (doc_topics f)) (d, 0) Hd) as H.
  by destruct (foldl _ (d, 0) _) as [d' k].
Qed.

End OnePhone.

Lemma phone_step_accounted (st : topic_state) (p : phone) :
  In p (phones_with_reviews d0) ->
  reviews (ts_db st) = reviews d0 ->
  Forall (accounted fit_transform query_error d0 (topics (ts_db st)))
         (review_topics (ts_db st)) ->
  let st' := phone_step fit_transform set_order rt_duplicate query_error st p in
  reviews (ts_db st') = reviews d0
  /\ (exists ts, topics (ts_db st') = topics (ts_db st) ++ ts)
  /\ Forall (accounted fit_transform query_error d0 (topics (ts_db st')))
            (review_topics (ts_db st')).
Proof.
  intros Hsel Hrev Hacc.
  assert (Hsame :
    reviews (ts_db st) = reviews d0
    /\ (exists ts, topics (ts_db st) = topics (ts_db st) ++ ts)
    /\ Forall (accounted fit_transform query_error d0 (topics (ts_db st)))
              (review_topics (ts_db st))).
  { split; [done |]. split; [exists []; by rewrite app_nil_r | exact Hacc]. }
  unfold phone_step. rewrite Hrev.
  pose proof (store_topics_accounted p) as Hstore.
  unfold chosen_fit in Hstore.
  destruct (query_error (phone_id p)) as [e |]; [exact Hsame |].
  fold (phone_docs (reviews d0) p). fold (phone_review_ids (reviews d0) p).
  fold (phone_docs (reviews d0) p) in Hstore.
  set (docs := phone_docs (reviews d0) p) in *.
  destruct (Nat.ltb_spec (length docs) 10) as [Hlt | Hge]; [exact Hsame |].
  destruct (Nat.ltb_spec (length docs) 5) as [? | _]; [lia |].
  change (create_topic_model (length docs) (1, 2) _ _)
    with (bigram_model (length docs)).
  change (create_topic_model (length docs) (1, 1) 1 1.0%Q)
    with (unigram_model (length docs)).
  destruct (fit_transform (bigram_model (length docs)) docs) as [f |] eqn:E1.
  { specialize (Hstore f Hsel eq_refl (ts_db st) Hacc).
    destruct (store_topics set_order rt_duplicate f p _ (ts_db st))
      as [d' msg]. simpl in Hstore |- *.
    destruct Hstore as (Hr & Hts & Hd'). by rewrite Hr. }
  destruct (fit_transform (unigram_model (length docs)) docs) as [f |] eqn:E2;
    [| exact Hsame].
  specialize (Hstore f Hsel eq_refl (ts_db st) Hacc).
  destruct (store_topics set_order rt_duplicate f p _ (ts_db st))
    as [d' msg]. simpl in Hstore |- *.
  destruct Hstore as (Hr & Hts & Hd'). by rewrite Hr.
Qed.

Lemma phone_steps_accounted (ps : list phone) (st : topic_state) :
  (forall p, In p ps -> In p (phones_with_reviews d0)) ->
  reviews (ts_db st) = reviews d0 ->
  Forall (accounted fit_transform query_error d0 (topics (ts_db st)))
         (review_topics (ts_db st)) ->
  let st' :=
    foldl (phone_step fit_transform set_order rt_duplicate query_error) st ps in
  Forall (accounted fit_transform query_error d0 (topics (ts_db st')))
         (review_topics (ts_db st')).
Proof.
  revert st. induction ps as [| p ps IH]; intros st Hps Hrev Hacc; simpl;
    [exact Hacc |].
  destruct (phone_step_accounted st p (Hps p (or_introl eq_refl)) Hrev Hacc)
    as (Hr & _ & Hacc').
  apply IH; [| exact Hr | exact Hacc'].
  intros q Hq. apply Hps. by right.
Qed.

End Provenance.

(** C9, amended. Every row of [review_topics] after the pass was there
    before it or was written by it, and a row written by the pass is the
    row of one document and one topic: of document [i] of a selected phone
    [p] and of the topic [topic_id] that the fitted model of [p] assigns to
    that document. Its review is the review of [p] whose normalised text is
    document [i], its topic is the row of [topics] that holds the label of
    [topic_id] for [p], and its score is the entry of the probability
    matrix for this document and this topic when the matrix has a column
    for the topic, the largest entry of the document's row when the matrix
    has no such column, and 0.5 when there is no matrix. So, the entries of
    the matrices being probabilities, every score stored after the pass
    lies in [0,1] if every score stored before did. *)
Theorem relevance_scores_in_unit_interval
    (tagger : str -> option doc)
    (fit_transform : bertopic -> list str -> option fitted)
    (set_order : list Z -> list Z)
    (rt_duplicate : review_topic -> review_topic -> bool)
    (query_error : Z -> option str) (d : db) :
  (forall model docs f, fit_transform model docs = Some f -> probabilities f) ->
  Forall (fun row => unit_interval (relevance_score row)) (review_topics d) ->
  exists d' rep,
    run_topic_modeling (Some tagger) true fit_transform set_order rt_duplicate
                       query_error d = Ok (d', rep)
    /\ forall row,
         In row (review_topics d') ->
         unit_interval (relevance_score row)
         /\ (In row (review_topics d)
             \/ exists p f i topic_id r t,
                  In p (phones_with_reviews d)
                  /\ chosen_fit fit_transform query_error (reviews d) p = Some f
                  /\ phone_docs (reviews d) p !! i
                     = Some (clean_text (review_text r))
                  /\ doc_topics f !! i = Some topic_id
                  /\ In r (reviews d) /\ review_phone r = phone_id p
                  /\ rt_review row = review_id r
                  /\ select_topic d' (phone_id p)
                       (make_topic_label
                          (map fst (take 3 (get_topic f topic_id))))
                     = Some t
                  /\ rt_topic row = Schema.topic_id t
                  /\ relevance_as_computed f i topic_id (relevance_score row)).
Proof.
  intros Hprob Hold. eexists _, _. split; [reflexivity |]. simpl.
  assert (Hstart : Forall (accounted fit_transform query_error d (topics d))
                           (review_topics d)).
  { apply List.Forall_forall. intros row Hrow. by left. }
  pose proof (phone_steps_accounted fit_transform set_order rt_duplicate
                query_error d (phones_with_reviews d)
                {| ts_db := d; results := []; fit_calls := [] |}
                (fun p H => H) eq_refl Hstart) as Hacc.
  simpl in Hacc. rewrite List.Forall_forall in Hacc.
  rewrite List.Forall_forall in Hold.
  intros row Hrow.
  destruct (Hacc row Hrow)
    as [Hin | (p & f & i & tid & r & t & H1 & H2 & H3 & H4 & H5 & H6 & H7
               & H8 & H9 & H10)].
  - split; [by apply Hold | by left].
  - split.
    + destruct (chosen_fit_fitted _ _ _ _ _ H2) as (model & Hfit).
      apply (relevance_bounds f i tid); [exact (Hprob model _ f Hfit) | exact H10].
    + right. exists p, f, i, tid, r, t.
      repeat (split; [assumption |]). by apply relevance_computed.
Qed.

Lemma relevance_scores_in_unit_interval_witness :
  exists d' rep,
    run_topic_modeling (Some no_tagger) true one_column_library remove_dups
      same_review_and_topic no_query_error (sample_db 10) = Ok (d', rep)
    /\ forall row, In row (review_topics d') ->
                   unit_interval (relevance_score row).
Proof.
  destruct (relevance_scores_in_unit_interval no_tagger one_column_library
              remove_dups same_review_and_topic no_query_error (sample_db 10))
    as (d' & rep & Hrun & Hrows).
  - intros model docs f [= <-]. unfold probabilities. simpl.
    repeat constructor; unfold Qle; simpl; lia.
  - constructor.
  - exists d', rep. split; [exact Hrun |]. intros row Hrow.
    by apply Hrows.
Defined.
(** ** More on star ratings *)

Lemma Qle_bool_false (x y : Q) : Qle_bool x y = false -> (y < x)%Q.
Proof.
  intros H. apply Qnot_le_lt. intros Hle. apply Qle_bool_iff in Hle. congruence.
Qed.

Lemma compute_star_rating_le (p q : Q) :
  (p <= q)%Q ->
  (compute_star_rating_from_positive_percentage p
   <= compute_star_rating_from_positive_percentage q)%Q.
Proof.
  intros Hpq. unfold compute_star_rating_from_positive_percentage.
  destruct (Qle_bool 80 p) eqn:P80; [apply Qle_bool_iff in P80 | apply Qle_bool_false in P80];
    (destruct (Qle_bool 60 p) eqn:P60; [apply Qle_bool_iff in P60 | apply Qle_bool_false in P60]);
    (destruct (Qle_bool 40 p) eqn:P40; [apply Qle_bool_iff in P40 | apply Qle_bool_false in P40]);
    (destruct (Qle_bool 20 p) eqn:P20; [apply Qle_bool_iff in P20 | apply Qle_bool_false in P20]);
    (destruct (Qle_bool 80 q) eqn:Q80; [apply Qle_bool_iff in Q80 | apply Qle_bool_false in Q80]);
    (destruct (Qle_bool 60 q) eqn:Q60; [apply Qle_bool_iff in Q60 | apply Qle_bool_false in Q60]);
    (destruct (Qle_bool 40 q) eqn:Q40; [apply Qle_bool_iff in Q40 | apply Qle_bool_false in Q40]);
    (destruct (Qle_bool 20 q) eqn:Q20; [apply Qle_bool_iff in Q20 | apply Qle_bool_false in Q20]);
    try (unfold Qle; simpl; lia);
    exfalso;
    match goal with
    | H1 : (?a <= p)%Q, H2 : (q < ?a)%Q |- _ =>
        apply (Qlt_not_le _ _ H2); by apply Qle_trans with p
    end.
Qed.

(** X1. The rating helper is monotonically non-decreasing in the positive
    percentage, and its value is one of 1.0, 2.0, 3.0, 4.0, 5.0. *)
Theorem star_rating_monotone (p q : Q) :
  (p <= q)%Q ->
  (compute_star_rating_from_positive_percentage p
   <= compute_star_rating_from_positive_percentage q)%Q
  /\ In (compute_star_rating_from_positive_percentage p)
        [1.0%Q; 2.0%Q; 3.0%Q; 4.0%Q; 5.0%Q].
Proof.
  intros Hpq. split; [by apply compute_star_rating_le |].
  unfold compute_star_rating_from_positive_percentage.
  destruct (Qle_bool 80 p); [do 4 right; by left |].
  destruct (Qle_bool 60 p); [do 3 right; by left |].
  destruct (Qle_bool 40 p); [do 2 right; by left |].
  destruct (Qle_bool 20 p); [right; by left | by left].
Qed.

Lemma star_rating_monotone_witness :
  (compute_star_rating_from_positive_percentage 39.9
   <= compute_star_rating_from_positive_percentage 40)%Q.
Proof.
  apply (star_rating_monotone 39.9 40). unfold Qle. simpl. lia.
Defined.

(** X2. For a group with at least one sentiment row, the [CASE] of the phone
    queries is the rating helper applied to the exact positive percentage,
    and more positives among the same number of rows never lower the
    rating. *)
Theorem star_rating_case_monotone (positive positive' processed : nat) :
  0 < processed -> positive <= positive' ->
  star_rating_case positive processed
  = compute_star_rating_from_positive_percentage
      (inject_Z (Z.of_nat positive) * 100.0 / inject_Z (Z.of_nat processed))%Q
  /\ (star_rating_case positive processed
      <= star_rating_case positive' processed)%Q.
Proof.
  intros Hn Hle. split; [by apply star_rating_case_rated |].
  rewrite !star_rating_case_rated by done.
  apply compute_star_rating_le.
  apply Qmult_le_compat_r.
  - apply Qmult_le_compat_r; [| unfold Qle; simpl; lia].
    rewrite <- Zle_Qle. lia.
  - apply Qinv_le_0_compat. change 0%Q with (inject_Z 0).
    rewrite <- Zle_Qle. lia.
Qed.

Lemma star_rating_case_monotone_witness :
  (star_rating_case 3 10 <= star_rating_case 8 10)%Q.
Proof.
  apply (star_rating_case_monotone 3 8 10); lia.
Defined.
(** ** Single-text analysis: errors and topics *)

Lemma strip_strip (s : str) : strip (strip s) = strip s.
Proof. apply strip_id; [apply strip_starts_clean | apply strip_ends_clean]. Qed.

Lemma topics_of_doc_length (d : doc) :
  length (topics_of_doc d) <= 1 /\ Forall (fun t => t <> []) (topics_of_doc d).
Proof.
  unfold topics_of_doc.
  destruct (map fst _) as [| w ws]; [by split; [simpl; lia | constructor] |].
  destruct (bool_decide_reflect (make_topic_label (w :: ws) = [])) as [_ | Hne].
  - split; [simpl; lia | constructor].
  - split; [simpl; lia | by repeat constructor].
Qed.

(** X3. Single-text analysis answers 500 when the classifier is not loaded
    and 400 when the text is empty after trimming. When it answers a body,
    the body holds at most one topic label, never an empty one, and holds
    none when the tagger is not loaded or when the trimmed text has fewer
    than 10 characters. *)
Theorem analyze_text_answers
    (sentiment_model : option (str -> option (str * Q)))
    (nlp : option (str -> option doc)) (text : str) :
  (sentiment_model = None ->
   analyze_text sentiment_model nlp text
   = HttpError 500 (py "Sentiment model not loaded"))
  /\ (forall classify, sentiment_model = Some classify -> strip text = [] ->
      analyze_text sentiment_model nlp text
      = HttpError 400 (py "Text is required"))
  /\ (forall a, analyze_text sentiment_model nlp text = Ok a ->
      length (a_topics a) <= 1
      /\ Forall (fun t => t <> []) (a_topics a)
      /\ (nlp = None -> a_topics a = [])
      /\ (length (strip text) < 10 -> a_topics a = [])).
Proof.
  split; [by intros -> |].
  split; [intros classify -> H; unfold analyze_text; by rewrite H |].
  intros a. unfold analyze_text.
  destruct sentiment_model as [classify |]; [| done].
  destruct (length (strip text) =? 0); [done |].
  destruct (classify (strip text)) as [[result_label score] |]; [| done].
  intros [= <-]. simpl.
  destruct nlp as [tagger |]; [| by repeat split; try constructor; simpl; lia].
  destruct (bool_decide_reflect (clean_text (strip text) = [])) as [E | Hne].
  - repeat split; try constructor; simpl; lia.
  - destruct (tagger (clean_text (strip text))) as [d |].
    + destruct (topics_of_doc_length d) as [H1 H2].
      split; [exact H1 |]. split; [exact H2 |]. split; [done |].
      intros Hshort. exfalso. apply Hne. apply clean_text_short.
      by rewrite strip_strip.
    + split; [simpl; lia |]. split; [constructor |]. split; [done |].
      intros Hshort. exfalso. apply Hne. apply clean_text_short.
      by rewrite strip_strip.
Qed.

Lemma analyze_text_answers_witness :
  analyze_text None None (py "a fine phone") = HttpError 500 (py "Sentiment model not loaded")
  /\ analyze_text (Some always_positive) None (py "   ")
     = HttpError 400 (py "Text is required")
  /\ analyze_text (Some always_positive) (Some no_tagger) (py " ok ")
     = Ok {| a_sentiment := py "positive"; a_confidence := 0.9%Q;
             a_topics := [] |}.
Proof.
  destruct (analyze_text_answers None None (py "a fine phone")) as (H1 & _).
  destruct (analyze_text_answers (Some always_positive) None (py "   "))
    as (_ & H2 & _).
  split; [by apply H1 |]. split; [by apply (H2 always_positive) |].
  reflexivity.
Defined.
(** ** More on the bulk sentiment pass *)

Section SentimentPassMore.

Variable classify : str -> option (str * Q).

Lemma pass_new_rows (l : list review) (st : pass_state) (k : Z) :
  is_Some (ps_sentiments (foldl (sentiment_step classify) st l) !! k) ->
  is_Some (ps_sentiments st !! k)
  \/ exists r, In r l /\ review_id r = k /\ long_enough r = true.
Proof.
  revert st. induction l as [| r l IH]; intros st; simpl; [by left |].
  intros [H | (r' & Hin & Hid & Hlong)]%IH.
  - destruct (long_enough r) eqn:E.
    + destruct (Z.eq_dec k (review_id r)) as [-> | Hne].
      * right. exists r. split; [by left | done].
      * destruct (sentiment_step_long classify st r E) as (_ & _ & Hl).
        left. by rewrite <- (Hl k Hne).
    + left. by rewrite (sentiment_step_short classify st r E) in H.
  - right. exists r'. split; [by right | done].
Qed.

Lemma pass_keeps_some (l : list review) (st : pass_state) (k : Z) :
  is_Some (ps_sentiments st !! k) ->
  is_Some (ps_sentiments (foldl (sentiment_step classify) st l) !! k).
Proof.
  revert st. induction l as [| r l IH]; intros st H; simpl; [exact H |].
  apply IH. unfold sentiment_step.
  destruct (length (strip (review_text r)) <? 10); [exact H |].
  destruct (classify (review_text r)) as [[result_label score] |]; [| exact H].
  simpl. destruct (Z.eq_dec (review_id r) k) as [-> | Hne].
  - rewrite lookup_insert_eq. by eexists.
  - by rewrite lookup_insert_ne.
Qed.

Lemma pass_all_short (l : list review) (st : pass_state) :
  Forall (fun r => long_enough r = false) l ->
  foldl (sentiment_step classify) st l = st.
Proof.
  induction 1 as [| r l Hr _ IH]; simpl; [done |].
  by rewrite (sentiment_step_short classify st r Hr).
Qed.

Hypothesis classify_answers : forall text, classify text <> None.

Lemma pass_sets_row (l : list review) (st : pass_state) (r : review) :
  In r l -> long_enough r = true ->
  is_Some (ps_sentiments (foldl (sentiment_step classify) st l) !! review_id r).
Proof.
  revert st. induction l as [| r' l IH]; intros st; simpl; [done |].
  intros [-> | Hin] Hlong; [| by apply IH].
  apply pass_keeps_some. unfold sentiment_step.
  unfold long_enough in Hlong. apply negb_true_iff in Hlong. rewrite Hlong.
  pose proof (classify_answers (review_text r)) as Hc.
  destruct (classify (review_text r)) as [[result_label score] |]; [| done].
  simpl. rewrite lookup_insert_eq. by eexists.
Qed.

Lemma pass_no_errors (l : list review) (st : pass_state) :
  errors (foldl (sentiment_step classify) st l) = errors st.
Proof.
  revert st. induction l as [| r l IH]; intros st; simpl; [done |].
  rewrite IH. unfold sentiment_step.
  destruct (length (strip (review_text r)) <? 10); [done |].
  pose proof (classify_answers (review_text r)) as Hc.
  by destruct (classify (review_text r)) as [[result_label score] |].
Qed.

End SentimentPassMore.

(** X4. A sentiment pass changes nothing but the sentiment rows: it keeps
    every row that was there, adds rows only for fetched reviews of at
    least 10 characters after trimming, fetches at most 10000 reviews and
    counts at most that many as processed or failed. *)
Theorem sentiment_pass_keeps_rows
    (classify : str -> option (str * Q)) (d : db) :
  exists d' rep,
    run_sentiment_analysis (Some classify) d = Ok (d', rep)
    /\ (brands d' = brands d /\ phones d' = phones d /\ reviews d' = reviews d
        /\ topics d' = topics d /\ review_topics d' = review_topics d)
    /\ (forall k s, sentiments d !! k = Some s -> sentiments d' !! k = Some s)
    /\ (forall k, is_Some (sentiments d' !! k) ->
          is_Some (sentiments d !! k)
          \/ exists r, In r (unprocessed d) /\ review_id r = k
                       /\ 10 <= length (strip (review_text r)))
    /\ sr_total_reviews rep <= 10000
    /\ sr_processed rep + sr_errors rep <= sr_total_reviews rep.
Proof.
  eexists _, _. split; [reflexivity |]. simpl.
  split; [done |]. split; [| split; [| split]].
  - intros k s Hk. rewrite pass_lookup; [exact Hk |].
    intros r [_ Hnone]%unprocessed_In _ E. rewrite E in Hnone. congruence.
  - intros k [H | (r & Hin & Hid & Hlong)]%pass_new_rows; [by left | right].
    exists r. split; [exact Hin |]. split; [exact Hid |].
    unfold long_enough in Hlong. by apply negb_true_iff, Nat.ltb_ge in Hlong.
  - unfold unprocessed. apply firstn_le_length.
  - rewrite pass_counts. simpl. apply List.filter_length_le.
Qed.

(** X5. When the classifier answers every text and no more than 10000
    reviews are without a sentiment row, one pass leaves nothing to do: it
    counts no error, and a second pass classifies nothing, processes
    nothing and leaves the database as the first pass left it. *)
Theorem second_sentiment_pass_idle
    (classify : str -> option (str * Q)) (d : db) :
  (forall text, classify text <> None) ->
  length (List.filter
            (fun r => bool_decide (sentiments d !! review_id r = None))
            (reviews d)) <= 10000 ->
  exists d1 rep1 rep2,
    run_sentiment_analysis (Some classify) d = Ok (d1, rep1)
    /\ sr_errors rep1 = 0
    /\ run_sentiment_analysis (Some classify) d1 = Ok (d1, rep2)
    /\ sr_processed rep2 = 0 /\ sr_errors rep2 = 0
    /\ sr_classified rep2 = [].
Proof.
  intros Hanswers Hfew. eexists _, _, _. split; [reflexivity |].
  split; [simpl; by rewrite pass_no_errors |].
  set (d1 := with_sentiments d _).
  assert (Hshort : Forall (fun r => long_enough r = false) (unprocessed d1)).
  { apply List.Forall_forall. intros r [Hin Hnone]%unprocessed_In.
    destruct (long_enough r) eqn:Hlong; [exfalso | done].
    assert (is_Some (sentiments d1 !! review_id r)) as [s Hs];
      [| congruence].
    unfold d1. simpl. simpl in Hin.
    destruct (sentiments d !! review_id r) as [s |] eqn:Hd.
    - apply pass_keeps_some. simpl. rewrite Hd. by eexists.
    - apply pass_sets_row; [exact Hanswers | | exact Hlong].
      unfold unprocessed. rewrite firstn_all2 by exact Hfew.
      apply List.filter_In. split; [exact Hin |]. by apply bool_decide_eq_true. }
  unfold run_sentiment_analysis at 1.
  rewrite (pass_all_short classify _ _ Hshort). simpl.
  by split.
Qed.

Lemma second_sentiment_pass_idle_witness :
  exists d1 rep1 rep2,
    run_sentiment_analysis (Some always_positive) two_reviews_db = Ok (d1, rep1)
    /\ run_sentiment_analysis (Some always_positive) d1 = Ok (d1, rep2)
    /\ sr_processed rep2 = 0.
Proof.
  destruct (second_sentiment_pass_idle always_positive two_reviews_db)
    as (d1 & rep1 & rep2 & H1 & _ & H2 & H3 & _).
  - done.
  - vm_compute. lia.
  - by exists d1, rep1, rep2.
Defined.
(** ** Clear-all, process-all and the status endpoints *)

Lemma omap_all_None {A B} (f : A -> option B) (l : list A) :
  (forall a, f a = None) -> omap f l = [].
Proof.
  intros Hf. induction l as [| a l IH]; [done |]. csimpl. by rewrite Hf.
Qed.

Lemma phone_sentiments_cleared (d : db) (pid : Z) :
  phone_sentiments (clear_processed_data d) pid = [].
Proof.
  unfold phone_sentiments. apply omap_all_None. intros r. simpl.
  rewrite lookup_empty. by destruct (review_phone r =? pid)%Z.
Qed.

Lemma ml_status_cleared (d : db) :
  let body := get_ml_processing_status (clear_processed_data d) in
  ms_total_reviews body = length (reviews d)
  /\ ms_processed_sentiments body = 0
  /\ ms_total_topics body = 0
  /\ ms_topic_assignments body = 0.
Proof.
  unfold get_ml_processing_status, ml_status_rows, count_some. simpl.
  induction (reviews d) as [| r l IH]; [done |]. csimpl.
  rewrite lookup_empty. simpl.
  destruct IH as (IH1 & IH2 & IH3 & IH4).
  split; [by rewrite IH1 |]. by split.
Qed.

(** X6. Clear-all leaves the tables of brands, phones and reviews as they
    are and empties the three derived tables: sentiments, topics and
    associations. After it the statistics report no processed sentiment and
    no topic, the ML status reports no topic and no association and as many
    rows as there are reviews, every review counts as unprocessed and is
    fetched again by the next sentiment pass (up to 10000), the list of
    phones rates every phone 3.0 and the complete view rates it 1.0;
    clearing twice is clearing once. *)
Theorem clear_processed_data_resets (d : db) :
  let c := clear_processed_data d in
  (brands c = brands d /\ phones c = phones d /\ reviews c = reviews d)
  /\ (sentiments c = ∅ /\ topics c = [] /\ review_topics c = [])
  /\ get_database_stats c
     = {| stats_brands := length (brands d); stats_phones := length (phones d);
          stats_reviews := length (reviews d);
          stats_processed_sentiments := 0; stats_topics := 0 |}
  /\ (ms_total_reviews (get_ml_processing_status c) = length (reviews d)
      /\ ms_processed_sentiments (get_ml_processing_status c) = 0
      /\ ms_total_topics (get_ml_processing_status c) = 0
      /\ ms_topic_assignments (get_ml_processing_status c) = 0)
  /\ unprocessed_reviews (get_processing_status c)
     = Z.of_nat (length (reviews d))
  /\ (sentiment_percentage (get_processing_status c) == 0)%Q
  /\ unprocessed c = take 10000 (reviews d)
  /\ (forall p, get_phones_star_rating c p = 3.0%Q)
  /\ (forall p, In p (phones d) ->
        get_complete_phone_data c (phone_id p) = Ok 1.0%Q)
  /\ clear_processed_data c = c.
Proof.
  intros c. split; [done |]. split; [done |].
  split; [| split; [| split; [| split; [| split; [| split; [| split]]]]]].
  - unfold get_database_stats. simpl. by rewrite map_size_empty.
  - apply ml_status_cleared.
  - unfold get_processing_status. simpl. rewrite map_size_empty. simpl. lia.
  - unfold get_processing_status. simpl. rewrite map_size_empty.
    destruct (length (reviews d)) as [| n]; [done |]. by vm_compute.
  - unfold unprocessed. simpl. f_equal.
    induction (reviews d) as [| r l IH]; [done |]. simpl.
    by rewrite lookup_empty, IH.
  - intros p. apply get_phones_defaults_to_three, phone_sentiments_cleared.
  - intros p Hin. apply complete_view_without_sentiments; [exact Hin |].
    apply phone_sentiments_cleared.
  - done.
Qed.

(** ** The ML status query *)

Lemma length_left_join {A B} (on : A -> B -> bool) (a : A) (bs : list B) :
  length (left_join on a bs) = Nat.max 1 (length (List.filter (on a) bs)).
Proof.
  unfold left_join. destruct (List.filter (on a) bs) as [| b rest]; [done |].
  rewrite length_map. simpl. lia.
Qed.

Lemma length_bind_sum {A B} (f : A -> list B) (l : list A) :
  length (l ≫= f) = sum_list_with (fun a => length (f a)) l.
Proof.
  induction l as [| a l IH]; [done |]. csimpl. by rewrite length_app, IH.
Qed.

Lemma length_bind_const {A B} (f : A -> list B) (l : list A) (n : nat) :
  (forall a, length (f a) = n) -> length (l ≫= f) = length l * n.
Proof.
  intros Hf. induction l as [| a l IH]; [done |]. csimpl.
  rewrite length_app, IH, Hf. lia.
Qed.

Lemma ml_status_rows_of_review (d : db) (r : review) :
  length
    (s ← [sentiments d !! review_id r];
     t ← left_join (fun r t => (review_phone r =? topic_phone t)%Z) r (topics d);
     rt ← left_join (fun r rt => (review_id r =? rt_review rt)%Z) r
                    (review_topics d);
     [(r, s, t, rt)])
  = joined_rows_of_review d r.
Proof.
  csimpl. rewrite app_nil_r.
  rewrite (length_bind_const _ _
             (Nat.max 1 (length (assignments_of_review d r)))).
  - by rewrite length_left_join.
  - intros t. rewrite (length_bind_const _ _ 1) by done.
    rewrite length_left_join. unfold assignments_of_review. lia.
Qed.

Lemma sum_list_with_pointwise {A} (f g : A -> nat) (l : list A) :
  (forall a, f a = g a) -> sum_list_with f l = sum_list_with g l.
Proof.
  intros Hfg. induction l as [| a l IH]; [done |]. simpl. by rewrite Hfg, IH.
Qed.

Lemma sum_list_with_ge_length {A} (f : A -> nat) (l : list A) :
  (forall a, 1 <= f a) -> length l <= sum_list_with f l.
Proof.
  intros Hf. induction l as [| a l IH]; simpl; [lia |].
  specialize (Hf a). lia.
Qed.

(** X8. The ML status query counts joined rows, not reviews: a review counts
    once for every pair of a topic of its phone and an association row of
    its own (at least once). So [total_reviews] is at least the number of
    reviews, and equals it when there is no topic and no association;
    [processed_sentiments] never exceeds [total_reviews], so that
    [unprocessed_reviews] is never negative. *)
Theorem ml_status_counts_joined_rows (d : db) :
  let body := get_ml_processing_status d in
  ms_total_reviews body = sum_list_with (joined_rows_of_review d) (reviews d)
  /\ length (reviews d) <= ms_total_reviews body
  /\ ms_processed_sentiments body <= ms_total_reviews body
  /\ (0 <= ms_unprocessed_reviews body)%Z
  /\ (topics d = [] -> review_topics d = [] ->
      ms_total_reviews body = length (reviews d)
      /\ ms_total_topics body = 0 /\ ms_topic_assignments body = 0).
Proof.
  intros body.
  assert (Htotal : ms_total_reviews body
                   = sum_list_with (joined_rows_of_review d) (reviews d)).
  { unfold body, get_ml_processing_status, ml_status_rows. simpl.
    rewrite length_bind_sum. apply sum_list_with_pointwise. intros r.
    apply ml_status_rows_of_review. }
  assert (Hproc : ms_processed_sentiments body <= ms_total_reviews body).
  { unfold body, get_ml_processing_status, count_some. simpl.
    apply List.filter_length_le. }
  split; [exact Htotal |]. split; [| split; [exact Hproc | split]].
  - rewrite Htotal. apply sum_list_with_ge_length. intros r.
    unfold joined_rows_of_review. nia.
  - unfold body, get_ml_processing_status in *. simpl in *. lia.
  - intros Ht Hrt.
    unfold body, get_ml_processing_status, ml_status_rows, count_some. simpl.
    rewrite Ht, Hrt. simpl.
    clear Htotal Hproc.
    induction (reviews d) as [| r l IH]; [done |]. csimpl.
    destruct IH as (IH1 & IH2 & IH3).
    split; [by rewrite IH1 |]. by split.
Qed.
(** ** More on the CSV import *)

Lemma import_row_stages (st : import_state) (row : csv_row) :
  complete_row row = true ->
  import_row st row
  = (st1 ← ensure_brand st (strip (row_brand_name row));
     bid ← brands_map st1 !! strip (row_brand_name row);
     st2 ← ensure_phone st1 bid (strip (row_phone_name row));
     pid ← phones_map st2 !! (bid, strip (row_phone_name row));
     Some {| st_db := insert_review (st_db st2) pid
                        (strip (row_review_text row));
             brands_map := brands_map st2;
             phones_map := phones_map st2 |}).
Proof.
  unfold complete_row, import_row. intros H.
  destruct (bool_decide (strip (row_brand_name row) = []));
    destruct (bool_decide (strip (row_phone_name row) = []));
    destruct (bool_decide (strip (row_review_text row) = []));
    try done; reflexivity.
Qed.

Lemma find_snoc {A} (f : A -> bool) (l : list A) (x : A) :
  List.find f (l ++ [x])
  = match List.find f l with
    | Some y => Some y
    | None => if f x then Some x else None
    end.
Proof.
  induction l as [| y l IH]; simpl; [done |]. by destruct (f y).
Qed.

Lemma brands_index_snoc (l : list brand) (b : brand) :
  brands_index (l ++ [b]) = <[brand_name b := brand_id b]> (brands_index l).
Proof. unfold brands_index. by rewrite foldl_app. Qed.

Lemma phones_index_snoc (l : list phone) (p : phone) :
  phones_index (l ++ [p])
  = <[(phone_brand p, phone_name p) := phone_id p]> (phones_index l).
Proof. unfold phones_index. by rewrite foldl_app. Qed.

Lemma brands_index_None (l : list brand) (name : str) :
  brands_index l !! name = None ->
  List.find (fun b => str_eqb (brand_name b) name) l = None
  /\ ~ In name (map brand_name l).
Proof.
  induction l as [| b l IH] using rev_ind;
    [intros _; split; [done | by intros []] |].
  rewrite brands_index_snoc. intros H.
  apply lookup_insert_None in H as [Hl Hne]. destruct (IH Hl) as [IH1 IH2].
  split.
  - rewrite find_snoc, IH1. unfold str_eqb. by rewrite bool_decide_eq_false_2.
  - rewrite map_app, in_app_iff. simpl. intuition.
Qed.

Lemma phones_index_None (l : list phone) (bid : Z) (name : str) :
  phones_index l !! (bid, name) = None ->
  List.find (fun p => (phone_brand p =? bid)%Z && str_eqb (phone_name p) name) l
  = None
  /\ ~ In (bid, name) (map (fun p => (phone_brand p, phone_name p)) l).
Proof.
  induction l as [| p l IH] using rev_ind;
    [intros _; split; [done | by intros []] |].
  rewrite phones_index_snoc. intros H.
  apply lookup_insert_None in H as [Hl Hne]. destruct (IH Hl) as [IH1 IH2].
  split.
  - rewrite find_snoc, IH1. unfold str_eqb.
    destruct (Z.eqb_spec (phone_brand p) bid) as [Hb | _]; [| done].
    rewrite bool_decide_eq_false_2; [done |]. intros Hn. apply Hne. by rewrite Hb, Hn.
  - rewrite map_app, in_app_iff. simpl. intuition.
Qed.

Lemma adds_names_refl (d : db) : adds_names d d.
Proof.
  split; [exists []; by rewrite app_nil_r |].
  split; [exists []; by rewrite app_nil_r |]. done.
Qed.

Lemma adds_names_trans (d1 d2 d3 : db) :
  adds_names d1 d2 -> adds_names d2 d3 -> adds_names d1 d3.
Proof.
  intros ([bs Hb] & [ps Hp] & H1 & H2 & H3 & H4 & H5)
         ([bs' Hb'] & [ps' Hp'] & H1' & H2' & H3' & H4' & H5').
  split; [exists (bs ++ bs'); by rewrite Hb', Hb, app_assoc |].
  split; [exists (ps ++ ps'); by rewrite Hp', Hp, app_assoc |].
  repeat split; congruence.
Qed.

(** The brand stage never fails; it leaves the brand in the cache, changes
    nothing when the brand was there, and keeps the caches those of the
    tables. *)
Lemma ensure_brand_spec (st : import_state) (brand : str) :
  exists st1,
    ensure_brand st brand = Some st1
    /\ is_Some (brands_map st1 !! brand)
    /\ caches_grow st st1
    /\ adds_names (st_db st) (st_db st1)
    /\ (is_Some (brands_map st !! brand) -> st1 = st)
    /\ (indexed st ->
        indexed st1 /\ (unique_names (st_db st) -> unique_names (st_db st1))).
Proof.
  unfold ensure_brand. destruct (brands_map st !! brand) as [bid |] eqn:Eb.
  { exists st. split; [done |]. split; [by rewrite Eb |].
    split; [by split |]. split; [apply adds_names_refl |]. by split. }
  unfold insert_ignore_brand, select_brand_id.
  destruct (List.find _ (brands (st_db st))) as [b |] eqn:Ef; simpl.
  - rewrite Ef. simpl. eexists. split; [reflexivity |]. simpl.
    split; [by rewrite lookup_insert_eq |]. split; [| split; [| split]].
    + split; [| done]. intros name bid Hn. simpl. rewrite lookup_insert_ne; [done |].
      intros <-. congruence.
    + split; [exists []; by rewrite app_nil_r |].
      split; [exists []; by rewrite app_nil_r |]. done.
    + by intros [? ?].
    + intros [Hi _]. rewrite Hi in Eb.
      apply brands_index_None in Eb as [Eb _]. congruence.
  - rewrite find_snoc, Ef. simpl. unfold str_eqb at 1.
    rewrite bool_decide_eq_true_2 by done. simpl.
    eexists. split; [reflexivity |]. simpl.
    split; [by rewrite lookup_insert_eq |]. split; [| split; [| split]].
    + split; [| done]. intros name bid Hn. simpl. rewrite lookup_insert_ne; [done |].
      intros <-. congruence.
    + split; [by eexists |]. split; [exists []; by rewrite app_nil_r |]. done.
    + by intros [? ?].
    + intros [Hi Hp]. split.
      * split; simpl; [| exact Hp]. by rewrite brands_index_snoc, Hi.
      * intros [Hu1 Hu2]. split; simpl; [| exact Hu2].
        rewrite map_app. simpl. apply NoDup_app. split; [exact Hu1 |].
        split; [| apply NoDup_singleton].
        rewrite Hi in Eb. apply brands_index_None in Eb as [_ Eb].
        intros name Hname ->%list_elem_of_singleton. apply Eb.
        by apply list_elem_of_In.
Qed.

Lemma ensure_phone_spec (st : import_state) (bid : Z) (phone : str) :
  exists st2,
    ensure_phone st bid phone = Some st2
    /\ is_Some (phones_map st2 !! (bid, phone))
    /\ caches_grow st st2
    /\ adds_names (st_db st) (st_db st2)
    /\ (is_Some (phones_map st !! (bid, phone)) -> st2 = st)
    /\ (indexed st ->
        indexed st2 /\ (unique_names (st_db st) -> unique_names (st_db st2))).
Proof.
  unfold ensure_phone. destruct (phones_map st !! (bid, phone)) as [pid |] eqn:Ep.
  { exists st. split; [done |]. split; [by rewrite Ep |].
    split; [by split |]. split; [apply adds_names_refl |]. by split. }
  unfold insert_ignore_phone, select_phone_id.
  destruct (List.find _ (phones (st_db st))) as [p |] eqn:Ef; simpl.
  - rewrite Ef. simpl. eexists. split; [reflexivity |]. simpl.
    split; [by rewrite lookup_insert_eq |]. split; [| split; [| split]].
    + split; [done |]. intros key pid Hk. simpl. rewrite lookup_insert_ne; [done |].
      intros <-. congruence.
    + split; [exists []; by rewrite app_nil_r |].
      split; [exists []; by rewrite app_nil_r |]. done.
    + by intros [? ?].
    + intros [_ Hi]. rewrite Hi in Ep.
      apply phones_index_None in Ep as [Ep _]. congruence.
  - rewrite find_snoc, Ef. simpl. rewrite Z.eqb_refl. unfold str_eqb at 1.
    rewrite bool_decide_eq_true_2 by done. simpl.
    eexists. split; [reflexivity |]. simpl.
    split; [by rewrite lookup_insert_eq |]. split; [| split; [| split]].
    + split; [done |]. intros key pid Hk. simpl. rewrite lookup_insert_ne; [done |].
      intros <-. congruence.
    + split; [exists []; by rewrite app_nil_r |]. split; [by eexists |]. done.
    + by intros [? ?].
    + intros [Hb Hi]. split.
      * split; simpl; [exact Hb |]. by rewrite phones_index_snoc, Hi.
      * intros [Hu1 Hu2]. split; simpl; [exact Hu1 |].
        rewrite map_app. simpl. apply NoDup_app. split; [exact Hu2 |].
        split; [| apply NoDup_singleton].
        rewrite Hi in Ep. apply phones_index_None in Ep as [_ Ep].
        intros key Hkey ->%list_elem_of_singleton. apply Ep.
        by apply list_elem_of_In.
Qed.
Lemma caches_grow_trans (st1 st2 st3 : import_state) :
  caches_grow st1 st2 -> caches_grow st2 st3 -> caches_grow st1 st3.
Proof. intros [H1 H2] [H1' H2']. split; eauto. Qed.

Lemma known_grows (st st' : import_state) (row : csv_row) :
  caches_grow st st' -> known st row -> known st' row.
Proof.
  intros [Hb Hp] (bid & Hbid & [pid Hpid]). exists bid.
  split; [by apply Hb |]. exists pid. by apply Hp.
Qed.

(** What the import of one complete row does. *)
Lemma import_row_spec (st : import_state) (row : csv_row) :
  complete_row row = true ->
  exists st' pid,
    import_row st row = Some st'
    /\ reviews (st_db st')
       = reviews (st_db st)
         ++ [{| review_id := next_review_id (st_db st); review_phone := pid;
                review_text := strip (row_review_text row) |}]
    /\ ((exists bs, brands (st_db st') = brands (st_db st) ++ bs)
        /\ (exists ps, phones (st_db st') = phones (st_db st) ++ ps)
        /\ sentiments (st_db st') = sentiments (st_db st)
        /\ topics (st_db st') = topics (st_db st)
        /\ review_topics (st_db st') = review_topics (st_db st))
    /\ caches_grow st st'
    /\ known st' row
    /\ (known st row ->
        brands (st_db st') = brands (st_db st)
        /\ phones (st_db st') = phones (st_db st)
        /\ brands_map st' = brands_map st /\ phones_map st' = phones_map st)
    /\ (indexed st ->
        indexed st' /\ (unique_names (st_db st) -> unique_names (st_db st'))).
Proof.
  intros Hc. rewrite (import_row_stages st row Hc).
  destruct (ensure_brand_spec st (strip (row_brand_name row)))
    as (st1 & -> & [bid Hbid] & Hg1 & Ha1 & Hsame1 & Hi1).
  simpl. rewrite Hbid. simpl.
  destruct (ensure_phone_spec st1 bid (strip (row_phone_name row)))
    as (st2 & -> & [pid Hpid] & Hg2 & Ha2 & Hsame2 & Hi2).
  simpl. rewrite Hpid. simpl.
  destruct (adds_names_trans _ _ _ Ha1 Ha2)
    as (Hbs & Hps & Hr & Hn & Hs & Ht & Hrt).
  exists {| st_db := insert_review (st_db st2) pid (strip (row_review_text row));
            brands_map := brands_map st2; phones_map := phones_map st2 |}, pid.
  split; [reflexivity |]. simpl.
  split; [by rewrite Hr, Hn |]. split; [done |].
  split; [exact (caches_grow_trans _ _ _ Hg1 Hg2) |]. split; [| split].
  - exists bid. simpl. split; [by apply Hg2 | by exists pid].
  - intros (bid0 & Hbid0 & Hp0).
    assert (st1 = st) as -> by (apply Hsame1; by exists bid0).
    assert (bid0 = bid) as -> by congruence.
    by assert (st2 = st) as -> by by apply Hsame2.
  - intros Hi. destruct (Hi1 Hi) as [Hi1' Hu1].
    destruct (Hi2 Hi1') as [[Hb2 Hp2] Hu2]. split; [by split |].
    intros Hu. exact (Hu2 (Hu1 Hu)).
Qed.

(** What the import of a list of rows does. *)
Lemma import_rows_spec (rows : list csv_row) (st : import_state) :
  exists st',
    import_rows st rows = Some st'
    /\ map review_text (reviews (st_db st'))
       = map review_text (reviews (st_db st))
         ++ map (fun row => strip (row_review_text row))
                (List.filter complete_row rows)
    /\ ((exists bs, brands (st_db st') = brands (st_db st) ++ bs)
        /\ (exists ps, phones (st_db st') = phones (st_db st) ++ ps)
        /\ sentiments (st_db st') = sentiments (st_db st)
        /\ topics (st_db st') = topics (st_db st)
        /\ review_topics (st_db st') = review_topics (st_db st))
    /\ caches_grow st st'
    /\ Forall (known st') (List.filter complete_row rows)
    /\ (Forall (known st) (List.filter complete_row rows) ->
        brands (st_db st') = brands (st_db st)
        /\ phones (st_db st') = phones (st_db st)
        /\ brands_map st' = brands_map st /\ phones_map st' = phones_map st)
    /\ (indexed st ->
        indexed st' /\ (unique_names (st_db st) -> unique_names (st_db st'))).
Proof.
  revert st. induction rows as [| row rows IH]; intros st.
  { exists st. simpl. split; [done |]. split; [by rewrite app_nil_r |].
    split; [by repeat split; try (exists []; by rewrite app_nil_r) |].
    split; [by split |]. split; [constructor |]. by split. }
  simpl. destruct (complete_row row) eqn:Hc.
  - destruct (import_row_spec st row Hc)
      as (st1 & pid & -> & Hr & (Hb & Hp & Hs & Ht & Hrt) & Hg & Hk & Hsame & Hi).
    simpl. destruct (IH st1)
      as (st' & -> & Hr' & (Hb' & Hp' & Hs' & Ht' & Hrt') & Hg' & Hk' & Hsame' & Hi').
    exists st'. split; [done |]. split; [| split; [| split; [| split; [| split]]]].
    + rewrite Hr', Hr, map_app. simpl. by rewrite <- app_assoc.
    + destruct Hb as [bs Hb], Hb' as [bs' Hb'], Hp as [ps Hp], Hp' as [ps' Hp'].
      split; [exists (bs ++ bs'); by rewrite Hb', Hb, app_assoc |].
      split; [exists (ps ++ ps'); by rewrite Hp', Hp, app_assoc |].
      repeat split; congruence.
    + exact (caches_grow_trans _ _ _ Hg Hg').
    + constructor; [by apply (known_grows st1) | exact Hk'].
    + intros [Hk0 Hks]%Forall_cons.
      destruct (Hsame Hk0) as (E1 & E2 & E3 & E4).
      destruct Hsame' as (E1' & E2' & E3' & E4').
      { apply List.Forall_forall. intros row' Hrow'.
        apply (known_grows st); [exact Hg |].
        rewrite List.Forall_forall in Hks. by apply Hks. }
      repeat split; congruence.
    + intros Hi0. destruct (Hi Hi0) as [Hi1 Hu1].
      destruct (Hi' Hi1) as [Hi2 Hu2]. split; [exact Hi2 |].
      intros Hu. exact (Hu2 (Hu1 Hu)).
  - rewrite (import_row_incomplete st row Hc). simpl. apply IH.
Qed.

Lemma import_csv_start_indexed (d : db) :
  indexed {| st_db := d; brands_map := brands_index (brands d);
             phones_map := phones_index (phones d) |}.
Proof. by split. Qed.

(** X9. The import never fails. It appends one review per complete row, in
    order and with the trimmed text, appends to the tables of brands and
    phones without touching their rows, leaves sentiments, topics and
    associations alone, and keeps brand names unique and phone names unique
    per brand. *)
Theorem import_csv_appends (d : db) (rows : list csv_row) :
  exists d',
    import_csv d rows = Some d'
    /\ map review_text (reviews d')
       = map review_text (reviews d)
         ++ map (fun row => strip (row_review_text row))
                (List.filter complete_row rows)
    /\ (exists bs, brands d' = brands d ++ bs)
    /\ (exists ps, phones d' = phones d ++ ps)
    /\ sentiments d' = sentiments d
    /\ topics d' = topics d
    /\ review_topics d' = review_topics d
    /\ (unique_names d -> unique_names d').
Proof.
  unfold import_csv.
  destruct (import_rows_spec rows
              {| st_db := d; brands_map := brands_index (brands d);
                 phones_map := phones_index (phones d) |})
    as (st' & Hrun & Hr & (Hb & Hp & Hs & Ht & Hrt) & _ & _ & _ & Hi).
  unfold brands_index, phones_index in Hrun. rewrite Hrun. simpl.
  exists (st_db st'). split; [done |]. simpl in *.
  repeat (split; [done |]).
  by destruct (Hi (import_csv_start_indexed d)) as [_ Hu].
Qed.

(** X10. Importing the same rows a second time adds no brand and no phone,
    and adds every complete row's review once more. *)
Theorem import_csv_again (d d1 : db) (rows : list csv_row) :
  import_csv d rows = Some d1 ->
  exists d2,
    import_csv d1 rows = Some d2
    /\ brands d2 = brands d1
    /\ phones d2 = phones d1
    /\ length (reviews d2)
       = length (reviews d1) + length (List.filter complete_row rows).
Proof.
  unfold import_csv. intros H1.
  destruct (import_rows_spec rows
              {| st_db := d; brands_map := brands_index (brands d);
                 phones_map := phones_index (phones d) |})
    as (st1 & Hrun & _ & _ & _ & Hknown & _ & Hi).
  unfold brands_index, phones_index in Hrun. rewrite Hrun in H1.
  injection H1 as <-.
  destruct (Hi (import_csv_start_indexed d)) as [[Hbi Hpi] _].
  destruct (import_rows_spec rows st1)
    as (st2 & Hrun2 & Hr2 & _ & _ & _ & Hsame & _).
  destruct (Hsame Hknown) as (E1 & E2 & _).
  exists (st_db st2). split; [| split; [exact E1 | split; [exact E2 |]]].
  - change (foldl _ ∅ (brands (st_db st1))) with (brands_index (brands (st_db st1))).
    change (foldl _ ∅ (phones (st_db st1))) with (phones_index (phones (st_db st1))).
    rewrite <- Hbi, <- Hpi.
    replace {| st_db := st_db st1; brands_map := brands_map st1;
               phones_map := phones_map st1 |} with st1 by (by destruct st1).
    by rewrite Hrun2.
  - apply (f_equal (@length str)) in Hr2.
    by rewrite length_app, !length_map in Hr2.
Qed.

Lemma import_csv_again_witness :
  exists d1 d2,
    import_csv empty_db scenario_rows = Some d1
    /\ import_csv d1 scenario_rows = Some d2
    /\ length (brands d2) = 1 /\ length (phones d2) = 1
    /\ length (reviews d2) = 2.
Proof.
  assert (exists d1, import_csv empty_db scenario_rows = Some d1) as [d1 H1]
    by (eexists; vm_compute; reflexivity).
  destruct (import_csv_again empty_db d1 scenario_rows H1)
    as (d2 & H2 & Hb & Hp & Hr).
  exists d1, d2. split; [exact H1 |]. split; [exact H2 |].
  rewrite Hb, Hp, Hr.
  assert (E : import_csv empty_db scenario_rows = Some d1) by exact H1.
  vm_compute in E. injection E as <-. by vm_compute.
Defined.

Lemma import_csv_appends_witness :
  exists d',
    import_csv (sample_db 2) scenario_rows = Some d'
    /\ unique_names d'.
Proof.
  destruct (import_csv_appends (sample_db 2) scenario_rows)
    as (d' & H & _ & _ & _ & _ & _ & _ & Hu).
  exists d'. split; [exact H |]. apply Hu.
  split; simpl; repeat constructor; by intros ?%elem_of_nil.
Defined.
(** ** The topic pass and the database *)

Lemma extends_derived_refl (d : db) : extends_derived d d.
Proof.
  repeat (split; [done |]).
  split; exists []; by rewrite app_nil_r.
Qed.

Lemma extends_derived_trans (d1 d2 d3 : db) :
  extends_derived d1 d2 -> extends_derived d2 d3 -> extends_derived d1 d3.
Proof.
  intros (A1 & A2 & A3 & A4 & A5 & A6 & A7 & [ts Ht] & [rts Hr])
         (B1 & B2 & B3 & B4 & B5 & B6 & B7 & [ts' Ht'] & [rts' Hr']).
  repeat (split; [congruence |]).
  split; [exists (ts ++ ts'); by rewrite Ht', Ht, app_assoc |].
  exists (rts ++ rts'). by rewrite Hr', Hr, app_assoc.
Qed.

Lemma select_topic_None (d : db) (pid : Z) (label : str) :
  select_topic d pid label = None -> ~ In (pid, label) (map topic_key (topics d)).
Proof.
  unfold select_topic. intros Hnone Hin.
  apply in_map_iff in Hin as (t & Hkey & Hin).
  apply (List.find_none _ _ Hnone) in Hin. unfold topic_key in Hkey.
  injection Hkey as Hp Hl. rewrite Hp, Z.eqb_refl in Hin. unfold str_eqb in Hin.
  by rewrite bool_decide_eq_true_2 in Hin.
Qed.

Lemma has_topic_extends (d d' : db) (key : Z * str) :
  (exists ts, topics d' = topics d ++ ts) -> has_topic d key -> has_topic d' key.
Proof.
  intros [ts Ht] [t Hfind]. exists t. unfold select_topic in *. rewrite Ht.
  by apply find_app_Some.
Qed.

(** [INSERT IGNORE INTO topics]: adds at most one row, at the end; the key
    is in the table afterwards; no row is added when it was there before. *)
Lemma insert_ignore_topic_spec (d : db) (pid : Z) (label : str)
    (terms : list (str * Q)) :
  let d1 := (insert_ignore_topic d pid label terms).1 in
  extends_derived d d1
  /\ review_topics d1 = review_topics d
  /\ has_topic d1 (pid, label)
  /\ (has_topic d (pid, label) -> topics d1 = topics d)
  /\ (topics_sound d -> topics_sound d1).
Proof.
  unfold insert_ignore_topic, has_topic. simpl.
  destruct (select_topic d pid label) as [t |] eqn:Es; simpl.
  - split.
    { repeat (split; [done |]). split; exists []; by rewrite app_nil_r. }
    split; [done |]. split; [by exists t |]. split; [done |].
    intros (Hk & Hi & Hlt). split; [exact Hk |]. split; [exact Hi |]. simpl.
    eapply Forall_impl; [exact Hlt |]. simpl. intros t' Ht'.
    unfold after_ignored. destruct (ignored_insert_uses_id d); lia.
  - split; [| split; [done | split; [| split]]].
    + repeat (split; [done |]). split; [by eexists | exists []; by rewrite app_nil_r].
    + unfold select_topic. simpl. unfold select_topic in Es.
      rewrite find_snoc, Es. simpl. rewrite Z.eqb_refl. unfold str_eqb.
      rewrite bool_decide_eq_true_2 by done. by eexists.
    + by intros [? ?].
    + intros (Hk & Hi & Hlt). apply select_topic_None in Es.
      split; [| split]; simpl.
      * rewrite map_app. simpl. apply NoDup_app. split; [exact Hk |].
        split; [| apply NoDup_singleton].
        intros key Hkey ->%list_elem_of_singleton. apply Es.
        by apply list_elem_of_In.
      * rewrite map_app. simpl. apply NoDup_app. split; [exact Hi |].
        split; [| apply NoDup_singleton].
        intros i Hin ->%list_elem_of_singleton.
        apply list_elem_of_In, in_map_iff in Hin as (t & Ht & Hin).
        rewrite List.Forall_forall in Hlt. specialize (Hlt t Hin). lia.
      * apply Forall_app. split.
        -- eapply Forall_impl; [exact Hlt |]. simpl. intros t Ht. lia.
        -- repeat constructor. simpl. lia.
Qed.

Section TopicPassDb.

Variable fit_transform : bertopic -> list str -> option fitted.
Variable set_order : list Z -> list Z.
Variable rt_duplicate : review_topic -> review_topic -> bool.
Variable query_error : Z -> option str.

Lemma insert_assignments_appends (f : fitted) (review_ids : list Z)
    (topic_id topic_db_id : Z) (rest : list Z) (i : nat)
    (rts : list review_topic) :
  exists new,
    (insert_assignments rt_duplicate f review_ids topic_id topic_db_id i rest rts).1
    = rts ++ new.
Proof.
  revert i rts. induction rest as [| doc_topic rest IH]; intros i rts; simpl.
  { exists []. by rewrite app_nil_r. }
  destruct (doc_topic =? topic_id)%Z; [| apply IH].
  destruct (relevance (probs f) i topic_id) as [score |];
    [| exists []; by rewrite app_nil_r].
  destruct (review_ids !! i) as [rid |]; [| exists []; by rewrite app_nil_r].
  unfold insert_ignore_review_topic. destruct (existsb _ rts); [apply IH |].
  destruct (IH (S i) (rts ++ [{| rt_review := rid; rt_topic := topic_db_id;
                                 relevance_score := score |}])) as [new ->].
  eexists. by rewrite <- app_assoc.
Qed.

(** One turn of the loop over topics. *)
Lemma topic_step_spec (f : fitted) (pid : Z) (review_ids : list Z)
    (st : db * nat) (tid : Z) :
  let d' := (topic_step rt_duplicate f pid review_ids st tid).1 in
  extends_derived st.1 d'
  /\ (topics_sound st.1 -> topics_sound d')
  /\ Forall (has_topic d') (wanted_keys f pid [tid])
  /\ (Forall (has_topic st.1) (wanted_keys f pid [tid]) ->
      topics d' = topics st.1).
Proof.
  destruct st as [d k]. unfold topic_step, wanted_keys. simpl.
  destruct (tid =? -1)%Z.
  { simpl. split; [apply extends_derived_refl |]. split; [done |].
    split; [constructor | done]. }
  destruct (length (get_topic f tid) <? 3).
  { simpl. split; [apply extends_derived_refl |]. split; [done |].
    split; [constructor | done]. }
  simpl.
  set (label := make_topic_label (map fst (take 3 (get_topic f tid)))).
  destruct (insert_ignore_topic_spec d pid label (take 5 (get_topic f tid)))
    as (Hext & Hrt & Hhas & Hsame & Hsound).
  destruct (insert_ignore_topic d pid label (take 5 (get_topic f tid)))
    as [d1 lastrowid]. simpl in *.
  match goal with |- context [if (?x =? 0)%Z then (d1, _) else _] =>
    destruct (x =? 0)%Z;
    [| destruct (insert_assignments_appends f review_ids tid x (doc_topics f) 0
                   (review_topics d1)) as [new Hnew];
       destruct (insert_assignments rt_duplicate f review_ids tid x 0
                   (doc_topics f) (review_topics d1)) as [rts completed] ]
  end; simpl in *.
  - split; [exact Hext |]. split; [exact Hsound |].
    split; [by repeat constructor |].
    intros [Hd _]%Forall_cons. by rewrite (Hsame Hd).
  - split; [| split; [| split]].
    + apply (extends_derived_trans _ d1); [exact Hext |].
      repeat (split; [done |]). split; [exists []; by rewrite app_nil_r |].
      exists new. by rewrite Hnew.
    + intros Hs. exact (Hsound Hs).
    + repeat constructor. exact Hhas.
    + intros [Hd _]%Forall_cons. by rewrite (Hsame Hd).
Qed.

Lemma wanted_keys_cons (f : fitted) (pid tid : Z) (tids : list Z) :
  wanted_keys f pid (tid :: tids)
  = wanted_keys f pid [tid] ++ wanted_keys f pid tids.
Proof.
  unfold wanted_keys. csimpl.
  destruct (tid =? -1)%Z; [done |].
  by destruct (length (get_topic f tid) <? 3).
Qed.

(** The loop over the topics of one fitted model. *)
Lemma topic_steps_spec (f : fitted) (pid : Z) (review_ids : list Z)
    (tids : list Z) (st : db * nat) :
  let d' := (foldl (topic_step rt_duplicate f pid review_ids) st tids).1 in
  extends_derived st.1 d'
  /\ (topics_sound st.1 -> topics_sound d')
  /\ Forall (has_topic d') (wanted_keys f pid tids)
  /\ (Forall (has_topic st.1) (wanted_keys f pid tids) ->
      topics d' = topics st.1).
Proof.
  revert st. induction tids as [| tid tids IH]; intros st.
  { simpl. split; [apply extends_derived_refl |]. split; [done |].
    split; [constructor | done]. }
  cbn [foldl].
  destruct (topic_step_spec f pid review_ids st tid) as (E1 & S1 & W1 & I1).
  destruct (IH (topic_step rt_duplicate f pid review_ids st tid))
    as (E2 & S2 & W2 & I2).
  rewrite wanted_keys_cons. split; [| split; [| split]].
  - exact (extends_derived_trans _ _ _ E1 E2).
  - intros Hs. exact (S2 (S1 Hs)).
  - apply Forall_app. split; [| exact W2].
    eapply Forall_impl; [exact W1 |]. intros key.
    apply has_topic_extends. apply E2.
  - intros [H1 H2]%Forall_app. pose proof (I1 H1) as T1.
    rewrite I2; [exact T1 |].
    eapply Forall_impl; [exact H2 |]. intros key.
    apply has_topic_extends. apply E1.
Qed.

(** The database after one turn of the loop over phones. *)
Lemma phone_step_db (st : topic_state) (p : phone) :
  ts_db (phone_step fit_transform set_order rt_duplicate query_error st p)
  = match chosen_fit fit_transform query_error (reviews (ts_db st)) p with
    | Some f =>
        (foldl (topic_step rt_duplicate f (phone_id p)
                           (phone_review_ids (reviews (ts_db st)) p))
               (ts_db st, 0) (set_order (doc_topics f))).1
    | None => ts_db st
    end.
Proof.
  unfold phone_step, chosen_fit.
  destruct (query_error (phone_id p)) as [e |]; [done |].
  fold (phone_docs (reviews (ts_db st)) p).
  fold (phone_review_ids (reviews (ts_db st)) p).
  destruct (Nat.ltb_spec (length (phone_docs (reviews (ts_db st)) p)) 10)
    as [Hlt | Hge]; [done |].
  destruct (Nat.ltb_spec (length (phone_docs (reviews (ts_db st)) p)) 5)
    as [? | _]; [lia |].
  change (create_topic_model (length (phone_docs (reviews (ts_db st)) p)) (1, 2) _ _)
    with (bigram_model (length (phone_docs (reviews (ts_db st)) p))).
  change (create_topic_model (length (phone_docs (reviews (ts_db st)) p)) (1, 1) 1 1.0%Q)
    with (unigram_model (length (phone_docs (reviews (ts_db st)) p))).
  unfold store_topics.
  destruct (fit_transform (bigram_model _) _) as [f |].
  { by destruct (foldl _ (ts_db st, 0) _). }
  destruct (fit_transform (unigram_model _) _) as [f |]; [| done].
  by destruct (foldl _ (ts_db st, 0) _).
Qed.

Lemma phone_step_spec (st : topic_state) (p : phone) :
  let d := ts_db st in
  let d' := ts_db (phone_step fit_transform set_order rt_duplicate
                              query_error st p) in
  extends_derived d d'
  /\ (topics_sound d -> topics_sound d')
  /\ Forall (has_topic d')
            (pass_keys fit_transform set_order query_error (reviews d) p)
  /\ (Forall (has_topic d)
             (pass_keys fit_transform set_order query_error (reviews d) p) ->
      topics d' = topics d).
Proof.
  simpl. rewrite phone_step_db. unfold pass_keys.
  destruct (chosen_fit fit_transform query_error (reviews (ts_db st)) p) as [f |].
  - apply (topic_steps_spec f (phone_id p) _ (set_order (doc_topics f))
             (ts_db st, 0)).
  - split; [apply extends_derived_refl |]. split; [done |].
    split; [constructor | done].
Qed.

Lemma phone_steps_spec (ps : list phone) (st : topic_state) :
  let d := ts_db st in
  let d' := ts_db (foldl (phone_step fit_transform set_order rt_duplicate
                                     query_error) st ps) in
  extends_derived d d'
  /\ (topics_sound d -> topics_sound d')
  /\ Forall (has_topic d')
            (ps ≫= pass_keys fit_transform set_order query_error (reviews d))
  /\ (Forall (has_topic d)
             (ps ≫= pass_keys fit_transform set_order query_error (reviews d)) ->
      topics d' = topics d).
Proof.
  revert st. induction ps as [| p ps IH]; intros st.
  { simpl. split; [apply extends_derived_refl |]. split; [done |].
    split; [constructor | done]. }
  cbn [foldl]. rewrite bind_cons.
  destruct (phone_step_spec st p) as (E1 & S1 & W1 & I1).
  destruct (IH (phone_step fit_transform set_order rt_duplicate query_error st p))
    as (E2 & S2 & W2 & I2).
  cbv zeta in *.
  assert (Hr : reviews (ts_db (phone_step fit_transform set_order rt_duplicate
                                          query_error st p))
               = reviews (ts_db st)) by apply E1.
  rewrite Hr in W2, I2. split; [| split; [| split]].
  - exact (extends_derived_trans _ _ _ E1 E2).
  - intros Hs. exact (S2 (S1 Hs)).
  - apply Forall_app. split; [| exact W2].
    eapply Forall_impl; [exact W1 |]. intros key.
    apply has_topic_extends. apply E2.
  - intros [H1 H2]%Forall_app. pose proof (I1 H1) as T1.
    rewrite I2; [exact T1 |].
    eapply Forall_impl; [exact H2 |]. intros key.
    apply has_topic_extends. apply E1.
Qed.

End TopicPassDb.
Lemma phones_with_reviews_same (d d' : db) :
  phones d' = phones d -> reviews d' = reviews d ->
  phones_with_reviews d' = phones_with_reviews d.
Proof.
  intros Hp Hr. unfold phones_with_reviews, review_count. by rewrite Hp, Hr.
Qed.

(** X11. The topic pass only adds rows, at the end of the tables of topics
    and of associations: brands, phones, reviews and sentiments stay as they
    are and no topic or association row is changed or removed. If the keys
    (phone, label) and the ids of the topic rows were unique, with the ids
    below the AUTO_INCREMENT counter, they still are. *)
Theorem topic_pass_extends
    (tagger : str -> option doc)
    (fit_transform : bertopic -> list str -> option fitted)
    (set_order : list Z -> list Z)
    (rt_duplicate : review_topic -> review_topic -> bool)
    (query_error : Z -> option str) (d : db) :
  exists d' rep,
    run_topic_modeling (Some tagger) true fit_transform set_order rt_duplicate
                       query_error d = Ok (d', rep)
    /\ extends_derived d d'
    /\ (topics_sound d -> topics_sound d').
Proof.
  eexists _, _. split; [reflexivity |]. simpl.
  destruct (phone_steps_spec fit_transform set_order rt_duplicate query_error
              (phones_with_reviews d)
              {| ts_db := d; results := []; fit_calls := [] |})
    as (E & S & _). by split.
Qed.

(** X12. Running the topic pass a second time adds no topic row: it selects
    the same phones, the labels it asks for are those of the first run, and
    [INSERT IGNORE] finds them all. (Whether the ignored inserts use up
    values of the AUTO_INCREMENT counter is the server's business.) *)
Theorem topic_pass_again
    (nlp : option (str -> option doc)) (embedding_model : bool)
    (fit_transform : bertopic -> list str -> option fitted)
    (set_order : list Z -> list Z)
    (rt_duplicate : review_topic -> review_topic -> bool)
    (query_error : Z -> option str) (d d1 : db) (rep1 : topic_report) :
  run_topic_modeling nlp embedding_model fit_transform set_order rt_duplicate
                     query_error d = Ok (d1, rep1) ->
  exists d2 rep2,
    run_topic_modeling nlp embedding_model fit_transform set_order rt_duplicate
                       query_error d1 = Ok (d2, rep2)
    /\ topics d2 = topics d1
    /\ tr_phones_processed rep2 = tr_phones_processed rep1.
Proof.
  unfold run_topic_modeling.
  destruct (negb embedding_model || negb (bool_decide (is_Some nlp))); [done |].
  intros [= <- <-].
  destruct (phone_steps_spec fit_transform set_order rt_duplicate query_error
              (phones_with_reviews d)
              {| ts_db := d; results := []; fit_calls := [] |})
    as (E & _ & W & _). cbv zeta in E, W. simpl in E, W.
  set (d1 := ts_db (foldl _ {| ts_db := d; results := []; fit_calls := [] |}
                          (phones_with_reviews d))) in *.
  assert (Hp : phones d1 = phones d) by apply E.
  assert (Hr : reviews d1 = reviews d) by apply E.
  eexists _, _. split; [reflexivity |]. simpl.
  rewrite (phones_with_reviews_same d d1 Hp Hr).
  destruct (phone_steps_spec fit_transform set_order rt_duplicate query_error
              (phones_with_reviews d)
              {| ts_db := d1; results := []; fit_calls := [] |})
    as (_ & _ & _ & I). cbv zeta in I. simpl in I. rewrite Hr in I.
  pose proof (I W) as T. by split.
Qed.

Lemma topic_pass_again_witness :
  exists d1 rep1 d2 rep2,
    run_topic_modeling (Some no_tagger) true one_column_library remove_dups
      same_review_and_topic no_query_error (sample_db 10) = Ok (d1, rep1)
    /\ run_topic_modeling (Some no_tagger) true one_column_library remove_dups
         same_review_and_topic no_query_error d1 = Ok (d2, rep2)
    /\ length (topics d1) = 2
    /\ topics d2 = topics d1.
Proof.
  destruct (run_topic_modeling_outcomes no_tagger one_column_library remove_dups
              same_review_and_topic no_query_error (sample_db 10))
    as (d1 & rep1 & H1 & _).
  destruct (topic_pass_again _ _ _ _ _ _ _ _ _ H1) as (d2 & rep2 & H2 & T & _).
  exists d1, rep1, d2, rep2. split; [exact H1 |]. split; [exact H2 |].
  split; [| exact T].
  assert (E : run_topic_modeling (Some no_tagger) true one_column_library
                remove_dups same_review_and_topic no_query_error (sample_db 10)
              = Ok (d1, rep1)) by exact H1.
  vm_compute in E. injection E as <- _. reflexivity.
Defined.

Lemma topic_pass_extends_witness :
  exists d' rep,
    run_topic_modeling (Some no_tagger) true one_column_library remove_dups
      same_review_and_topic no_query_error (sample_db 10) = Ok (d', rep)
    /\ topics_sound d'.
Proof.
  destruct (topic_pass_extends no_tagger one_column_library remove_dups
              same_review_and_topic no_query_error (sample_db 10))
    as (d' & rep & H & _ & Hs).
  exists d', rep. split; [exact H |]. apply Hs.
  split; [constructor | split; constructor].
Defined.
(** ** The association loop on well-shaped output *)

Lemma row_max_defined (row : list Q) : row <> [] -> is_Some (row_max row).
Proof. destruct row; [done |]. by eexists. Qed.

Lemma relevance_defined (f : fitted) (n_docs i : nat) (topic_id : Z) :
  well_shaped f n_docs -> i < n_docs -> (0 <= topic_id)%Z ->
  is_Some (relevance (probs f) i topic_id).
Proof.
  intros [_ Hshape] Hi Htid. unfold relevance.
  destruct (probs f) as [[v | ncols rows] |]; try by eexists.
  destruct Hshape as (Hrows & Hcols & Hlen).
  destruct (lookup_lt_is_Some_2 rows i) as [row Hrow]; [lia |].
  pose proof (Forall_lookup_1 _ _ _ _ Hlen Hrow) as Hrowlen. simpl in Hrowlen.
  rewrite Hrow. simpl.
  destruct (Z.ltb_spec topic_id (Z.of_nat ncols)) as [Hlt | Hge]; simpl.
  - unfold np_index.
    destruct (Z.leb_spec 0 topic_id) as [_ | ?]; [| lia].
    destruct (Z.ltb_spec topic_id (Z.of_nat ncols)) as [_ | ?]; [| lia].
    simpl. apply lookup_lt_is_Some_2. lia.
  - apply row_max_defined. intros ->. simpl in Hrowlen. lia.
Qed.

Section AssociationLoop.

Variable rt_duplicate : review_topic -> review_topic -> bool.
Variable f : fitted.
Variable review_ids : list Z.
Variable topic_id topic_db_id : Z.
Variable n_docs : nat.
Hypothesis shaped : well_shaped f n_docs.
Hypothesis ids : length review_ids = n_docs.
Hypothesis real_topic : (0 <= topic_id)%Z.

Lemma insert_assignments_completes (rest : list Z) (i : nat)
    (rts : list review_topic) :
  i + length rest <= n_docs ->
  let out :=
    insert_assignments rt_duplicate f review_ids topic_id topic_db_id i rest rts in
  out.2 = true
  /\ length out.1
     <= length rts + length (List.filter (fun t => (t =? topic_id)%Z) rest)
  /\ ((forall a b, rt_duplicate a b = false) ->
      length out.1
      = length rts + length (List.filter (fun t => (t =? topic_id)%Z) rest)).
Proof.
  revert i rts. induction rest as [| doc_topic rest IH]; intros i rts Hi; simpl.
  { split; [done |]. split; [lia | intros _; lia]. }
  simpl in Hi.
  destruct (doc_topic =? topic_id)%Z.
  - destruct (relevance_defined f n_docs i topic_id shaped) as [score ->];
      [lia | exact real_topic |].
    destruct (lookup_lt_is_Some_2 review_ids i) as [rid ->]; [lia |].
    destruct (IH (S i)
                (insert_ignore_review_topic rt_duplicate rts
                   {| rt_review := rid; rt_topic := topic_db_id;
                      relevance_score := score |}))
      as (H1 & H2 & H3); [lia |].
    unfold insert_ignore_review_topic in *. simpl in *.
    destruct (existsb _ rts) eqn:E.
    + split; [exact H1 |]. split; [lia |]. intros Hnever. exfalso.
      apply existsb_exists in E as (x & _ & Hx). by rewrite Hnever in Hx.
    + rewrite length_app in H2, H3. simpl in H2, H3.
      split; [exact H1 |]. split; [lia |]. intros Hnever.
      specialize (H3 Hnever). lia.
  - destruct (IH (S i) rts) as (H1 & H2 & H3); [lia |]. by split.
Qed.

End AssociationLoop.

(** X13. On well-shaped output of the topic model (a topic per document and,
    if there is a matrix, a row per document with the same non-zero number
    of columns), the loop that writes the associations of a topic numbered
    0 or more never raises. It adds at most one row per document of the
    topic, and exactly one when [INSERT IGNORE] drops none. *)
Theorem association_loop_completes
    (rt_duplicate : review_topic -> review_topic -> bool)
    (f : fitted) (review_ids : list Z) (topic_id topic_db_id : Z)
    (rts : list review_topic) :
  well_shaped f (length review_ids) ->
  (0 <= topic_id)%Z ->
  let out :=
    insert_assignments rt_duplicate f review_ids topic_id topic_db_id 0
                       (doc_topics f) rts in
  out.2 = true
  /\ length out.1 <= length rts + docs_of_topic f topic_id
  /\ ((forall a b, rt_duplicate a b = false) ->
      length out.1 = length rts + docs_of_topic f topic_id).
Proof.
  intros Hshape Htid.
  apply (insert_assignments_completes rt_duplicate f review_ids topic_id
           topic_db_id (length review_ids) Hshape eq_refl Htid).
  destruct Hshape as [-> _]. simpl. lia.
Qed.

Lemma association_loop_completes_witness :
  (insert_assignments same_review_and_topic two_column_fit [11; 12; 13]%Z 0 7 0
     (doc_topics two_column_fit) []).2 = true.
Proof.
  apply (association_loop_completes same_review_and_topic two_column_fit
           [11; 12; 13]%Z 0 7 []).
  - split; [reflexivity |]. simpl. split; [reflexivity |]. split; [lia |].
    by repeat constructor.
  - lia.
Defined.
(** ** The sentiment summary of a phone *)

Lemma count_label_cons (label : str) (s : sentiment) (rows : list sentiment) :
  count_label label (s :: rows)
  = (if bool_decide (sentiment_label s = label) then 1 else 0)
    + count_label label rows.
Proof.
  unfold count_label, str_eqb. simpl.
  by destruct (bool_decide (sentiment_label s = label)).
Qed.

Lemma counts_lookup (rows : list sentiment) (m : gmap str nat) (label : str) :
  foldl (fun m s =>
           <[sentiment_label s := default 0 (m !! sentiment_label s) + 1]> m)
        m rows !! label
  = match m !! label with
    | Some n => Some (n + count_label label rows)
    | None =>
        if count_label label rows =? 0 then None
        else Some (count_label label rows)
    end.
Proof.
  revert m. induction rows as [| s rows IH]; intros m.
  { simpl. destruct (m !! label) as [n |]; [| done]. f_equal.
    unfold count_label. simpl. lia. }
  cbn [foldl]. rewrite IH, count_label_cons.
  destruct (bool_decide_reflect (sentiment_label s = label)) as [-> | Hne].
  - rewrite lookup_insert_eq.
    destruct (m !! label) as [n |]; simpl; [f_equal; lia |].
    destruct (count_label label rows); simpl; f_equal; lia.
  - rewrite lookup_insert_ne by done. simpl.
    by destruct (m !! label) as [n |].
Qed.

Lemma count_label_le (label : str) (rows : list sentiment) :
  count_label label rows <= length rows.
Proof. unfold count_label. apply List.filter_length_le. Qed.

Lemma round1_bounds (x : Q) :
  (0 <= x)%Q -> (x <= 100)%Q -> (0 <= round1 x)%Q /\ (round1 x <= 100)%Q.
Proof.
  intros H0 H100. unfold round1.
  set (t := (x * 10)%Q).
  assert (Ht0 : (0 <= t)%Q).
  { unfold t. apply Qmult_le_0_compat; [exact H0 | by unfold Qle; simpl; lia]. }
  assert (Ht1 : (t <= 1000)%Q).
  { unfold t. change 1000%Q with (100 * 10)%Q.
    apply Qmult_le_compat_r; [exact H100 | by unfold Qle; simpl; lia]. }
  clearbody t. clear H0 H100. destruct t as [n p].
  unfold Qle in Ht0, Ht1. simpl in *.
  set (den := Z.pos p) in *.
  assert (Hden : (0 < den)%Z) by (unfold den; lia).
  pose proof (Z.div_mod n den ltac:(lia)) as Hdm.
  pose proof (Z.mod_pos_bound n den Hden) as Hmod.
  set (fl := (n / den)%Z) in *. set (r := (n mod den)%Z) in *.
  assert (Hfl : (0 <= fl <= 1000)%Z) by nia.
  assert (Hk : (fl = 1000 -> r = 0)%Z) by nia.
  unfold Qle. simpl.
  destruct (Z.ltb_spec (2 * r) den); [lia |].
  destruct (Z.ltb_spec den (2 * r)); [lia |].
  destruct (Z.even fl); lia.
Qed.

(** X14. The sentiment summary of a phone counts, for each label, the
    sentiment rows of the phone's reviews with that label (a label without
    row has no entry), [total_reviews] is the number of these rows, and
    every percentage lies between 0 and 100. *)
Theorem get_sentiments_summary (d : db) (pid : Z) (label : str) :
  let body := get_sentiments d pid in
  let rows := phone_sentiments d pid in
  sb_total_reviews body = length rows
  /\ sm_count <$> (sb_sentiments body !! label)
     = (if count_label label rows =? 0 then None
        else Some (count_label label rows))
  /\ (forall s, sb_sentiments body !! label = Some s ->
        0 < sm_count s <= sb_total_reviews body
        /\ (0 <= sm_percentage s)%Q /\ (sm_percentage s <= 100)%Q).
Proof.
  intros body rows. unfold body, get_sentiments. fold rows. simpl.
  split; [done |]. rewrite lookup_fmap, counts_lookup, lookup_empty.
  pose proof (count_label_le label rows) as Hle.
  destruct (Nat.eqb_spec (count_label label rows) 0) as [E | Hne]; simpl.
  - split; [done |]. by intros s.
  - split; [done |]. intros s [= <-]. simpl. split; [lia |].
    destruct (Nat.ltb_spec 0 (length rows)) as [Hpos | ?]; [| lia].
    unfold percentage. apply round1_bounds; by apply float_percentage_bounds.
Qed.

Lemma get_sentiments_summary_witness :
  sm_count <$> (sb_sentiments (get_sentiments unrated_db 1) !! py "positive")
  = None.
Proof.
  destruct (get_sentiments_summary unrated_db 1 (py "positive")) as (_ & H & _).
  exact H.
Defined.
(** ** More on normalised text *)

Lemma lower_char_idempotent (c : ascii) :
  lower_char (lower_char c) = lower_char c.
Proof. each_char c. Qed.

Lemma lstrip_lower (s : str) :
  lstrip (map lower_char s) = map lower_char (lstrip s).
Proof.
  induction s as [| c r IH]; [done |]. simpl.
  rewrite isspace_lower_char. by destruct (isspace c).
Qed.

Lemma strip_lower (s : str) : strip (lower s) = lower (strip s).
Proof.
  unfold strip, rstrip, lower.
  by rewrite lstrip_lower, <- map_rev, lstrip_lower, map_rev.
Qed.

(** X15. On Latin-1 text, which is what [str] holds here, normalisation
    ignores letter case: a text and its lowercase form are normalised to
    the same string (in particular both pass, or both fail, the
    10-character floor). The restriction matters: beyond Latin-1,
    [str.lower] can lengthen a text (U+0130 becomes two code points) and so
    carry it over the floor. *)
Theorem clean_text_ignores_case (text : str) :
  clean_text (lower text) = clean_text text.
Proof.
  unfold clean_text. rewrite strip_lower.
  assert (Hlen : length (lower (strip text)) = length (strip text))
    by apply length_map.
  assert (Hnil : bool_decide (lower text = []) = bool_decide (text = [])).
  { apply bool_decide_ext. by destruct text. }
  rewrite Hlen, Hnil.
  destruct (bool_decide (text = []) || (length (strip text) <? 10)); [done |].
  f_equal. f_equal. f_equal. unfold lower. rewrite map_map.
  apply map_ext. apply lower_char_idempotent.
Qed.

Lemma split_from_nonempty (s cur : str) : cur <> [] -> split_from cur s <> [].
Proof.
  revert cur. induction s as [| c r IH]; intros cur Hcur; simpl.
  - by destruct cur.
  - destruct (isspace c); [by destruct cur | by apply IH].
Qed.

Lemma ends_clean_tail (c : ascii) (r : str) :
  ends_clean (c :: r) -> r <> [] -> ends_clean r.
Proof.
  unfold ends_clean. simpl. intros H Hr.
  apply (starts_clean_prefix (rev r) [c] H).
  intros E. apply Hr. apply (f_equal (@rev ascii)) in E.
  by rewrite rev_involutive in E.
Qed.

Lemma join_split_from (s cur : str) :
  Forall clean_char s -> single_spaced s -> ends_clean s ->
  (cur = [] -> starts_clean s) ->
  join (py " ") (split_from cur s) = rev cur ++ s.
Proof.
  revert cur. induction s as [| c r IH]; intros cur Hc Hs He Hb.
  { simpl. destruct cur as [| x cur]; [done |]. simpl. by rewrite app_nil_r. }
  apply Forall_cons in Hc as [Hc Hcr]. cbn [split_from].
  destruct (isspace c) eqn:Ec.
  - assert (c = " "%char) as ->.
    { destruct Hc as [Hl | ->]; [| done].
      by rewrite (lowercase_not_space c Hl) in Ec. }
    destruct cur as [| x cur]; [by specialize (Hb eq_refl); simpl in Hb |].
    assert (Hr : r <> []) by (intros ->; by unfold ends_clean in He).
    assert (Hstart : starts_clean r).
    { destruct r as [| c' r']; [done |]. simpl.
      apply Forall_cons in Hcr as [[Hl | ->] _];
        [by apply lowercase_not_space |].
      exfalso. by apply (Hs [] r'). }
    specialize (IH [] Hcr (single_spaced_tail _ _ Hs)
                  (ends_clean_tail _ _ He Hr) (fun _ => Hstart)).
    simpl in IH. simpl.
    destruct (split_from [] r) as [| w ws] eqn:Esplit.
    + exfalso. destruct r as [| c' r']; [done |]. simpl in Hstart, Esplit.
      rewrite Hstart in Esplit. by apply (split_from_nonempty r' [c']).
    + rewrite IH. by rewrite <- app_assoc.
  - rewrite (IH (c :: cur)); [simpl; by rewrite <- app_assoc | exact Hcr | | |
                              done].
    + exact (single_spaced_tail _ _ Hs).
    + destruct r as [| c' r']; [exact I |]. by apply (ends_clean_tail c).
Qed.

(** X16. Splitting normalised text into words and joining the words with
    single spaces gives the text back. *)
Theorem join_split_clean_text (text : str) :
  join (py " ") (split (clean_text text)) = clean_text text.
Proof.
  destruct (clean_text_normalized text) as [Hc Hs Hb He].
  unfold split. by rewrite join_split_from.
Qed.
(** ** What the topic model is given *)

Lemma model_bounds (n : nat) :
  (3 <= nr_topics (bigram_model n) <= 8
   /\ 5 <= min_topic_size (bigram_model n)
   /\ max_features (vectorizer_model (bigram_model n)) = 500)
  /\ (3 <= nr_topics (unigram_model n) <= 8
      /\ 5 <= min_topic_size (unigram_model n)
      /\ max_features (vectorizer_model (unigram_model n)) = 500).
Proof.
  unfold bigram_model, unigram_model, create_topic_model.
  cbn [nr_topics min_topic_size vectorizer_model max_features].
  repeat split; lia.
Qed.

(** X18. The topic model is never called on fewer than 10 documents. Every
    call is made with the kept documents of a selected phone, asks for
    between 3 and 8 topics of at least 5 documents each and a vocabulary of
    at most 500 terms, and uses [min_df] 2 or 3 with [max_df] 0.9 or 0.8 on
    bigrams, or [min_df] 1 with [max_df] 1.0 on unigrams. *)
Theorem topic_model_calls_bounded
    (tagger : str -> option doc)
    (fit_transform : bertopic -> list str -> option fitted)
    (set_order : list Z -> list Z)
    (rt_duplicate : review_topic -> review_topic -> bool)
    (query_error : Z -> option str) (d : db) :
  exists d' rep,
    run_topic_modeling (Some tagger) true fit_transform set_order rt_duplicate
                       query_error d = Ok (d', rep)
    /\ forall pid model docs,
         In (pid, model, docs) (tr_fit_calls rep) ->
         10 <= length docs
         /\ (exists p, In p (phones_with_reviews d) /\ phone_id p = pid
                       /\ docs = phone_docs (reviews d) p)
         /\ 3 <= nr_topics model <= 8
         /\ 5 <= min_topic_size model
         /\ max_features (vectorizer_model model) = 500
         /\ (model = bigram_model (length docs)
             /\ In (min_df (vectorizer_model model),
                    max_df (vectorizer_model model))
                   [(2, 0.9%Q); (3, 0.8%Q)]
             \/ model = unigram_model (length docs)).
Proof.
  destruct (run_topic_modeling_outcomes tagger fit_transform set_order
              rt_duplicate query_error d)
    as (d' & rep & Hrun & _ & outs & Houts & _ & Hcalls).
  exists d', rep. split; [exact Hrun |]. intros pid model docs Hc.
  rewrite Hcalls in Hc. apply in_concat in Hc as (cs & Hcs & Hc).
  apply in_map_iff in Hcs as ([msg calls] & <- & Hout).
  destruct (Forall2_In_r _ _ _ _ Houts Hout) as (p & Hp & Hrel).
  simpl in Hrel, Hc.
  assert (Hcase :
    10 <= length (phone_docs (reviews d) p) /\ pid = phone_id p
    /\ docs = phone_docs (reviews d) p
    /\ (model = bigram_model (length docs)
        \/ model = unigram_model (length docs))).
  { inversion Hrel; subst; simpl in Hc;
      repeat match goal with
             | H : _ \/ _ |- _ => destruct H
             | H : False |- _ => destruct H
             | H : (_, _, _) = (_, _, _) |- _ => injection H as <- <- <-
             end; auto. }
  destruct Hcase as (Hten & -> & -> & Hmodel).
  destruct (model_bounds (length (phone_docs (reviews d) p)))
    as [(B1 & B2 & B3) (U1 & U2 & U3)].
  split; [exact Hten |]. split; [by exists p |].
  destruct Hmodel as [-> | ->].
  - split; [exact B1 |]. split; [exact B2 |]. split; [exact B3 |]. left.
    split; [done |]. unfold bigram_model. simpl.
    destruct (length (phone_docs (reviews d) p) <? 20);
      [by left | right; by left].
  - split; [exact U1 |]. split; [exact U2 |]. split; [exact U3 |]. by right.
Qed.

(** ** The status after a sentiment pass *)

Lemma pass_size (classify : str -> option (str * Q)) (l : list review)
    (st : pass_state) :
  NoDup (map review_id l) ->
  (forall r, In r l -> ps_sentiments st !! review_id r = None) ->
  size (ps_sentiments (foldl (sentiment_step classify) st l)) + processed st
  = size (ps_sentiments st) + processed (foldl (sentiment_step classify) st l).
Proof.
  revert st. induction l as [| r l IH]; intros st Hnd Hnone; [simpl; lia |].
  simpl in Hnd. apply NoDup_cons in Hnd as [Hnotin Hnd]. cbn [foldl].
  assert (Hr : ps_sentiments st !! review_id r = None) by (apply Hnone; by left).
  assert (Hstep :
    size (ps_sentiments (sentiment_step classify st r)) + processed st
    = size (ps_sentiments st) + processed (sentiment_step classify st r)
    /\ forall r', In r' l ->
         ps_sentiments (sentiment_step classify st r) !! review_id r' = None).
  { unfold sentiment_step.
    destruct (length (strip (review_text r)) <? 10).
    { split; [lia |]. intros r' Hr'. apply Hnone. by right. }
    destruct (classify (review_text r)) as [[result_label score] |]; simpl.
    - split; [rewrite map_size_insert_None by exact Hr; lia |].
      intros r' Hr'. rewrite lookup_insert_ne; [apply Hnone; by right |].
      intros E. apply Hnotin. rewrite E. apply list_elem_of_In. by apply in_map.
    - split; [lia |]. intros r' Hr'. apply Hnone. by right. }
  destruct Hstep as [Hsize Hnone'].
  specialize (IH (sentiment_step classify st r) Hnd Hnone'). lia.
Qed.

Lemma NoDup_take_filter {A B} `{EqDecision B} (f : A -> B) (g : A -> bool)
    (n : nat) (l : list A) :
  NoDup (map f l) -> NoDup (map f (take n (List.filter g l))).
Proof.
  revert n. induction l as [| a l IH]; intros n Hnd; simpl.
  { rewrite take_nil. constructor. }
  simpl in Hnd. apply NoDup_cons in Hnd as [Hnotin Hnd].
  destruct (g a); [| by apply IH].
  destruct n as [| n]; [constructor |]. simpl. apply NoDup_cons. split; [| by apply IH].
  intros Hin. apply Hnotin.
  apply list_elem_of_In, in_map_iff in Hin as (x & Hx & Hin).
  apply In_take, List.filter_In in Hin as [Hin _].
  apply list_elem_of_In, in_map_iff. by exists x.
Qed.

(** X19. When the review ids are unique, a sentiment pass adds exactly
    [processed] sentiment rows: the status endpoint reports [processed]
    more processed sentiments and [processed] fewer unprocessed reviews
    than before. *)
Theorem status_after_sentiment_pass
    (classify : str -> option (str * Q)) (d : db) :
  review_ids_unique d ->
  exists d' rep,
    run_sentiment_analysis (Some classify) d = Ok (d', rep)
    /\ processed_sentiments (get_processing_status d')
       = processed_sentiments (get_processing_status d) + sr_processed rep
    /\ unprocessed_reviews (get_processing_status d')
       = (unprocessed_reviews (get_processing_status d)
          - Z.of_nat (sr_processed rep))%Z
    /\ total_reviews (get_processing_status d')
       = total_reviews (get_processing_status d).
Proof.
  intros Hu. eexists _, _. split; [reflexivity |].
  unfold get_processing_status. simpl.
  pose proof (pass_size classify (unprocessed d)
                {| ps_sentiments := sentiments d; processed := 0; errors := 0;
                   classified := [] |}) as Hsize.
  simpl in Hsize. rewrite Nat.add_0_r in Hsize.
  rewrite Hsize; [split; [done |]; split; [lia | done] | |].
  - unfold unprocessed. by apply NoDup_take_filter.
  - by intros r [_ Hnone]%unprocessed_In.
Qed.

Lemma status_after_sentiment_pass_witness :
  exists d' rep,
    run_sentiment_analysis (Some always_positive) two_reviews_db = Ok (d', rep)
    /\ processed_sentiments (get_processing_status d')
       = processed_sentiments (get_processing_status two_reviews_db)
         + sr_processed rep.
Proof.
  destruct (status_after_sentiment_pass always_positive two_reviews_db)
    as (d' & rep & H & Hp & _).
  - apply (bool_decide_unpack (NoDup (map review_id (reviews two_reviews_db)))).
    by vm_compute.
  - by exists d', rep.
Defined.
